(** * RLOP: Soft Actor-Critic trainer ([rlop/rl/rl.h], [rlop/rl/sac/sac.h])

    A shallow embedding of the classes [rlop::RL] and [rlop::SAC].

    Conventions of the embedding.
    - [Int] of [rlop/common/platform.h] is a signed machine integer whose
      declaration is not part of the two headers; it is modelled as [Z]
      (signed overflow is undefined in C++, so no wrap-around is written).
    - [double] values and tensor entries are exact rationals ([Qc]); IEEE
      rounding, infinities and NaN are outside the model.
    - A [torch::Tensor] carries its data and the autograd leaves its graph
      reaches; an undefined tensor ([torch::Tensor()]) is [None].
    - [std::unique_ptr] members are [option]s, [nullptr] being [None];
      dereferencing [None] makes the operation fail.
    - A member function is a function [State -> option State]; [None] is an
      exception or a crash.
    - The pure virtual members of [SAC], the networks of [policy.h], the
      optimizers and the environment are the fields of the record [Env]. *)

From Stdlib Require Import ZArith QArith Qcanon Lia.
From stdpp Require Import base option list strings gmap numbers.

Local Open Scope Z_scope.

(** ** Scalars *)

Abbreviation Int := Z.
Abbreviation double := Qc.

Definition qc (n : Z) (d : positive) : Qc := Q2Qc (n # d).

Definition Qcmin (a b : Qc) : Qc := if Qclt_le_dec b a then b else a.

(** [double(n)] for an [Int] [n]. *)
Definition Qc_of_Z (n : Z) : Qc := Q2Qc (inject_Z n).

Definition Qcsum (l : list Qc) : Qc := foldr Qcplus (qc 0 1) l.

(** [t.mean()]: the sum over the number of entries. *)
Definition Qcmean (l : list Qc) : Qc :=
  (Qcsum l / Qc_of_Z (Z.of_nat (length l)))%Qc.

(** ** Tensors with their autograd leaves *)

Inductive Leaf : Type :=
  | LActor          (* actor_->parameters() *)
  | LCritic         (* critic_->parameters() *)
  | LCriticTarget   (* critic_target_->parameters() *)
  | LLogEntCoef.    (* log_ent_coef_ *)

Global Instance Leaf_eq_dec : EqDecision Leaf.
Proof. solve_decision. Defined.

Record Tensor : Type := mkTensor {
  data : list Qc;
  leaves : list Leaf
}.

Global Instance Tensor_eq_dec : EqDecision Tensor.
Proof. solve_decision. Defined.

(** A tensor that is not part of any graph. *)
Definition plain (d : list Qc) : Tensor := mkTensor d [].

(** [torch::tensor(x)] for a scalar [x]. *)
Definition scalar_tensor (x : Qc) : Tensor := plain [x].

(** Leaves recorded by an operation: none while a [torch::NoGradGuard] is
    alive ([g = false]). *)
Definition track (g : bool) (ls : list Leaf) : list Leaf :=
  if g then ls else [].

(** Pointwise binary operation; an operand with one entry is broadcast. *)
Definition bcast (f : Qc -> Qc -> Qc) (a b : list Qc) : list Qc :=
  match a, b with
  | [x], _ => map (f x) b
  | _, [y] => map (fun x => f x y) a
  | _, _ => zip_with f a b
  end.

Definition tbin (g : bool) (f : Qc -> Qc -> Qc) (a b : Tensor) : Tensor :=
  mkTensor (bcast f (data a) (data b)) (track g (leaves a ++ leaves b)).

Definition tmap (g : bool) (f : Qc -> Qc) (a : Tensor) : Tensor :=
  mkTensor (map f (data a)) (track g (leaves a)).

Definition tadd g := tbin g Qcplus.
Definition tsub g := tbin g Qcminus.
Definition tmul g := tbin g Qcmult.
Definition tneg g := tmap g Qcopp.
(** [c - t], [t * c] and [t + c] for a C++ scalar [c]. *)
Definition rsub g (c : Qc) := tmap g (fun x => (c - x)%Qc).
Definition tscale g (c : Qc) := tmap g (fun x => (x * c)%Qc).
Definition tshift g (c : Qc) := tmap g (fun x => (x + c)%Qc).
Definition tsquare g := tmap g (fun x => (x * x)%Qc).

(** [t.mean()]. *)
Definition tmean (g : bool) (a : Tensor) : Tensor :=
  mkTensor [Qcmean (data a)] (track g (leaves a)).

(** [t.detach()]. *)
Definition detach (a : Tensor) : Tensor := plain (data a).

(** [std::get<0>(torch::stack(ts, 1).min(1))]: the entrywise minimum over
    the members. [torch::stack] throws on an empty list and on members of
    different sizes. *)
Definition stack_min (g : bool) (ts : list Tensor) : option Tensor :=
  match ts with
  | [] => None
  | t :: rest =>
      if forallb (fun r => Nat.eqb (length (data r)) (length (data t))) rest
      then Some (mkTensor
                   (foldl (fun acc r => zip_with Qcmin acc (data r)) (data t) rest)
                   (track g (concat (map leaves ts))))
      else None
  end.

(** [torch::stack(ts).mean()] over a list of statistics: an exception on
    the empty list. *)
Definition stack_mean (ts : list Tensor) : option Qc :=
  match ts with
  | [] => None
  | _ => Some (Qcmean (concat (map data ts)))
  end.

(** [torch::mse_loss(a, b)]. *)
Definition mse_loss (g : bool) (a b : Tensor) : Tensor :=
  tmean g (tsquare g (tsub g a b)).

(** ** Modules: learnable parameters and buffers (running statistics) *)

Record Module : Type := mkModule {
  params : list Qc;
  buffers : list Qc;
  training : bool
}.

Definition set_training (b : bool) (m : Module) : Module :=
  mkModule (params m) (buffers m) b.

(** In-place update of every entry, as an optimizer step does. *)
Definition update_in_place (f : nat -> Qc -> Qc) (l : list Qc) : list Qc :=
  imap f l.

Module torch_utils.

(** Modelled from the spec: [torch_utils::PolyakUpdate] of
    [rlop/common/torch_utils.h], which is not among the sources:
    [target <- tau*source + (1-tau)*target], entry by entry. *)
Definition PolyakUpdate (source target : list Qc) (tau : Qc) : list Qc :=
  zip_with (fun s t => (tau * s + (1 - tau) * t)%Qc) source target.

(** Modelled from the spec: [torch_utils::CopyStateDict] of
    [rlop/common/torch_utils.h], which is not among the sources: the
    destination takes the parameters and buffers of the source ("parameter-
    copied from Critic at initialization"); its mode is its own. *)
Definition CopyStateDict (src dst : Module) : Module :=
  mkModule (params src) (buffers src) (training dst).

End torch_utils.

(** ** Replay buffer *)

(** One stored transition: the arguments of [replay_buffer_->Add]. *)
Record Transition : Type := mkTransition {
  tr_observation : list Qc;
  tr_action : list Qc;
  tr_next_observation : list Qc;
  tr_reward : list Qc;
  tr_done : list Qc
}.

(** What [Sample(batch_size).to(device_)] hands to [Train]: [reward] and
    [done] have one entry per sampled transition. *)
Record Batch : Type := mkBatch {
  observation : list Qc;
  action : list Qc;
  next_observation : list Qc;
  reward : list Qc;
  done : list Qc
}.

(** Modelled from the spec: the [ReplayBuffer] of [rlop/rl/buffers.h],
    which is not among the sources: a store of fixed capacity; [Add]
    appends one transition and evicts the oldest one once the capacity is
    reached; [action_sizes] is the per-element action shape. *)
Record ReplayBuffer : Type := mkReplayBuffer {
  capacity : nat;
  action_sizes : list Int;
  storage : list Transition
}.

(** Modelled from the spec: [ReplayBuffer::Add] of [rlop/rl/buffers.h],
    which is not among the sources: the transition is appended and the
    oldest ones are dropped beyond the capacity. *)
Definition Add (t : Transition) (b : ReplayBuffer) : ReplayBuffer :=
  let s := storage b ++ [t] in
  mkReplayBuffer (capacity b) (action_sizes b)
                 (drop (length s - capacity b)%nat s).

(** ** Archives *)

(** The state of an optimizer (Adam's moments and step count). *)
Abbreviation OptSt := (list Qc) (only parsing).

Inductive SubArchive : Type :=
  | SModule (p b : list Qc)     (* written by [Module::save] *)
  | SOptim (o : OptSt).         (* written by [Optimizer::save] *)

Inductive Entry : Type :=
  | ETensor (v : list Qc)
  | ESub (a : SubArchive).

(** [archive->try_read(key, tensor)]. *)
Definition try_read_tensor (a : gmap string Entry) (key : string)
  : option (list Qc) :=
  match a !! key with
  | Some (ETensor v) => Some v
  | _ => None
  end.

(** [archive->try_read(key, sub_archive)]. *)
Definition try_read_archive (a : gmap string Entry) (key : string)
  : option SubArchive :=
  match a !! key with
  | Some (ESub s) => Some s
  | _ => None
  end.

(** [archive->write(key, value)]. *)
Definition write (key : string) (e : Entry) (a : gmap string Entry)
  : gmap string Entry := <[key := e]> a.

(** [module->save(archive)] and [module->load(archive)]: loading throws
    when the archive is not that of a module of the same shape. *)
Definition module_save (m : Module) : SubArchive :=
  SModule (params m) (buffers m).

Definition module_load (s : SubArchive) (m : Module) : option Module :=
  match s with
  | SModule p b =>
      if Nat.eqb (length p) (length (params m))
         && Nat.eqb (length b) (length (buffers m))
      then Some (mkModule p b (training m))
      else None
  | SOptim _ => None
  end.

Definition optimizer_save (o : OptSt) : SubArchive := SOptim o.

Definition optimizer_load (s : SubArchive) (o : OptSt) : option OptSt :=
  match s with
  | SOptim o' => Some o'
  | SModule _ _ => None
  end.

(** [tensor.item<T>()]: throws unless the tensor has exactly one entry. *)
Definition item (v : list Qc) : option Qc :=
  match v with
  | [x] => Some x
  | _ => None
  end.

(** Conversion of a tensor entry to [Int] (truncation toward zero) and to
    [bool] (non-zero). *)
Definition Qc_to_Z (x : Qc) : Z := Z.quot (Qnum x) (Zpos (Qden x)).

Definition item_Int (v : list Qc) : option Int := Qc_to_Z <$> item v.
Definition item_double (v : list Qc) : option double := item v.
Definition item_bool (v : list Qc) : option bool :=
  (fun x => negb (bool_decide (x = qc 0 1))) <$> item v.

(** [torch::tensor(n)] for an [Int] and [torch::tensor(b)] for a [bool]. *)
Definition tensor_of_Int (n : Int) : list Qc := [Qc_of_Z n].
Definition tensor_of_bool (b : bool) : list Qc :=
  [if b then qc 1 1 else qc 0 1].

(** ** The collaborators of the trainer

    The pure virtual members of [RL] and [SAC], the members of [SACActor]
    and [SACCritic] ([policy.h]), [ReplayBuffer::Sample], the Adam
    optimizer and the gradients that [backward()] leaves for it. Sampling
    functions take the position of the random source. *)
Record Env : Type := mkEnv {
  NumEnvs : Int;
  ResetEnv : list Qc -> list Qc * list Qc;
  Step : list Qc -> list Qc -> list Qc * (list Qc * list Qc * list Qc);
  SampleAction : nat -> list Qc;
  buffer_capacity : nat;
  buffer_action_sizes : list Int;
  Sample : ReplayBuffer -> Int -> nat -> option Batch;
  MakeActor : nat -> Module;
  MakeCritic : nat -> Module;
  ResetCritic : Module -> Module;
  PredictAction : Module -> nat -> list Qc -> list Qc;
  PredictActionLogProb : Module -> nat -> list Qc -> list Qc * list Qc;
  Forward : Module -> list Qc -> list Qc -> list (list Qc);
  ent_coef_grad : list Qc -> list Qc -> list Qc;
  critic_grad : Module -> Batch -> list Qc -> list Qc;
  actor_grad : Module -> Module -> Batch -> nat -> list Qc -> list Qc;
  adam_init : double -> list Qc -> OptSt;
  adam_step : OptSt -> list Qc -> OptSt * (nat -> Qc -> Qc);
  texp : Qc -> Qc;
  tlog : Qc -> Qc
}.

(** [MakeReplayBuffer()]: a new buffer holds nothing. *)
Definition MakeReplayBuffer (E : Env) : ReplayBuffer :=
  mkReplayBuffer (buffer_capacity E) (buffer_action_sizes E) [].

(** A line of the log: the column names, or [time_steps_] followed by the
    value of every log item. *)
Inductive Row : Type :=
  | Header (names : list string)
  | Values (ts : Int) (vals : list (string * option Qc)).

(** The steps of [Train] that act on the networks, with the index of the
    gradient step they belong to and the tensor they work from. *)
Inductive Event : Type :=
  | EvEntCoefStep (step : Int)     (* ent_coef_optimizer_->step() *)
  | EvTargetQ (step : Int) (target_q_values : Tensor)
  | EvCriticStep (step : Int) (critic_loss : Tensor)
                                   (* critic_optimizer_->step() *)
  | EvActorStep (step : Int) (actor_loss : Tensor)
                                   (* actor_optimizer_->step() *)
  | EvPolyakUpdate (step : Int).   (* both PolyakUpdate calls *)

Global Instance Event_eq_dec : EqDecision Event.
Proof. solve_decision. Defined.

(** The data members of [RL] ([rl.h], lines 180-188); [device_] is left out.
    A log item is [None] while its tensor is undefined. *)
Record RLBase : Type := mkRLBase {
  num_iters_ : Int;
  time_steps_ : Int;
  max_time_steps_ : Int;
  num_updates_ : Int;
  monitor_interval_ : Int;
  checkpoint_interval_ : Int;
  output_path_ : string;
  log_items_ : gmap string (option Qc)
}.

(** The scalar data members of [SAC] ([sac.h], lines 390-401). *)
Record HParams : Type := mkHParams {
  learning_starts_ : Int;
  batch_size_ : Int;
  lr_ : double;
  tau_ : double;
  gamma_ : double;
  ent_coef_ : double;
  target_entropy_ : double;
  auto_ent_coef_ : bool;
  auto_target_entropy_ : bool;
  train_freq_ : Int;
  gradient_steps_ : Int;
  target_update_interval_ : Int
}.

(** The owned objects and tensors of [SAC] ([sac.h], lines 402-411). *)
Record Nets : Type := mkNets {
  replay_buffer_ : option ReplayBuffer;
  actor_ : option Module;
  critic_ : option Module;
  critic_target_ : option Module;
  actor_optimizer_ : option OptSt;
  critic_optimizer_ : option OptSt;
  ent_coef_optimizer_ : option OptSt;
  log_ent_coef_ : option Tensor;
  ent_coef_tensor_ : option Tensor;
  observation_ : option (list Qc)
}.

(** What the object acts on: the simulator behind [Step], the random source,
    the log file, the console, the checkpoint files written, and the
    sequence of training events performed so far. *)
Record World : Type := mkWorld {
  env_ : list Qc;
  rng_ : nat;
  log_txt_ : list Row;
  console_ : list Row;
  checkpoints_ : list (gmap string Entry);
  trace_ : list Event
}.

Definition set_num_iters_ (v : Int) (r : RLBase) : RLBase :=
  mkRLBase v (time_steps_ r) (max_time_steps_ r) (num_updates_ r) (monitor_interval_ r) (checkpoint_interval_ r) (output_path_ r) (log_items_ r).
Definition set_time_steps_ (v : Int) (r : RLBase) : RLBase :=
  mkRLBase (num_iters_ r) v (max_time_steps_ r) (num_updates_ r) (monitor_interval_ r) (checkpoint_interval_ r) (output_path_ r) (log_items_ r).
Definition set_max_time_steps_ (v : Int) (r : RLBase) : RLBase :=
  mkRLBase (num_iters_ r) (time_steps_ r) v (num_updates_ r) (monitor_interval_ r) (checkpoint_interval_ r) (output_path_ r) (log_items_ r).
Definition set_num_updates_ (v : Int) (r : RLBase) : RLBase :=
  mkRLBase (num_iters_ r) (time_steps_ r) (max_time_steps_ r) v (monitor_interval_ r) (checkpoint_interval_ r) (output_path_ r) (log_items_ r).
Definition set_monitor_interval_ (v : Int) (r : RLBase) : RLBase :=
  mkRLBase (num_iters_ r) (time_steps_ r) (max_time_steps_ r) (num_updates_ r) v (checkpoint_interval_ r) (output_path_ r) (log_items_ r).
Definition set_checkpoint_interval_ (v : Int) (r : RLBase) : RLBase :=
  mkRLBase (num_iters_ r) (time_steps_ r) (max_time_steps_ r) (num_updates_ r) (monitor_interval_ r) v (output_path_ r) (log_items_ r).
Definition set_output_path_ (v : string) (r : RLBase) : RLBase :=
  mkRLBase (num_iters_ r) (time_steps_ r) (max_time_steps_ r) (num_updates_ r) (monitor_interval_ r) (checkpoint_interval_ r) v (log_items_ r).
Definition set_log_items_ (v : gmap string (option Qc)) (r : RLBase) : RLBase :=
  mkRLBase (num_iters_ r) (time_steps_ r) (max_time_steps_ r) (num_updates_ r) (monitor_interval_ r) (checkpoint_interval_ r) (output_path_ r) v.

Definition set_learning_starts_ (v : Int) (r : HParams) : HParams :=
  mkHParams v (batch_size_ r) (lr_ r) (tau_ r) (gamma_ r) (ent_coef_ r) (target_entropy_ r) (auto_ent_coef_ r) (auto_target_entropy_ r) (train_freq_ r) (gradient_steps_ r) (target_update_interval_ r).
Definition set_batch_size_ (v : Int) (r : HParams) : HParams :=
  mkHParams (learning_starts_ r) v (lr_ r) (tau_ r) (gamma_ r) (ent_coef_ r) (target_entropy_ r) (auto_ent_coef_ r) (auto_target_entropy_ r) (train_freq_ r) (gradient_steps_ r) (target_update_interval_ r).
Definition set_lr_ (v : double) (r : HParams) : HParams :=
  mkHParams (learning_starts_ r) (batch_size_ r) v (tau_ r) (gamma_ r) (ent_coef_ r) (target_entropy_ r) (auto_ent_coef_ r) (auto_target_entropy_ r) (train_freq_ r) (gradient_steps_ r) (target_update_interval_ r).
Definition set_tau_ (v : double) (r : HParams) : HParams :=
  mkHParams (learning_starts_ r) (batch_size_ r) (lr_ r) v (gamma_ r) (ent_coef_ r) (target_entropy_ r) (auto_ent_coef_ r) (auto_target_entropy_ r) (train_freq_ r) (gradient_steps_ r) (target_update_interval_ r).
Definition set_gamma_ (v : double) (r : HParams) : HParams :=
  mkHParams (learning_starts_ r) (batch_size_ r) (lr_ r) (tau_ r) v (ent_coef_ r) (target_entropy_ r) (auto_ent_coef_ r) (auto_target_entropy_ r) (train_freq_ r) (gradient_steps_ r) (target_update_interval_ r).
Definition set_ent_coef_ (v : double) (r : HParams) : HParams :=
  mkHParams (learning_starts_ r) (batch_size_ r) (lr_ r) (tau_ r) (gamma_ r) v (target_entropy_ r) (auto_ent_coef_ r) (auto_target_entropy_ r) (train_freq_ r) (gradient_steps_ r) (target_update_interval_ r).
Definition set_target_entropy_ (v : double) (r : HParams) : HParams :=
  mkHParams (learning_starts_ r) (batch_size_ r) (lr_ r) (tau_ r) (gamma_ r) (ent_coef_ r) v (auto_ent_coef_ r) (auto_target_entropy_ r) (train_freq_ r) (gradient_steps_ r) (target_update_interval_ r).
Definition set_auto_ent_coef_ (v : bool) (r : HParams) : HParams :=
  mkHParams (learning_starts_ r) (batch_size_ r) (lr_ r) (tau_ r) (gamma_ r) (ent_coef_ r) (target_entropy_ r) v (auto_target_entropy_ r) (train_freq_ r) (gradient_steps_ r) (target_update_interval_ r).
Definition set_auto_target_entropy_ (v : bool) (r : HParams) : HParams :=
  mkHParams (learning_starts_ r) (batch_size_ r) (lr_ r) (tau_ r) (gamma_ r) (ent_coef_ r) (target_entropy_ r) (auto_ent_coef_ r) v (train_freq_ r) (gradient_steps_ r) (target_update_interval_ r).
Definition set_train_freq_ (v : Int) (r : HParams) : HParams :=
  mkHParams (learning_starts_ r) (batch_size_ r) (lr_ r) (tau_ r) (gamma_ r) (ent_coef_ r) (target_entropy_ r) (auto_ent_coef_ r) (auto_target_entropy_ r) v (gradient_steps_ r) (target_update_interval_ r).
Definition set_gradient_steps_ (v : Int) (r : HParams) : HParams :=
  mkHParams (learning_starts_ r) (batch_size_ r) (lr_ r) (tau_ r) (gamma_ r) (ent_coef_ r) (target_entropy_ r) (auto_ent_coef_ r) (auto_target_entropy_ r) (train_freq_ r) v (target_update_interval_ r).
Definition set_target_update_interval_ (v : Int) (r : HParams) : HParams :=
  mkHParams (learning_starts_ r) (batch_size_ r) (lr_ r) (tau_ r) (gamma_ r) (ent_coef_ r) (target_entropy_ r) (auto_ent_coef_ r) (auto_target_entropy_ r) (train_freq_ r) (gradient_steps_ r) v.

Definition set_replay_buffer_ (v : option ReplayBuffer) (r : Nets) : Nets :=
  mkNets v (actor_ r) (critic_ r) (critic_target_ r) (actor_optimizer_ r) (critic_optimizer_ r) (ent_coef_optimizer_ r) (log_ent_coef_ r) (ent_coef_tensor_ r) (observation_ r).
Definition set_actor_ (v : option Module) (r : Nets) : Nets :=
  mkNets (replay_buffer_ r) v (critic_ r) (critic_target_ r) (actor_optimizer_ r) (critic_optimizer_ r) (ent_coef_optimizer_ r) (log_ent_coef_ r) (ent_coef_tensor_ r) (observation_ r).
Definition set_critic_ (v : option Module) (r : Nets) : Nets :=
  mkNets (replay_buffer_ r) (actor_ r) v (critic_target_ r) (actor_optimizer_ r) (critic_optimizer_ r) (ent_coef_optimizer_ r) (log_ent_coef_ r) (ent_coef_tensor_ r) (observation_ r).
Definition set_critic_target_ (v : option Module) (r : Nets) : Nets :=
  mkNets (replay_buffer_ r) (actor_ r) (critic_ r) v (actor_optimizer_ r) (critic_optimizer_ r) (ent_coef_optimizer_ r) (log_ent_coef_ r) (ent_coef_tensor_ r) (observation_ r).
Definition set_actor_optimizer_ (v : option OptSt) (r : Nets) : Nets :=
  mkNets (replay_buffer_ r) (actor_ r) (critic_ r) (critic_target_ r) v (critic_optimizer_ r) (ent_coef_optimizer_ r) (log_ent_coef_ r) (ent_coef_tensor_ r) (observation_ r).
Definition set_critic_optimizer_ (v : option OptSt) (r : Nets) : Nets :=
  mkNets (replay_buffer_ r) (actor_ r) (critic_ r) (critic_target_ r) (actor_optimizer_ r) v (ent_coef_optimizer_ r) (log_ent_coef_ r) (ent_coef_tensor_ r) (observation_ r).
Definition set_ent_coef_optimizer_ (v : option OptSt) (r : Nets) : Nets :=
  mkNets (replay_buffer_ r) (actor_ r) (critic_ r) (critic_target_ r) (actor_optimizer_ r) (critic_optimizer_ r) v (log_ent_coef_ r) (ent_coef_tensor_ r) (observation_ r).
Definition set_log_ent_coef_ (v : option Tensor) (r : Nets) : Nets :=
  mkNets (replay_buffer_ r) (actor_ r) (critic_ r) (critic_target_ r) (actor_optimizer_ r) (critic_optimizer_ r) (ent_coef_optimizer_ r) v (ent_coef_tensor_ r) (observation_ r).
Definition set_ent_coef_tensor_ (v : option Tensor) (r : Nets) : Nets :=
  mkNets (replay_buffer_ r) (actor_ r) (critic_ r) (critic_target_ r) (actor_optimizer_ r) (critic_optimizer_ r) (ent_coef_optimizer_ r) (log_ent_coef_ r) v (observation_ r).
Definition set_observation_ (v : option (list Qc)) (r : Nets) : Nets :=
  mkNets (replay_buffer_ r) (actor_ r) (critic_ r) (critic_target_ r) (actor_optimizer_ r) (critic_optimizer_ r) (ent_coef_optimizer_ r) (log_ent_coef_ r) (ent_coef_tensor_ r) v.

Definition set_env_ (v : list Qc) (r : World) : World :=
  mkWorld v (rng_ r) (log_txt_ r) (console_ r) (checkpoints_ r) (trace_ r).
Definition set_rng_ (v : nat) (r : World) : World :=
  mkWorld (env_ r) v (log_txt_ r) (console_ r) (checkpoints_ r) (trace_ r).
Definition set_log_txt_ (v : list Row) (r : World) : World :=
  mkWorld (env_ r) (rng_ r) v (console_ r) (checkpoints_ r) (trace_ r).
Definition set_console_ (v : list Row) (r : World) : World :=
  mkWorld (env_ r) (rng_ r) (log_txt_ r) v (checkpoints_ r) (trace_ r).
Definition set_checkpoints_ (v : list (gmap string Entry)) (r : World) : World :=
  mkWorld (env_ r) (rng_ r) (log_txt_ r) (console_ r) v (trace_ r).
Definition set_trace_ (v : list Event) (r : World) : World :=
  mkWorld (env_ r) (rng_ r) (log_txt_ r) (console_ r) (checkpoints_ r) v.

(** The trainer: the members of [RL], the hyperparameters and the
    networks of [SAC], and what lies outside the object. *)
Record State : Type := mkState {
  rl : RLBase;
  hp : HParams;
  nets : Nets;
  world : World
}.

(** Updates of one component of the state. *)
Definition upd_rl (f : RLBase -> RLBase) (s : State) : State :=
  mkState (f (rl s)) (hp s) (nets s) (world s).
Definition upd_hp (f : HParams -> HParams) (s : State) : State :=
  mkState (rl s) (f (hp s)) (nets s) (world s).
Definition upd_nets (f : Nets -> Nets) (s : State) : State :=
  mkState (rl s) (hp s) (f (nets s)) (world s).
Definition upd_world (f : World -> World) (s : State) : State :=
  mkState (rl s) (hp s) (nets s) (f (world s)).

(** One draw from the random source. *)
Definition tick (s : State) : State :=
  upd_world (fun w => set_rng_ (S (rng_ w)) w) s.

(** Appends an event to the trace. *)
Definition emit (e : Event) (s : State) : State :=
  upd_world (fun w => set_trace_ (trace_ w ++ [e]) w) s.

(** ** Construction ([sac.h], lines 9-40)

    The constructor gives [target_entropy_] a value only when the argument
    is supplied and [auto_target_entropy_] a value only when it is not; the
    member left out holds an indeterminate value, which is a parameter
    here. *)
Record Indeterminate : Type := mkIndeterminate {
  ind_target_entropy : double;
  ind_auto_target_entropy : bool
}.

(** Nothing written, nothing drawn, nothing recorded. *)
Definition new_World : World := mkWorld [] 0%nat [] [] [] [].

(** The constructors of [SAC] and [RL]: the counters are zero, the
    networks, the optimizers, the buffer and the tensors are null. *)
Definition SAC_new
    (learning_starts batch_size : Int) (lr tau gamma ent_coef : double)
    (auto_ent_coef : bool) (target_entropy : option double)
    (train_freq gradient_steps target_update_interval : Int)
    (output_path : string) (ind : Indeterminate) : State :=
  mkState
    (mkRLBase 0 0 0 0 0 0 output_path ∅)
    (mkHParams learning_starts batch_size lr tau gamma ent_coef
       (match target_entropy with
        | Some te => te
        | None => ind_target_entropy ind
        end)
       auto_ent_coef
       (match target_entropy with
        | Some _ => ind_auto_target_entropy ind
        | None => true
        end)
       train_freq gradient_steps target_update_interval)
    (mkNets None None None None None None None None None None)
    new_World.

(** ** [Reset] *)

(** [SAC::RegisterLogItems] ([sac.h], lines 86-94); it overrides
    [RL::RegisterLogItems] without calling it. *)
Definition RegisterLogItems (s : State) : State :=
  let reg (k : string) (m : gmap string (option Qc)) := <[k := None]> m in
  let m := reg "ent_coef" (log_items_ (rl s)) in
  let m := reg "actor_loss" m in
  let m := reg "critic_loss" m in
  let m := reg "q_value" m in
  let m := reg "reward" m in
  let m := if auto_ent_coef_ (hp s) then reg "ent_coef_loss" m else m in
  upd_rl (set_log_items_ m) s.

Definition column_names (m : gmap string (option Qc)) : list string :=
  (map_to_list m).*1.

(** [RL::Reset] ([rl.h], lines 64-77): the log file is created anew with
    the header line. *)
Definition RL_Reset (s : State) : State :=
  let s := upd_rl (fun r => set_num_updates_ 0
                     (set_time_steps_ 0 (set_num_iters_ 0 r))) s in
  let s := RegisterLogItems s in
  upd_world
    (fun w => set_log_txt_
                (if bool_decide (output_path_ (rl s) = "") then log_txt_ w
                 else [Header (column_names (log_items_ (rl s)))]) w) s.

(** The loop of lines 75-78: [target_entropy_ = -1.0], then
    [target_entropy_ *= size] for every action size. *)
Definition default_target_entropy (sizes : list Int) : double :=
  foldl (fun te size => (te * Qc_of_Z size)%Qc) (- qc 1 1)%Qc sizes.

(** [SAC::Reset] ([sac.h], lines 56-84). *)
Definition Reset (E : Env) (s : State) : State :=
  let s := RL_Reset s in
  let rb := MakeReplayBuffer E in
  let s := upd_nets (set_replay_buffer_ (Some rb)) s in
  let actor := MakeActor E (rng_ (world s)) in
  let s := tick (upd_nets (set_actor_ (Some actor)) s) in
  let critic := ResetCritic E (MakeCritic E (rng_ (world s))) in
  let s := tick (upd_nets (set_critic_ (Some critic)) s) in
  let critic_target :=
    set_training false (ResetCritic E (MakeCritic E (rng_ (world s)))) in
  let critic_target := torch_utils.CopyStateDict critic critic_target in
  let s := tick (upd_nets (set_critic_target_ (Some critic_target)) s) in
  let s := upd_nets (set_actor_optimizer_
                       (Some (adam_init E (lr_ (hp s)) (params actor)))) s in
  let s := upd_nets (set_critic_optimizer_
                       (Some (adam_init E (lr_ (hp s)) (params critic)))) s in
  let s :=
    if auto_ent_coef_ (hp s) then
      let log_ent_coef :=
        mkTensor [tlog E (1 * ent_coef_ (hp s))%Qc] [LLogEntCoef] in
      let s := upd_nets (set_log_ent_coef_ (Some log_ent_coef)) s in
      let s := upd_nets (set_ent_coef_optimizer_
                 (Some (adam_init E (lr_ (hp s)) (data log_ent_coef)))) s in
      if auto_target_entropy_ (hp s) then
        upd_hp (set_target_entropy_
                  (default_target_entropy (action_sizes rb))) s
      else s
    else
      upd_nets (set_ent_coef_tensor_
                  (Some (scalar_tensor (ent_coef_ (hp s))))) s in
  let started := ResetEnv E (env_ (world s)) in
  upd_nets (set_observation_ (Some started.2))
           (upd_world (set_env_ started.1) s).

(** ** [CollectRollouts] *)

(** [for (Int step = 0; step < n; ++step) body], for a body that does not
    read [step]. *)
Fixpoint repeat_opt (n : nat) (body : State -> option State) (s : State)
  : option State :=
  match n with
  | O => Some s
  | S n' => s' ← body s; repeat_opt n' body s'
  end.

(** The part of both loop bodies after the action is chosen
    ([sac.h], lines 103-105 and 110-112). *)
Definition step_and_store (E : Env) (act : list Qc) (s : State)
  : option State :=
  rb ← replay_buffer_ (nets s);
  obs ← observation_ (nets s);
  let '(env', (next_observation, reward, done)) :=
    Step E (env_ (world s)) act in
  let s := upd_world (set_env_ env') s in
  let rb' := Add (mkTransition obs act next_observation reward done) rb in
  Some (upd_nets (fun n => set_observation_ (Some next_observation)
                             (set_replay_buffer_ (Some rb') n)) s).

(** The body of the first loop of [CollectRollouts]: a sampled action. *)
Definition warmup_body (E : Env) (s : State) : option State :=
  let act := SampleAction E (rng_ (world s)) in
  step_and_store E act (tick s).

(** The body of the second loop: the action of the actor. *)
Definition rollout_body (E : Env) (s : State) : option State :=
  actor ← actor_ (nets s);
  obs ← observation_ (nets s);
  let act := PredictAction E actor (rng_ (world s)) obs in
  s ← step_and_store E act (tick s);
  Some (upd_rl (fun r => set_time_steps_ (time_steps_ r + NumEnvs E) r) s).

(** [SAC::CollectRollouts] ([sac.h], lines 96-115). *)
Definition CollectRollouts (E : Env) (s : State) : option State :=
  actor ← actor_ (nets s);
  critic ← critic_ (nets s);
  let s := upd_nets (fun n => set_critic_ (Some (set_training false critic))
                       (set_actor_ (Some (set_training false actor)) n)) s in
  s ← (if bool_decide (num_iters_ (rl s) = 0)
       then repeat_opt (Z.to_nat (learning_starts_ (hp s))) (warmup_body E) s
       else Some s);
  repeat_opt (Z.to_nat (train_freq_ (hp s))) (rollout_body E) s.

(** ** [Train] *)

(** The six statistics lists of [Train] ([sac.h], lines 124-129). *)
Record Stats : Type := mkStats {
  ent_coef_list : list Tensor;
  actor_loss_list : list Tensor;
  critic_loss_list : list Tensor;
  ent_coef_loss_list : list Tensor;
  q_value_list : list Tensor;
  reward_list : list Tensor
}.

Definition no_stats : Stats := mkStats [] [] [] [] [] [].

Definition push_ent_coef (t : Tensor) (st : Stats) : Stats :=
  mkStats (ent_coef_list st ++ [t]) (actor_loss_list st)
    (critic_loss_list st) (ent_coef_loss_list st) (q_value_list st)
    (reward_list st).
Definition push_actor_loss (t : Tensor) (st : Stats) : Stats :=
  mkStats (ent_coef_list st) (actor_loss_list st ++ [t])
    (critic_loss_list st) (ent_coef_loss_list st) (q_value_list st)
    (reward_list st).
Definition push_critic_loss (t : Tensor) (st : Stats) : Stats :=
  mkStats (ent_coef_list st) (actor_loss_list st)
    (critic_loss_list st ++ [t]) (ent_coef_loss_list st) (q_value_list st)
    (reward_list st).
Definition push_ent_coef_loss (t : Tensor) (st : Stats) : Stats :=
  mkStats (ent_coef_list st) (actor_loss_list st)
    (critic_loss_list st) (ent_coef_loss_list st ++ [t]) (q_value_list st)
    (reward_list st).
Definition push_q_value (t : Tensor) (st : Stats) : Stats :=
  mkStats (ent_coef_list st) (actor_loss_list st)
    (critic_loss_list st) (ent_coef_loss_list st) (q_value_list st ++ [t])
    (reward_list st).
Definition push_reward (t : Tensor) (st : Stats) : Stats :=
  mkStats (ent_coef_list st) (actor_loss_list st)
    (critic_loss_list st) (ent_coef_loss_list st) (q_value_list st)
    (reward_list st ++ [t]).

(** [actor_->PredictActionLogProb(obs)]: the sampled actions and their
    log-probabilities, differentiable in the actor's parameters. *)
Definition actor_sample (E : Env) (g : bool) (actor : Module) (noise : nat)
    (obs : list Qc) : Tensor * Tensor :=
  let '(a, lp) := PredictActionLogProb E actor noise obs in
  (mkTensor a (track g [LActor]), mkTensor lp (track g [LActor])).

(** [critic->Forward(obs, act)]: one tensor of Q-values per member. *)
Definition critic_forward (E : Env) (g : bool) (leaf : Leaf) (critic : Module)
    (obs : list Qc) (act : Tensor) : list Tensor :=
  map (fun d => mkTensor d (track g (leaf :: leaves act)))
      (Forward E critic obs (data act)).

(** The block of lines 155-161, under its [torch::NoGradGuard]. *)
Definition target_q_values (E : Env) (gamma : double) (ent_coef : Tensor)
    (actor critic_target : Module) (noise : nat) (batch : Batch)
  : option Tensor :=
  let '(next_actions, next_log_prob) :=
    actor_sample E false actor noise (next_observation batch) in
  m ← stack_min false
        (critic_forward E false LCriticTarget critic_target
           (next_observation batch) next_actions);
  let next_q_values := tsub false m (tmul false ent_coef next_log_prob) in
  Some (tadd false (plain (reward batch))
          (tmul false
             (tscale false gamma (rsub false (qc 1 1) (plain (done batch))))
             next_q_values)).

(** Lines 166-170: the sum of the members' losses over their number. *)
Definition critic_loss_of (current_q_values : list Tensor) (target : Tensor)
  : Tensor :=
  tmap true
    (fun x => (x / Qc_of_Z (Z.of_nat (length current_q_values)))%Qc)
    (foldl (fun l q => tadd true l (mse_loss true q target))
           (scalar_tensor (qc 0 1)) current_q_values).

(** Lines 139-153: the entropy coefficient of this step, and in auto mode
    its loss and its optimizer step. *)
Definition ent_coef_phase (E : Env) (step : Int) (log_prob : Tensor)
    (s : State) (st : Stats) : option (State * Stats * Tensor) :=
  match ent_coef_optimizer_ (nets s), log_ent_coef_ (nets s) with
  | Some opt, Some lec =>
      let ent_coef := tmap true (texp E) (detach lec) in
      let c := detach (tshift true (target_entropy_ (hp s)) log_prob) in
      let ent_coef_loss := tneg true (tmean true (tmul true lec c)) in
      let st := push_ent_coef_loss (detach ent_coef_loss) st in
      let st := push_ent_coef (detach ent_coef) st in
      let '(opt', upd) :=
        adam_step E opt (ent_coef_grad E (data lec) (data c)) in
      let lec' := mkTensor (update_in_place upd (data lec)) (leaves lec) in
      let s := upd_nets (fun n => set_log_ent_coef_ (Some lec')
                           (set_ent_coef_optimizer_ (Some opt') n)) s in
      Some (emit (EvEntCoefStep step) s, st, ent_coef)
  | _, _ =>
      ent_coef ← ent_coef_tensor_ (nets s);
      Some (s, push_ent_coef (detach ent_coef) st, ent_coef)
  end.

(** Lines 185-192. [step % 0] is a division by zero. *)
Definition polyak_phase (step : Int) (s : State) : option State :=
  if bool_decide (target_update_interval_ (hp s) = 0) then None
  else if bool_decide (Z.rem step (target_update_interval_ (hp s)) = 0) then
    critic ← critic_ (nets s);
    target ← critic_target_ (nets s);
    let target' :=
      mkModule
        (torch_utils.PolyakUpdate (params critic) (params target)
                                  (tau_ (hp s)))
        (torch_utils.PolyakUpdate (buffers critic) (buffers target) (qc 1 1))
        (training target) in
    Some (emit (EvPolyakUpdate step)
            (upd_nets (set_critic_target_ (Some target')) s))
  else Some s.

(** Lines 162-175: the critics' loss and the critic optimizer step. *)
Definition critic_phase (E : Env) (step : Int) (batch : Batch)
    (target : Tensor) (s : State) (st : Stats) : option (State * Stats) :=
  critic ← critic_ (nets s);
  let current_q_values :=
    critic_forward E true LCritic critic (observation batch)
                   (plain (action batch)) in
  min_q_value ← detach <$> stack_min true current_q_values;
  let st := push_reward (plain (reward batch)) (push_q_value min_q_value st) in
  let critic_loss := critic_loss_of current_q_values target in
  let st := push_critic_loss (detach critic_loss) st in
  copt ← critic_optimizer_ (nets s);
  let '(copt', upd) :=
    adam_step E copt (critic_grad E critic batch (data target)) in
  let critic' := mkModule (update_in_place upd (params critic))
                          (buffers critic) (training critic) in
  Some (emit (EvCriticStep step critic_loss)
          (upd_nets (fun n => set_critic_ (Some critic')
                                (set_critic_optimizer_ (Some copt') n)) s),
        st).

(** Lines 177-183: the actor's loss, on the critic just updated, and the
    actor optimizer step. *)
Definition actor_phase (E : Env) (step : Int) (batch : Batch)
    (noise_pi : nat) (actions_pi log_prob ent_coef : Tensor)
    (s : State) (st : Stats) : option (State * Stats) :=
  critic ← critic_ (nets s);
  min_qf_pi ← stack_min true
                (critic_forward E true LCritic critic (observation batch)
                                actions_pi);
  let actor_loss :=
    tmean true (tsub true (tmul true ent_coef log_prob) min_qf_pi) in
  let st := push_actor_loss (detach actor_loss) st in
  actor ← actor_ (nets s);
  aopt ← actor_optimizer_ (nets s);
  let '(aopt', upd) :=
    adam_step E aopt
      (actor_grad E actor critic batch noise_pi (data ent_coef)) in
  let actor' := mkModule (update_in_place upd (params actor))
                         (buffers actor) (training actor) in
  Some (emit (EvActorStep step actor_loss)
          (upd_nets (fun n => set_actor_ (Some actor')
                                (set_actor_optimizer_ (Some aopt') n)) s),
        st).

(** The body of the loop of [Train] ([sac.h], lines 137-192). *)
Definition train_step (E : Env) (step : Int) (acc : State * Stats)
  : option (State * Stats) :=
  let '(s, st) := acc in
  rb ← replay_buffer_ (nets s);
  batch ← Sample E rb (batch_size_ (hp s)) (rng_ (world s));
  let s := tick s in
  actor ← actor_ (nets s);
  let noise_pi := rng_ (world s) in
  let '(actions_pi, log_prob) :=
    actor_sample E true actor noise_pi (observation batch) in
  let s := tick s in
  '(s, st, ent_coef) ← ent_coef_phase E step log_prob s st;
  critic_target ← critic_target_ (nets s);
  target ← target_q_values E (gamma_ (hp s)) ent_coef actor critic_target
             (rng_ (world s)) batch;
  let s := emit (EvTargetQ step target) (tick s) in
  '(s, st) ← critic_phase E step batch target s st;
  '(s, st) ← actor_phase E step batch noise_pi actions_pi log_prob ent_coef
               s st;
  s ← polyak_phase step s;
  Some (s, st).

(** [for (Int step = 0; step < gradient_steps_; ++step)]. *)
Fixpoint train_loop (E : Env) (n : nat) (step : Int) (acc : State * Stats)
  : option (State * Stats) :=
  match n with
  | O => Some acc
  | S n' => acc' ← train_step E step acc; train_loop E n' (step + 1) acc'
  end.

(** [it = log_items_.find(key); if (it != end) it->second = value]: the
    value is computed, and may throw, only when the key is registered. *)
Definition set_log_item (key : string) (value : option Qc)
    (items : gmap string (option Qc)) : option (gmap string (option Qc)) :=
  match items !! key with
  | Some _ => v ← value; Some (<[key := Some v]> items)
  | None => Some items
  end.

(** Lines 195-217. *)
Definition write_log_items (num_updates : Int) (st : Stats)
    (items : gmap string (option Qc)) : option (gmap string (option Qc)) :=
  if bool_decide (items = ∅) then Some items
  else
    items ← set_log_item "num_updates" (Some (Qc_of_Z num_updates)) items;
    items ← set_log_item "ent_coef" (stack_mean (ent_coef_list st)) items;
    items ← set_log_item "actor_loss" (stack_mean (actor_loss_list st)) items;
    items ← set_log_item "critic_loss" (stack_mean (critic_loss_list st)) items;
    items ← set_log_item "ent_coef_loss"
              (stack_mean (ent_coef_loss_list st)) items;
    items ← set_log_item "q_value" (stack_mean (q_value_list st)) items;
    set_log_item "reward" (stack_mean (reward_list st)) items.

(** [SAC::Train] ([sac.h], lines 121-218). *)
Definition Train (E : Env) (s : State) : option State :=
  actor ← actor_ (nets s);
  critic ← critic_ (nets s);
  let s := upd_nets (fun n => set_critic_ (Some (set_training true critic))
                       (set_actor_ (Some (set_training true actor)) n)) s in
  '(s, st) ← train_loop E (Z.to_nat (gradient_steps_ (hp s))) 0 (s, no_stats);
  let s := upd_rl (fun r => set_num_updates_
                     (num_updates_ r + gradient_steps_ (hp s)) r) s in
  items ← write_log_items (num_updates_ (rl s)) st (log_items_ (rl s));
  Some (upd_rl (set_log_items_ items) s).

(** ** Saving and loading ([sac.h], lines 220-351) *)

(** [names.count("all") || names.count(section)]. *)
Definition requested (names : gset string) (section : string) : bool :=
  bool_decide ("all" ∈ names) || bool_decide (section ∈ names).

(** One of the blocks of lines 304-333: [ptr->save(sub); write(key, sub)]. *)
Definition save_section {A : Type} (names : gset string) (key : string)
    (ptr : option A) (save : A -> SubArchive) (a : gmap string Entry)
  : option (gmap string Entry) :=
  if requested names key then
    x ← ptr; Some (write key (ESub (save x)) a)
  else Some a.

(** [if (t.defined()) archive->write(key, t)]. *)
Definition write_if_defined (key : string) (t : option Tensor)
    (a : gmap string Entry) : gmap string Entry :=
  match t with
  | Some t => write key (ETensor (data t)) a
  | None => a
  end.

(** [SAC::SaveArchive]. *)
Definition SaveArchive (names : gset string) (s : State)
    (a : gmap string Entry) : option (gmap string Entry) :=
  let n := nets s in
  let h := hp s in
  a ← save_section names "actor" (actor_ n) module_save a;
  a ← save_section names "critic" (critic_ n) module_save a;
  a ← save_section names "critic_target" (critic_target_ n) module_save a;
  a ← save_section names "actor_optimizer" (actor_optimizer_ n)
        optimizer_save a;
  a ← save_section names "critic_optimizer" (critic_optimizer_ n)
        optimizer_save a;
  a ← (if requested names "ent_coef_optimizer"
          && bool_decide (is_Some (ent_coef_optimizer_ n))
       then save_section names "ent_coef_optimizer" (ent_coef_optimizer_ n)
              optimizer_save a
       else Some a);
  if requested names "hparams" then
    let td (x : double) := ETensor [x] in
    let a := write "learning_starts"
               (ETensor (tensor_of_Int (learning_starts_ h))) a in
    let a := write "batch_size" (ETensor (tensor_of_Int (batch_size_ h))) a in
    let a := write "lr" (td (lr_ h)) a in
    let a := write "tau" (td (tau_ h)) a in
    let a := write "gamma" (td (gamma_ h)) a in
    let a := write "ent_coef" (td (ent_coef_ h)) a in
    let a := write "target_entropy" (td (target_entropy_ h)) a in
    let a := write "auto_ent_coef"
               (ETensor (tensor_of_bool (auto_ent_coef_ h))) a in
    let a := write "train_freq" (ETensor (tensor_of_Int (train_freq_ h))) a in
    let a := write "gradient_steps"
               (ETensor (tensor_of_Int (gradient_steps_ h))) a in
    let a := write "target_update_interval"
               (ETensor (tensor_of_Int (target_update_interval_ h))) a in
    let a := write_if_defined "log_ent_coef" (log_ent_coef_ n) a in
    Some (write_if_defined "ent_coef_tensor" (ent_coef_tensor_ n) a)
  else Some a.

(** One of the blocks of lines 221-262:
    [if (try_read(key, sub)) { read(key, sub); ptr->load(sub); }]. *)
Definition load_section {A : Type} (names : gset string) (key : string)
    (a : gmap string Entry) (ptr : option A)
    (load : SubArchive -> A -> option A) : option (option A) :=
  if requested names key then
    match try_read_archive a key with
    | Some sub => x ← ptr; x' ← load sub x; Some (Some x')
    | None => Some ptr
    end
  else Some ptr.

(** [if (archive->try_read(key, tensor)) field = tensor.item<T>()]. *)
Definition load_field {A : Type} (a : gmap string Entry) (key : string)
    (conv : list Qc -> option A) (set : A -> HParams -> HParams)
    (h : HParams) : option HParams :=
  match try_read_tensor a key with
  | Some v => x ← conv v; Some (set x h)
  | None => Some h
  end.

(** [archive->try_read(key, member)]: a defined member keeps its place in
    the autograd graph and takes the data read. *)
Definition load_tensor (a : gmap string Entry) (key : string)
    (t : option Tensor) : option Tensor :=
  match try_read_tensor a key with
  | Some v => Some (mkTensor v (from_option leaves [] t))
  | None => t
  end.

(** The eleven scalar reads of the [hparams] block of [LoadArchive], in
    the order of the source. *)
Definition load_hparams (a : gmap string Entry) (h : HParams)
  : option HParams :=
  h ← load_field a "learning_starts" item_Int set_learning_starts_ h;
  h ← load_field a "batch_size" item_Int set_batch_size_ h;
  h ← load_field a "lr" item_double set_lr_ h;
  h ← load_field a "tau" item_double set_tau_ h;
  h ← load_field a "gamma" item_double set_gamma_ h;
  h ← load_field a "ent_coef" item_double set_ent_coef_ h;
  h ← load_field a "target_entropy" item_double set_target_entropy_ h;
  h ← load_field a "auto_ent_coef" item_bool set_auto_ent_coef_ h;
  h ← load_field a "train_freq" item_Int set_train_freq_ h;
  h ← load_field a "gradient_steps" item_Int set_gradient_steps_ h;
  load_field a "target_update_interval" item_Int
             set_target_update_interval_ h.

(** [SAC::LoadArchive]. *)
Definition LoadArchive (a : gmap string Entry) (names : gset string)
    (s : State) : option State :=
  let n := nets s in
  actor ← load_section names "actor" a (actor_ n) module_load;
  critic ← load_section names "critic" a (critic_ n) module_load;
  critic_target ← load_section names "critic_target" a (critic_target_ n)
                    module_load;
  aopt ← load_section names "actor_optimizer" a (actor_optimizer_ n)
           optimizer_load;
  copt ← load_section names "critic_optimizer" a (critic_optimizer_ n)
           optimizer_load;
  eopt ← (if requested names "ent_coef_optimizer"
             && bool_decide (is_Some (ent_coef_optimizer_ n))
          then load_section names "ent_coef_optimizer" a
                 (ent_coef_optimizer_ n) optimizer_load
          else Some (ent_coef_optimizer_ n));
  let n := set_ent_coef_optimizer_ eopt
             (set_critic_optimizer_ copt
                (set_actor_optimizer_ aopt
                   (set_critic_target_ critic_target
                      (set_critic_ critic (set_actor_ actor n))))) in
  if requested names "hparams" then
    h ← load_hparams a (hp s);
    let n := set_ent_coef_tensor_
               (load_tensor a "ent_coef_tensor" (ent_coef_tensor_ n))
               (set_log_ent_coef_
                  (load_tensor a "log_ent_coef" (log_ent_coef_ n)) n) in
    Some (mkState (rl s) h n (world s))
  else Some (mkState (rl s) (hp s) n (world s)).

(** ** The training loop ([rl.h], lines 83-118) *)

(** [RL::Proceed]. *)
Definition Proceed (s : State) : bool :=
  bool_decide (time_steps_ (rl s) < max_time_steps_ (rl s)).

(** The line of values that [PrintLog] and [SaveLog] write. *)
Definition log_row (s : State) : Row :=
  Values (time_steps_ (rl s)) (map_to_list (log_items_ (rl s))).

(** [RL::Monitor], with [PrintLog] and [SaveLog]. *)
Definition Monitor (s : State) : State :=
  let r := rl s in
  if bool_decide (monitor_interval_ r <= 0)
     || negb (bool_decide (Z.rem (num_iters_ r) (monitor_interval_ r) = 0))
  then s
  else
    let s := upd_world (fun w => set_console_
               (console_ w ++ [Header (column_names (log_items_ r));
                               log_row s]) w) s in
    if bool_decide (output_path_ r = "") then s
    else upd_world (fun w => set_log_txt_ (log_txt_ w ++ [log_row s]) w) s.

(** [RL::Checkpoint]: [Save] writes every section to a new file. *)
Definition Checkpoint (E : Env) (s : State) : option State :=
  let r := rl s in
  if bool_decide (checkpoint_interval_ r <= 0)
     || negb (bool_decide (Z.rem (num_iters_ r) (checkpoint_interval_ r) = 0))
  then Some s
  else if bool_decide (output_path_ r = "") then Some s
  else
    a ← SaveArchive {["all"]} s ∅;
    Some (upd_world (fun w => set_checkpoints_ (checkpoints_ w ++ [a]) w) s).

(** [RL::Update]. *)
Definition Update (s : State) : State :=
  upd_rl (fun r => set_num_iters_ (num_iters_ r + 1) r) s.

(** The statements of [Learn] before its loop. *)
Definition Learn_begin (max_time_steps monitor_interval checkpoint_interval
                        : Int) (s : State) : State :=
  upd_rl (fun r => set_checkpoint_interval_ checkpoint_interval
            (set_monitor_interval_ monitor_interval
               (set_max_time_steps_ max_time_steps
                  (set_time_steps_ 0 r)))) s.

(** The body of the loop of [Learn]. *)
Definition Learn_iteration (E : Env) (s : State) : option State :=
  s ← CollectRollouts E s;
  s ← Train E s;
  s ← Checkpoint E (Monitor s);
  Some (Update s).

(** The state after the first [n] iterations of the loop; [None] when the
    loop ends earlier or an iteration fails. *)
Fixpoint Learn_iterations (E : Env) (n : nat) (s : State) : option State :=
  match n with
  | O => Some s
  | S n' =>
      if Proceed s then s' ← Learn_iteration E s; Learn_iterations E n' s'
      else None
  end.

(** How a call of [Learn] ends. *)
Inductive Outcome : Type :=
  | Returned (s : State)
  | Raised
  | OutOfFuel.

(** [while (Proceed()) { ... }] *)
Fixpoint Learn_loop (E : Env) (fuel : nat) (s : State) : Outcome :=
  if Proceed s then
    match fuel with
    | O => OutOfFuel
    | S fuel' =>
        match Learn_iteration E s with
        | Some s' => Learn_loop E fuel' s'
        | None => Raised
        end
    end
  else Returned s.

(** [RL::Learn]. *)
Definition Learn (E : Env) (fuel : nat)
    (max_time_steps monitor_interval checkpoint_interval : Int) (s : State)
  : Outcome :=
  Learn_loop E fuel
    (Learn_begin max_time_steps monitor_interval checkpoint_interval s).

(** ** A stub configuration

    A deterministic environment with one instance, observations and
    actions of size 1, reward 1 and done 0 at every step; an actor, a
    two-member critic and an optimizer that are simple closed functions. *)
Module Stub.

(** A batch of [n] copies of one fixed transition; sampling an empty
    buffer fails. *)
Definition sample (rb : ReplayBuffer) (n : Int) (r : nat) : option Batch :=
  match storage rb with
  | [] => None
  | t :: _ =>
      let k := Z.to_nat n in
      Some (mkBatch (replicate k (qc 0 1)) (replicate k (qc 0 1))
                    (replicate k (qc 0 1)) (replicate k (qc 1 1))
                    (replicate k (qc 0 1)))
  end.

(** An optimizer step that moves every entry against its gradient. *)
Definition descend (o : OptSt) (g : list Qc) : OptSt * (nat -> Qc -> Qc) :=
  (o, fun i x => (x - qc 1 10 * nth i g (qc 0 1))%Qc).

(** The stub collaborators. *)
Definition env : Env :=
  mkEnv 1
    (fun _ => ([], [qc 0 1]))
    (fun e _ => (e, ([qc 0 1], [qc 1 1], [qc 0 1])))
    (fun _ => [qc 0 1])
    100%nat [1]
    sample
    (fun _ => mkModule [qc 1 2] [] true)
    (fun _ => mkModule [qc 1 3; qc 1 4] [qc 2 1] true)
    (fun m => m)
    (fun _ _ obs => obs)
    (fun _ _ obs => (obs, map (fun _ => (- qc 1 1)%Qc) obs))
    (fun m obs _ => [map (fun _ => qc 1 1) obs; map (fun _ => qc 2 1) obs])
    (fun lec c => map (fun _ => qc 1 1) lec)
    (fun m _ _ => map (fun _ => qc 1 1) (params m))
    (fun m _ _ _ _ => map (fun _ => qc 1 1) (params m))
    (fun _ _ => [])
    descend
    (fun x => x)
    (fun x => x).

(** The values read from the members the constructor leaves out. *)
Definition ind : Indeterminate := mkIndeterminate (qc 0 1) false.

(** The configuration of the end-to-end scenario. *)
Definition scenario : State :=
  SAC_new 10 4 (qc 3 10000) (qc 1 1) (qc 99 100) (qc 1 1) true None
          1 1 1 "" ind.

(** The scenario after [Reset] and the first [CollectRollouts], and after
    one gradient step from there. *)
Definition ready : State :=
  default scenario (CollectRollouts env (Reset env scenario)).

Definition stepped : State * Stats :=
  default (ready, no_stats) (train_step env 0 (ready, no_stats)).

(** The scenario with a negative [train_freq]. *)
Definition negative : State :=
  SAC_new 10 4 (qc 3 10000) (qc 1 1) (qc 99 100) (qc 1 1) true None
          (-1) 1 1 "" ind.

(** ... and after the first [Train]. *)
Definition trained : State := default ready (Train env ready).

End Stub.

(** ** Notions used in the statements *)

(** The test of lines 141 and 149:
    [ent_coef_optimizer_ != nullptr && log_ent_coef_.defined()]. *)
Definition auto_mode (s : State) : bool :=
  match ent_coef_optimizer_ (nets s), log_ent_coef_ (nets s) with
  | Some _, Some _ => true
  | _, _ => false
  end.

(** The entropy coefficient a gradient step works with (lines 142, 147). *)
Definition current_ent_coef (E : Env) (s : State) : option Tensor :=
  match ent_coef_optimizer_ (nets s), log_ent_coef_ (nets s) with
  | Some _, Some lec => Some (tmap true (texp E) (detach lec))
  | _, _ => ent_coef_tensor_ (nets s)
  end.

(** [q] is the least of the entries that the members [outs] of an
    ensemble have at position [i]. *)
Definition is_min_over (outs : list (list Qc)) (i : nat) (q : Qc) : Prop :=
  Exists (fun out => out !! i = Some q) outs
  /\ Forall (fun out => exists x, out !! i = Some x /\ (q <= x)%Qc) outs.


(** Whether a pointer is set. *)
Definition present {A : Type} (o : option A) : bool :=
  match o with
  | Some _ => true
  | None => false
  end.

(** What no part of a gradient step changes. *)
Definition train_frame (s s' : State) : Prop :=
  rl s' = rl s /\ hp s' = hp s
  /\ replay_buffer_ (nets s') = replay_buffer_ (nets s)
  /\ ent_coef_tensor_ (nets s') = ent_coef_tensor_ (nets s)
  /\ observation_ (nets s') = observation_ (nets s)
  /\ auto_mode s' = auto_mode s
  /\ env_ (world s') = env_ (world s)
  /\ log_txt_ (world s') = log_txt_ (world s)
  /\ console_ (world s') = console_ (world s)
  /\ checkpoints_ (world s') = checkpoints_ (world s)
  /\ present (actor_ (nets s')) = present (actor_ (nets s))
  /\ present (critic_ (nets s')) = present (critic_ (nets s))
  /\ present (critic_target_ (nets s')) = present (critic_target_ (nets s))
  /\ present (actor_optimizer_ (nets s')) = present (actor_optimizer_ (nets s))
  /\ present (critic_optimizer_ (nets s'))
     = present (critic_optimizer_ (nets s)).

(** The outputs of the collaborators that [Train] needs in order not to
    throw: a batch can be drawn from a buffer that holds something, and
    the critic returns at least one member, all of one size. *)
Definition stackable (outs : list (list Qc)) : bool :=
  match outs with
  | [] => false
  | o :: rest => forallb (fun r => Nat.eqb (length r) (length o)) rest
  end.

(** Collaborators that do not throw: sampling a buffer that holds
    something succeeds, and the critic returns Q-values of one shape. *)
Definition well_behaved (E : Env) : Prop :=
  (forall rb n r, storage rb <> [] -> is_Some (Sample E rb n r))
  /\ (forall m obs act, stackable (Forward E m obs act) = true).

(** What collecting rollouts leaves alone: everything of [RL] but
    [time_steps_], the hyperparameters, the networks' weights, the
    optimizers and the outputs. *)
Definition rollout_frame (s s' : State) : Prop :=
  set_time_steps_ 0 (rl s') = set_time_steps_ 0 (rl s)
  /\ hp s' = hp s
  /\ critic_target_ (nets s') = critic_target_ (nets s)
  /\ actor_optimizer_ (nets s') = actor_optimizer_ (nets s)
  /\ critic_optimizer_ (nets s') = critic_optimizer_ (nets s)
  /\ ent_coef_optimizer_ (nets s') = ent_coef_optimizer_ (nets s)
  /\ log_ent_coef_ (nets s') = log_ent_coef_ (nets s)
  /\ ent_coef_tensor_ (nets s') = ent_coef_tensor_ (nets s)
  /\ params <$> actor_ (nets s') = params <$> actor_ (nets s)
  /\ params <$> critic_ (nets s') = params <$> critic_ (nets s)
  /\ buffers <$> critic_ (nets s') = buffers <$> critic_ (nets s)
  /\ log_txt_ (world s') = log_txt_ (world s)
  /\ console_ (world s') = console_ (world s)
  /\ checkpoints_ (world s') = checkpoints_ (world s)
  /\ trace_ (world s') = trace_ (world s).

(** Capacity and number of transitions held. *)
Definition buffer_size (rb : ReplayBuffer) : nat * nat :=
  (capacity rb, length (storage rb)).

(** The number of transitions held after [k] more are added. *)
Definition size_after (cap len k : nat) : nat :=
  match k with
  | O => len
  | S _ => Nat.min cap (len + k)
  end.

(** [k] transitions were stored and [time_steps_] advanced by [dt]. *)
Definition stored (k : nat) (dt : Z) (s s' : State) : Prop :=
  rollout_frame s s'
  /\ time_steps_ (rl s') = time_steps_ (rl s) + dt
  /\ (is_Some (observation_ (nets s)) -> is_Some (observation_ (nets s')))
  /\ buffer_size <$> replay_buffer_ (nets s')
     = (fun rb => (capacity rb,
                   size_after (capacity rb) (length (storage rb)) k))
       <$> replay_buffer_ (nets s).

(** The column names a line of the log mentions. *)
Definition row_names (r : Row) : list string :=
  match r with
  | Header names => names
  | Values _ vals => vals.*1
  end.

(** Lines whose columns are all log items of [s]. *)
Definition registered_rows (s : State) (rows : list Row) : Prop :=
  Forall (fun row => forall k, k ∈ row_names row ->
                       is_Some (log_items_ (rl s) !! k)) rows.

(** A state in which a gradient step finds what it dereferences. *)
Definition trainable (s : State) : Prop :=
  (exists rb, replay_buffer_ (nets s) = Some rb /\ storage rb <> [])
  /\ present (actor_ (nets s)) = true
  /\ present (critic_ (nets s)) = true
  /\ present (critic_target_ (nets s)) = true
  /\ present (actor_optimizer_ (nets s)) = true
  /\ present (critic_optimizer_ (nets s)) = true
  /\ (auto_mode s = true \/ present (ent_coef_tensor_ (nets s)) = true)
  /\ target_update_interval_ (hp s) <> 0.

(** The lengths of the six statistics lists. *)
Definition stats_lengths (st : Stats) : list nat :=
  [length (ent_coef_list st); length (actor_loss_list st);
   length (critic_loss_list st); length (ent_coef_loss_list st);
   length (q_value_list st); length (reward_list st)].

(** What [CollectRollouts] dereferences is there. *)
Definition collectable (s : State) : Prop :=
  present (actor_ (nets s)) = true
  /\ present (replay_buffer_ (nets s)) = true
  /\ present (observation_ (nets s)) = true.

(** The spec's wording of the default target entropy: the negative of the
    product of the action sizes. *)
Definition neg_prod (sizes : list Int) : double :=
  (- Qc_of_Z (foldr Z.mul 1%Z sizes))%Qc.


(** The entries that the [hparams] block of [SaveArchive] writes. *)
Definition hparams_entries (h : HParams)
  : list (string * Entry) :=
  [("learning_starts", ETensor (tensor_of_Int (learning_starts_ h)));
   ("batch_size", ETensor (tensor_of_Int (batch_size_ h)));
   ("lr", ETensor [lr_ h]);
   ("tau", ETensor [tau_ h]);
   ("gamma", ETensor [gamma_ h]);
   ("ent_coef", ETensor [ent_coef_ h]);
   ("target_entropy", ETensor [target_entropy_ h]);
   ("auto_ent_coef", ETensor (tensor_of_bool (auto_ent_coef_ h)));
   ("train_freq", ETensor (tensor_of_Int (train_freq_ h)));
   ("gradient_steps", ETensor (tensor_of_Int (gradient_steps_ h)));
   ("target_update_interval",
    ETensor (tensor_of_Int (target_update_interval_ h)))].

(** [RL::RegisterLogItems] ([rl.h], lines 79-81), the member that
    [SAC::RegisterLogItems] overrides. *)
Definition RL_RegisterLogItems (s : State) : State :=
  upd_rl (fun r => set_log_items_ (<["num_updates" := None]> (log_items_ r)) r)
         s.

(** The names that [SAC::RegisterLogItems] assigns to. *)
Definition sac_items (auto_ent_coef : bool) : list string :=
  ["ent_coef"; "actor_loss"; "critic_loss"; "q_value"; "reward"]
  ++ (if auto_ent_coef then ["ent_coef_loss"] else []).

(** The modes ([train()] or [eval()]) of the actor, the critic and the
    critic target. *)
Definition modes (s : State) : option bool * option bool * option bool :=
  (training <$> actor_ (nets s), training <$> critic_ (nets s),
   training <$> critic_target_ (nets s)).

(** The transitions form one trajectory: each starts at the observation
    the one before it ended with, and the last ends at [obs]. *)
Fixpoint chained (l : list Transition) (obs : list Qc) : bool :=
  match l with
  | [] => true
  | t :: rest =>
      bool_decide (tr_next_observation t
                   = match rest with
                     | [] => obs
                     | t' :: _ => tr_observation t'
                     end)
      && chained rest obs
  end.

(** The buffer holds one trajectory that ends at [observation_], and no
    more transitions than its capacity. *)
Definition trajectory_stored (s : State) : Prop :=
  exists rb obs,
    replay_buffer_ (nets s) = Some rb
    /\ observation_ (nets s) = Some obs
    /\ chained (storage rb) obs = true
    /\ (length (storage rb) <= capacity rb)%nat.

(** The names that [Train] looks up in [log_items_] (lines 196-216). *)
Definition train_items : list string :=
  ["num_updates"; "ent_coef"; "actor_loss"; "critic_loss"; "ent_coef_loss";
   "q_value"; "reward"].


(** The stub configuration in fixed entropy mode, with coefficient 1/5 and
    three gradient steps, after [Reset] and the first [CollectRollouts]. *)
Definition fixed_ready : State :=
  default Stub.scenario
    (CollectRollouts Stub.env
       (Reset Stub.env
          (SAC_new 10 4 (qc 3 10000) (qc 1 1) (qc 99 100) (qc 1 5) false None
             1 3 1 "" Stub.ind))).

(** The state in which [Learn] leaves the stub configuration when given a
    budget of 3 time steps. *)
Definition learned : State :=
  match Learn Stub.env 5 3 0 0 (Reset Stub.env Stub.scenario) with
  | Returned s => s
  | _ => Stub.scenario
  end.

(** Every requested section other than ["ent_coef_optimizer"] and
    ["hparams"] has its object. *)
Definition sections_ready (names : gset string) (s : State) : bool :=
  implb (requested names "actor") (present (actor_ (nets s)))
  && implb (requested names "critic") (present (critic_ (nets s)))
  && implb (requested names "critic_target")
           (present (critic_target_ (nets s)))
  && implb (requested names "actor_optimizer")
           (present (actor_optimizer_ (nets s)))
  && implb (requested names "critic_optimizer")
           (present (critic_optimizer_ (nets s))).


(** What [SaveArchive] writes, key by key and in the order of the source:
    [None] for a key whose block is skipped. *)
Definition saved_entries (names : gset string) (s : State)
  : list (string * option Entry) :=
  let n := nets s in
  let section {A : Type} (key : string) (ptr : option A)
        (save : A -> SubArchive) : string * option Entry :=
    (key, if requested names key then ESub ∘ save <$> ptr else None) in
  [section "actor" (actor_ n) module_save;
   section "critic" (critic_ n) module_save;
   section "critic_target" (critic_target_ n) module_save;
   section "actor_optimizer" (actor_optimizer_ n) optimizer_save;
   section "critic_optimizer" (critic_optimizer_ n) optimizer_save;
   section "ent_coef_optimizer" (ent_coef_optimizer_ n) optimizer_save]
  ++ (if requested names "hparams"
      then map (fun kv => (kv.1, Some kv.2)) (hparams_entries (hp s))
           ++ [("log_ent_coef", ETensor ∘ data <$> log_ent_coef_ n);
               ("ent_coef_tensor", ETensor ∘ data <$> ent_coef_tensor_ n)]
      else []).

(** The entry that a list of writes leaves under a key. *)
Fixpoint written (k : string) (l : list (string * option Entry))
  : option Entry :=
  match l with
  | [] => None
  | (k', e) :: l' => if bool_decide (k = k') then e else written k l'
  end.

(** A write that may be skipped. *)
Definition put (key : string) (e : option Entry) (a : gmap string Entry)
  : gmap string Entry :=
  match e with
  | Some e => write key e a
  | None => a
  end.

(** The files that [Save] writes and [Load] reads, by path. *)
Abbreviation Files := (gmap string (gmap string Entry)).




(** The test of [Monitor] and [Checkpoint] (lines 102 and 110) passes:
    the interval is positive and divides the number of the iteration. *)
Definition fires (interval k : Int) : bool :=
  negb (bool_decide (interval <= 0)
        || negb (bool_decide (Z.rem k interval = 0))).

(** The iterations, among the [n] from [first] on, at which it passes. *)
Definition scheduled (interval first : Int) (n : nat) : list Int :=
  filter (fun k => fires interval k = true) (seqZ first (Z.of_nat n)).

(** The time steps of the lines of values. *)
Definition row_time_steps (rows : list Row) : list Int :=
  omap (fun r => match r with
                 | Values ts _ => Some ts
                 | Header _ => None
                 end) rows.

(** The names of the sections that hold a sub-archive. *)
Definition object_sections : list string :=
  ["actor"; "critic"; "critic_target"; "actor_optimizer"; "critic_optimizer"].

(** An archive with all five object sections and the scalar
    hyperparameters [h]. *)
Definition full_checkpoint (h : HParams) (a : gmap string Entry) : Prop :=
  Forall (fun key => exists sub, a !! key = Some (ESub sub)) object_sections
  /\ Forall (fun kv => a !! kv.1 = Some kv.2) (hparams_entries h).

(** The stub configuration run for three iterations, monitoring every
    second one. *)
Definition monitored : State :=
  default Stub.scenario
    (Learn_iterations Stub.env 3
       (Learn_begin 3 2 0 (Reset Stub.env Stub.scenario))).



(** The mean squared difference of two lists of the same length. *)
Definition mse (a b : list Qc) : Qc :=
  Qcmean (zip_with (fun x y => ((x - y) * (x - y))%Qc) a b).

(** The mean over the members of an ensemble of their mean squared
    difference with the target. *)
Definition ensemble_mse (outs : list (list Qc)) (target : list Qc) : Qc :=
  (Qcsum (map (fun o => mse o target) outs)
   / Qc_of_Z (Z.of_nat (length outs)))%Qc.

(** ** Properties *)

Lemma bcast_same_length (f : Qc -> Qc -> Qc) (a b : list Qc) :
  length a = length b -> bcast f a b = zip_with f a b.
Proof.
  intros Hlen. unfold bcast.
  destruct a as [|x [|x' a]]; destruct b as [|y [|y' b]];
    simpl in *; try discriminate; reflexivity.
Qed.

Lemma Qcmin_le_l (a b : Qc) : (Qcmin a b <= a)%Qc.
Proof.
  unfold Qcmin. destruct (Qclt_le_dec b a) as [H|H].
  - apply Qclt_le_weak, H.
  - apply Qcle_refl.
Qed.

Lemma Qcmin_le_r (a b : Qc) : (Qcmin a b <= b)%Qc.
Proof.
  unfold Qcmin. destruct (Qclt_le_dec b a) as [H|H].
  - apply Qcle_refl.
  - exact H.
Qed.

Lemma Qcmin_cases (a b : Qc) : Qcmin a b = a \/ Qcmin a b = b.
Proof. unfold Qcmin. destruct (Qclt_le_dec b a); auto. Qed.

(** The fold of [stack_min] leaves at every position the least entry. *)
Lemma min_fold_lookup (rest : list Tensor) :
  forall (acc : list Qc) (i : nat) (a : Qc),
    Forall (fun r => length (data r) = length acc) rest ->
    acc !! i = Some a ->
    exists q,
      foldl (fun acc r => zip_with Qcmin acc (data r)) acc rest !! i = Some q
      /\ (q <= a)%Qc
      /\ Forall (fun r => exists x, data r !! i = Some x /\ (q <= x)%Qc) rest
      /\ (q = a \/ Exists (fun r => data r !! i = Some q) rest).
Proof.
  induction rest as [|r rest IH]; intros acc i a Hlen Hi; simpl.
  - exists a. split; [exact Hi|]. split; [apply Qcle_refl|].
    split; [constructor | left; reflexivity].
  - inversion Hlen as [|? ? Hr Hrest]; subst.
    assert (Hx : exists x, data r !! i = Some x).
    { apply lookup_lt_is_Some. rewrite Hr. eapply lookup_lt_Some, Hi. }
    destruct Hx as [x Hx].
    destruct (IH (zip_with Qcmin acc (data r)) i (Qcmin a x))
      as (q & Hq & Hle & Hall & Hex).
    + eapply Forall_impl; [|exact Hrest]. intros r' Hr'. simpl in Hr'.
      rewrite length_zip_with. lia.
    + rewrite lookup_zip_with, Hi. simpl. rewrite Hx. reflexivity.
    + exists q. split; [exact Hq|]. split.
      * eapply Qcle_trans; [exact Hle | apply Qcmin_le_l].
      * split.
        -- constructor; [|exact Hall]. exists x. split; [exact Hx|].
           eapply Qcle_trans; [exact Hle | apply Qcmin_le_r].
        -- destruct Hex as [Hex|Hex].
           ++ destruct (Qcmin_cases a x) as [Hm|Hm]; rewrite Hm in Hex.
              ** left; exact Hex.
              ** right. apply Exists_cons_hd. rewrite Hex. exact Hx.
           ++ right. apply Exists_cons_tl, Hex.
Qed.

Lemma lookup_map {A B : Type} (f : A -> B) (l : list A) (i : nat) :
  map f l !! i = f <$> l !! i.
Proof.
  revert i. induction l as [|x l IH]; intros [|i]; simpl; auto.
Qed.

Lemma min_fold_length (rest : list Tensor) :
  forall acc : list Qc,
    Forall (fun r => length (data r) = length acc) rest ->
    length (foldl (fun acc r => zip_with Qcmin acc (data r)) acc rest)
    = length acc.
Proof.
  induction rest as [|r rest IH]; intros acc Hlen; simpl; [reflexivity|].
  inversion Hlen as [|? ? Hr Hrest]; subst.
  rewrite IH.
  - rewrite length_zip_with. lia.
  - eapply Forall_impl; [|exact Hrest]. intros r' Hr'. simpl in Hr'.
    rewrite length_zip_with. lia.
Qed.

Lemma stack_min_inv (g : bool) (ts : list Tensor) (m : Tensor) :
  stack_min g ts = Some m ->
  exists t rest,
    ts = t :: rest
    /\ Forall (fun r => length (data r) = length (data t)) rest
    /\ data m = foldl (fun acc r => zip_with Qcmin acc (data r)) (data t) rest
    /\ leaves m = track g (concat (map leaves ts)).
Proof.
  unfold stack_min. destruct ts as [|t rest]; [discriminate|].
  destruct (forallb _ rest) eqn:Hall; [|discriminate].
  intros [= <-]. exists t, rest. split; [reflexivity|]. split.
  - apply Forall_forall. intros r Hr.
    rewrite forallb_forall in Hall. apply Nat.eqb_eq, Hall, Hr.
  - split; reflexivity.
Qed.

Lemma stack_min_is_min (g : bool) (ts : list Tensor) (m : Tensor)
    (i : nat) (q : Qc) :
  stack_min g ts = Some m -> data m !! i = Some q ->
  is_min_over (map data ts) i q.
Proof.
  intros Hm Hq.
  destruct (stack_min_inv _ _ _ Hm) as (t & rest & -> & Hlen & Hdata & _).
  assert (Hi : exists a, data t !! i = Some a).
  { apply lookup_lt_is_Some. rewrite <- (min_fold_length rest _ Hlen).
    rewrite <- Hdata. eapply lookup_lt_Some, Hq. }
  destruct Hi as [a Hi].
  destruct (min_fold_lookup rest _ i a Hlen Hi) as (q' & Hq' & Hle & Hall & Hex).
  rewrite <- Hdata, Hq in Hq'. injection Hq' as <-.
  split; simpl.
  - destruct Hex as [->|Hex].
    + apply Exists_cons_hd, Hi.
    + apply Exists_cons_tl. apply Exists_fmap. exact Hex.
  - constructor.
    + exists a. split; [exact Hi | exact Hle].
    + apply Forall_fmap. exact Hall.
Qed.

Lemma stack_min_length (g : bool) (ts : list Tensor) (m : Tensor) :
  stack_min g ts = Some m ->
  Forall (fun t => length (data t) = length (data m)) ts.
Proof.
  intros Hm.
  destruct (stack_min_inv _ _ _ Hm) as (t & rest & -> & Hlen & Hdata & _).
  rewrite Hdata, (min_fold_length rest _ Hlen).
  constructor; [reflexivity | exact Hlen].
Qed.

Lemma stack_min_total (g : bool) (ls : list Leaf) (outs : list (list Qc)) :
  stackable outs = true ->
  is_Some (stack_min g (map (fun d => mkTensor d ls) outs)).
Proof.
  destruct outs as [|o rest]; simpl; [discriminate|]. intros Hall.
  rewrite forallb_forall in Hall.
  destruct (forallb _ (map _ rest)) eqn:Hf; [eexists; reflexivity|].
  exfalso. apply not_true_iff_false in Hf. apply Hf.
  apply forallb_forall. intros r Hr. apply in_map_iff in Hr.
  destruct Hr as (d & <- & Hd). simpl. apply Hall, Hd.
Qed.

Lemma target_q_values_spec (E : Env) (gamma : double) (ec : Tensor)
    (actor ct : Module) (noise : nat) (batch : Batch) (t : Tensor) :
  target_q_values E gamma ec actor ct noise batch = Some t ->
  leaves t = []
  /\ forall e : Qc,
      data ec = [e] ->
      length (done batch) = length (reward batch) ->
      length (PredictActionLogProb E actor noise (next_observation batch)).2
        = length (reward batch) ->
      Forall (fun o => length o = length (reward batch))
        (Forward E ct (next_observation batch)
           (PredictActionLogProb E actor noise (next_observation batch)).1) ->
      forall (i : nat) (r d l : Qc),
        reward batch !! i = Some r ->
        done batch !! i = Some d ->
        (PredictActionLogProb E actor noise (next_observation batch)).2 !! i
          = Some l ->
        exists q,
          is_min_over
            (Forward E ct (next_observation batch)
               (PredictActionLogProb E actor noise (next_observation batch)).1)
            i q
          /\ data t !! i = Some (r + (1 - d) * gamma * (q - e * l))%Qc.
Proof.
  unfold target_q_values, actor_sample.
  destruct (PredictActionLogProb E actor noise (next_observation batch))
    as [na nlp] eqn:Hs. simpl.
  destruct (stack_min false _) as [m|] eqn:Hm; simpl; [|discriminate].
  intros [= <-]. split; [reflexivity|].
  intros e He Hd Hl Hall i r d l Hr Hdi Hli.
  pose proof (stack_min_length _ _ _ Hm) as Hlen.
  unfold critic_forward in Hlen, Hm. simpl in Hlen, Hm.
  assert (Hmlen : length (data m) = length (reward batch)).
  { destruct (Forward E ct (next_observation batch) na) as [|o outs] eqn:Hf.
    - simpl in Hm. discriminate.
    - inversion Hlen as [|? ? Ho _]; subst. inversion Hall; subst.
      simpl in Ho. lia. }
  assert (Hq : exists q, data m !! i = Some q).
  { apply lookup_lt_is_Some. rewrite Hmlen. eapply lookup_lt_Some, Hr. }
  destruct Hq as [q Hq]. exists q. split.
  - pose proof (stack_min_is_min _ _ _ _ _ Hm Hq) as Hmin.
    rewrite map_map in Hmin. simpl in Hmin. rewrite map_id in Hmin.
    exact Hmin.
  - simpl. rewrite He. simpl.
    rewrite (bcast_same_length Qcminus) by (rewrite length_map; lia).
    rewrite (bcast_same_length Qcmult)
      by (rewrite !length_map, length_zip_with, length_map; lia).
    rewrite (bcast_same_length Qcplus)
      by (rewrite length_zip_with, !length_map, length_zip_with, length_map;
          lia).
    rewrite lookup_zip_with, Hr. simpl.
    rewrite lookup_zip_with, !lookup_map, Hdi. simpl.
    rewrite lookup_zip_with, Hq. simpl.
    rewrite lookup_map, Hli. simpl. reflexivity.
Qed.

Lemma train_frame_refl (s : State) : train_frame s s.
Proof. unfold train_frame. repeat split. Qed.

Lemma train_frame_trans (s1 s2 s3 : State) :
  train_frame s1 s2 -> train_frame s2 s3 -> train_frame s1 s3.
Proof.
  unfold train_frame. intros H1 H2.
  destruct H1 as (?&?&?&?&?&?&?&?&?&?&?&?&?&?&?),
           H2 as (?&?&?&?&?&?&?&?&?&?&?&?&?&?&?).
  repeat split; congruence.
Qed.

Lemma train_frame_tick (s : State) : train_frame s (tick s).
Proof. unfold train_frame. repeat split. Qed.

Lemma train_frame_emit (e : Event) (s : State) : train_frame s (emit e s).
Proof. unfold train_frame. repeat split. Qed.

Ltac frame_tac :=
  unfold train_frame, auto_mode; simpl; repeat split;
  repeat match goal with
         | H : _ = Some _ |- _ => rewrite H
         | H : _ = None |- _ => rewrite H
         end; reflexivity.

Lemma ent_coef_phase_frame (E : Env) step lp s st s1 st1 ec :
  ent_coef_phase E step lp s st = Some (s1, st1, ec) -> train_frame s s1.
Proof.
  unfold ent_coef_phase. intros H.
  destruct (ent_coef_optimizer_ (nets s)) as [opt|] eqn:Hopt;
    destruct (log_ent_coef_ (nets s)) as [lec|] eqn:Hlec;
    try destruct (adam_step E opt _) as [opt' upd] eqn:Hstep;
    simplify_option_eq; frame_tac.
Qed.

Lemma critic_phase_frame (E : Env) step batch target s st s2 st2 :
  critic_phase E step batch target s st = Some (s2, st2) -> train_frame s s2.
Proof.
  unfold critic_phase. intros H. simplify_option_eq.
  destruct (adam_step E _ _) as [opt' upd]. simplify_eq. frame_tac.
Qed.

Lemma actor_phase_frame (E : Env) step batch noise a lp ec s st s2 st2 :
  actor_phase E step batch noise a lp ec s st = Some (s2, st2) ->
  train_frame s s2.
Proof.
  unfold actor_phase. intros H. simplify_option_eq.
  destruct (adam_step E _ _) as [opt' upd]. simplify_eq. frame_tac.
Qed.

Lemma polyak_phase_frame step s s' :
  polyak_phase step s = Some s' -> train_frame s s'.
Proof.
  unfold polyak_phase. intros H.
  repeat case_bool_decide; simplify_option_eq; frame_tac.
Qed.

Lemma train_step_inv (E : Env) (step : Int) (s s' : State) (st st' : Stats) :
  train_step E step (s, st) = Some (s', st') ->
  exists rb batch actor s1 st1 ent_coef ct target s2 st2 s3,
    replay_buffer_ (nets s) = Some rb
    /\ Sample E rb (batch_size_ (hp s)) (rng_ (world s)) = Some batch
    /\ actor_ (nets s) = Some actor
    /\ ent_coef_phase E step
         (actor_sample E true actor (S (rng_ (world s))) (observation batch)).2
         (tick (tick s)) st = Some (s1, st1, ent_coef)
    /\ critic_target_ (nets s1) = Some ct
    /\ target_q_values E (gamma_ (hp s1)) ent_coef actor ct (rng_ (world s1))
         batch = Some target
    /\ critic_phase E step batch target
         (emit (EvTargetQ step target) (tick s1)) st1 = Some (s2, st2)
    /\ actor_phase E step batch (S (rng_ (world s)))
         (actor_sample E true actor (S (rng_ (world s))) (observation batch)).1
         (actor_sample E true actor (S (rng_ (world s))) (observation batch)).2
         ent_coef s2 st2 = Some (s3, st')
    /\ polyak_phase step s3 = Some s'.
Proof.
  unfold train_step. intros H.
  destruct (replay_buffer_ (nets s)) as [rb|] eqn:Hrb; simpl in H;
    [|discriminate].
  destruct (Sample E rb _ _) as [batch|] eqn:Hb; simpl in H; [|discriminate].
  destruct (actor_ (nets s)) as [actor|] eqn:Ha; simpl in H; [|discriminate].
  destruct (actor_sample E true actor _ _) as [actions_pi log_prob] eqn:Has.
  destruct (ent_coef_phase _ _ _ _ _) as [[[s1 st1] ec]|] eqn:He;
    simpl in H; [|discriminate].
  destruct (critic_target_ (nets s1)) as [ct|] eqn:Hct; simpl in H;
    [|discriminate].
  destruct (target_q_values _ _ _ _ _ _ _) as [tq|] eqn:Htq; simpl in H;
    [|discriminate].
  destruct (critic_phase _ _ _ _ _ _) as [[s2 st2]|] eqn:Hc; simpl in H;
    [|discriminate].
  destruct (actor_phase _ _ _ _ _ _ _ _ _) as [[s3 st3]|] eqn:Hap;
    simpl in H; [|discriminate].
  destruct (polyak_phase _ _) as [s4|] eqn:Hp; simpl in H; [|discriminate].
  injection H as <- <-.
  exists rb, batch, actor, s1, st1, ec, ct, tq, s2, st2, s3.
  simpl. rewrite Has. simpl. repeat split; assumption.
Qed.

Lemma train_step_frame (E : Env) step s st s' st' :
  train_step E step (s, st) = Some (s', st') -> train_frame s s'.
Proof.
  intros H. apply train_step_inv in H.
  destruct H as (rb & batch & actor & s1 & st1 & ec & ct & tq & s2 & st2 & s3
                 & _ & _ & _ & He & _ & _ & Hc & Ha & Hp).
  apply ent_coef_phase_frame in He. apply critic_phase_frame in Hc.
  apply actor_phase_frame in Ha. apply polyak_phase_frame in Hp.
  eapply train_frame_trans; [|exact Hp].
  eapply train_frame_trans; [|exact Ha].
  eapply train_frame_trans; [|exact Hc].
  eapply train_frame_trans; [|apply train_frame_emit].
  eapply train_frame_trans; [|apply train_frame_tick].
  eapply train_frame_trans; [|exact He].
  eapply train_frame_trans; apply train_frame_tick.
Qed.

Lemma train_loop_S (E : Env) (n : nat) (step : Int) (acc : State * Stats) :
  train_loop E (S n) step acc
  = train_step E step acc ≫= train_loop E n (step + 1).
Proof. reflexivity. Qed.

Lemma train_loop_S_inv (E : Env) (n : nat) step s st s' st' :
  train_loop E (S n) step (s, st) = Some (s', st') ->
  exists s1 st1,
    train_step E step (s, st) = Some (s1, st1)
    /\ train_loop E n (step + 1) (s1, st1) = Some (s', st').
Proof.
  rewrite train_loop_S. intros H.
  destruct (train_step E step (s, st)) as [[s1 st1]|] eqn:H1;
    [|discriminate H].
  exists s1, st1. split; [reflexivity | exact H].
Qed.

Lemma train_loop_frame (E : Env) (n : nat) :
  forall step s st s' st',
    train_loop E n step (s, st) = Some (s', st') -> train_frame s s'.
Proof.
  induction n as [|n IH]; intros step s st s' st' H.
  - injection H as <- <-. apply train_frame_refl.
  - apply train_loop_S_inv in H. destruct H as (s1 & st1 & H1 & H).
    eapply train_frame_trans; [eapply train_step_frame, H1 | eapply IH, H].
Qed.

(** *** The events of a gradient step *)

Lemma ent_coef_phase_trace (E : Env) step lp s st s1 st1 ec :
  ent_coef_phase E step lp s st = Some (s1, st1, ec) ->
  trace_ (world s1)
  = trace_ (world s) ++ (if auto_mode s then [EvEntCoefStep step] else [])
  /\ rng_ (world s1) = rng_ (world s)
  /\ actor_ (nets s1) = actor_ (nets s)
  /\ critic_ (nets s1) = critic_ (nets s)
  /\ critic_target_ (nets s1) = critic_target_ (nets s)
  /\ current_ent_coef E s = Some ec
  /\ (auto_mode s = true -> leaves ec = []).
Proof.
  unfold ent_coef_phase, auto_mode, current_ent_coef. intros H.
  destruct (ent_coef_optimizer_ (nets s)) as [opt|] eqn:Hopt;
    destruct (log_ent_coef_ (nets s)) as [lec|] eqn:Hlec;
    try destruct (adam_step E opt _) as [opt' upd] eqn:Hstep;
    simplify_option_eq; simpl; rewrite ?app_nil_r;
    repeat split; auto; discriminate.
Qed.

Lemma critic_loss_leaves (target : Tensor) (qs : list Tensor) :
  forall (acc : Tensor) (l : Leaf),
    l ∈ leaves (foldl (fun a q => tadd true a (mse_loss true q target)) acc qs) ->
    l ∈ leaves acc \/ l ∈ leaves target
    \/ Exists (fun q => l ∈ leaves q) qs.
Proof.
  induction qs as [|q qs IH]; intros acc l Hl; simpl in Hl.
  - left; exact Hl.
  - apply IH in Hl. destruct Hl as [Hl|[Hl|Hl]].
    + simpl in Hl. rewrite !elem_of_app in Hl.
      destruct Hl as [Hl|[Hl|Hl]]; auto.
    + auto.
    + right; right. apply Exists_cons_tl, Hl.
Qed.

Lemma critic_phase_trace (E : Env) step batch target s st s2 st2 :
  critic_phase E step batch target s st = Some (s2, st2) ->
  exists cl,
    trace_ (world s2) = trace_ (world s) ++ [EvCriticStep step cl]
    /\ (forall l, l ∈ leaves cl -> l = LCritic \/ l ∈ leaves target)
    /\ actor_ (nets s2) = actor_ (nets s)
    /\ critic_target_ (nets s2) = critic_target_ (nets s).
Proof.
  unfold critic_phase. intros H. simplify_option_eq.
  destruct (adam_step E _ _) as [opt' upd]. simplify_eq.
  eexists. split; [reflexivity|]. split; [|split; reflexivity].
  intros l Hl. unfold critic_loss_of in Hl. simpl in Hl.
  apply critic_loss_leaves in Hl. destruct Hl as [Hl|[Hl|Hl]].
  - simpl in Hl. apply elem_of_nil in Hl. contradiction.
  - right; exact Hl.
  - left. apply Exists_exists in Hl. destruct Hl as (q & Hq & Hl).
    unfold critic_forward in Hq. apply in_map_iff in Hq.
    destruct Hq as (d & <- & _). simpl in Hl.
    apply list_elem_of_singleton in Hl. exact Hl.
Qed.

Lemma stack_min_leaves (g : bool) (ts : list Tensor) (m : Tensor) (l : Leaf) :
  stack_min g ts = Some m -> l ∈ leaves m ->
  Exists (fun t => l ∈ leaves t) ts.
Proof.
  intros Hm Hl.
  destruct (stack_min_inv _ _ _ Hm) as (t & rest & -> & _ & _ & Hleaves).
  rewrite Hleaves in Hl. destruct g; simpl in Hl.
  - apply list_elem_of_In in Hl.
    change (In l (concat (map leaves (t :: rest)))) in Hl.
    apply in_concat in Hl. destruct Hl as (ls & Hls & Hl).
    apply in_map_iff in Hls. destruct Hls as (t' & <- & Ht').
    apply Exists_exists. exists t'. split; [exact Ht'|].
    apply list_elem_of_In, Hl.
  - apply elem_of_nil in Hl. contradiction.
Qed.

Lemma actor_phase_trace (E : Env) step batch noise a lp ec s st s2 st2 :
  actor_phase E step batch noise a lp ec s st = Some (s2, st2) ->
  exists al,
    trace_ (world s2) = trace_ (world s) ++ [EvActorStep step al]
    /\ (forall l, l ∈ leaves al ->
          l = LCritic \/ l ∈ leaves a \/ l ∈ leaves lp \/ l ∈ leaves ec)
    /\ critic_ (nets s2) = critic_ (nets s)
    /\ critic_target_ (nets s2) = critic_target_ (nets s).
Proof.
  unfold actor_phase. intros H.
  destruct (critic_ (nets s)) as [critic|] eqn:Hc; [|discriminate H].
  simpl in H.
  destruct (stack_min true _) as [m|] eqn:Hm; [|discriminate H].
  simplify_option_eq.
  destruct (adam_step E _ _) as [opt' upd]. simplify_eq.
  eexists. split; [reflexivity|].
  split; [|split; [simpl; congruence|reflexivity]].
  intros l Hl. simpl in Hl. rewrite !elem_of_app in Hl.
  destruct Hl as [[Hl|Hl]|Hl]; auto.
  eapply stack_min_leaves in Hl; [|exact Hm].
  apply Exists_exists in Hl. destruct Hl as (q & Hq & Hl).
  unfold critic_forward in Hq. apply in_map_iff in Hq.
  destruct Hq as (d & <- & _). simpl in Hl.
  apply elem_of_cons in Hl. destruct Hl as [Hl|Hl]; auto.
Qed.

Lemma polyak_phase_spec (step : Int) (s s' : State) :
  polyak_phase step s = Some s' ->
  target_update_interval_ (hp s) <> 0
  /\ actor_ (nets s') = actor_ (nets s)
  /\ critic_ (nets s') = critic_ (nets s)
  /\ trace_ (world s')
     = trace_ (world s)
       ++ (if bool_decide (Z.rem step (target_update_interval_ (hp s)) = 0)
           then [EvPolyakUpdate step] else [])
  /\ (Z.rem step (target_update_interval_ (hp s)) = 0 ->
      exists critic target,
        critic_ (nets s) = Some critic
        /\ critic_target_ (nets s) = Some target
        /\ critic_target_ (nets s')
           = Some (mkModule
                     (torch_utils.PolyakUpdate (params critic) (params target)
                                               (tau_ (hp s)))
                     (torch_utils.PolyakUpdate (buffers critic)
                                               (buffers target) (qc 1 1))
                     (training target)))
  /\ (Z.rem step (target_update_interval_ (hp s)) <> 0 -> s' = s).
Proof.
  unfold polyak_phase. intros H.
  repeat case_bool_decide; simplify_option_eq; simpl;
    rewrite ?app_nil_r; repeat split; auto; try congruence.
  intros _. eexists _, _. repeat split.
Qed.

Lemma actor_sample_leaves (E : Env) actor noise obs (l : Leaf) :
  (l ∈ leaves (actor_sample E true actor noise obs).1 -> l = LActor)
  /\ (l ∈ leaves (actor_sample E true actor noise obs).2 -> l = LActor).
Proof.
  unfold actor_sample. destruct (PredictActionLogProb E actor noise obs).
  simpl. split; intros H; apply list_elem_of_singleton in H; exact H.
Qed.

(** A gradient step that succeeds: what it reads and the events it adds,
    in their order. *)
Lemma train_step_events (E : Env) (step : Int) (s s' : State)
    (st st' : Stats) :
  train_step E step (s, st) = Some (s', st') ->
  exists rb batch actor ct ec t cl al,
    replay_buffer_ (nets s) = Some rb
    /\ Sample E rb (batch_size_ (hp s)) (rng_ (world s)) = Some batch
    /\ actor_ (nets s) = Some actor
    /\ critic_target_ (nets s) = Some ct
    /\ current_ent_coef E s = Some ec
    /\ target_q_values E (gamma_ (hp s)) ec actor ct (S (S (rng_ (world s))))
         batch = Some t
    /\ trace_ (world s')
       = trace_ (world s)
         ++ (if auto_mode s then [EvEntCoefStep step] else [])
         ++ [EvTargetQ step t; EvCriticStep step cl; EvActorStep step al]
         ++ (if bool_decide (Z.rem step (target_update_interval_ (hp s)) = 0)
             then [EvPolyakUpdate step] else [])
    /\ leaves t = []
    /\ (forall l, l ∈ leaves cl -> l = LCritic)
    /\ (forall l, l ∈ leaves al -> l = LCritic \/ l = LActor \/ l ∈ leaves ec)
    /\ (auto_mode s = true -> leaves ec = [])
    /\ target_update_interval_ (hp s) <> 0.
Proof.
  intros H. pose proof (train_step_frame _ _ _ _ _ _ H) as Hframe.
  apply train_step_inv in H.
  destruct H as (rb & batch & actor & s1 & st1 & ec & ct & tq & s2 & st2 & s3
                 & Hrb & Hb & Hactor & He & Hct & Htq & Hc & Ha & Hp).
  pose proof (ent_coef_phase_frame _ _ _ _ _ _ _ _ He) as (_ & Hhp1 & _).
  apply ent_coef_phase_trace in He.
  destruct He as (Htr1 & Hrng1 & _ & _ & Hct1 & Hec & Hleaves).
  pose proof (critic_phase_frame _ _ _ _ _ _ _ _ Hc) as (_ & Hhp2 & _).
  apply critic_phase_trace in Hc.
  destruct Hc as (cl & Htr2 & Hcl & _ & _).
  pose proof (actor_phase_frame _ _ _ _ _ _ _ _ _ _ _ Ha) as (_ & Hhp3 & _).
  apply actor_phase_trace in Ha.
  destruct Ha as (al & Htr3 & Hal & _ & _).
  apply polyak_phase_spec in Hp.
  destruct Hp as (Hint & _ & _ & Htr4 & _ & _).
  pose proof (target_q_values_spec _ _ _ _ _ _ _ _ Htq) as (Hleaf & _).
  simpl in Hhp1, Hhp2, Htr1, Htr2, Hrng1, Hct1.
  exists rb, batch, actor, ct, ec, tq, cl, al.
  split; [exact Hrb|]. split; [exact Hb|]. split; [exact Hactor|].
  split; [congruence|]. split; [exact Hec|].
  split; [rewrite <- Hhp1, <- Hrng1; exact Htq|].
  split.
  { rewrite Htr4, Htr3, Htr2, Htr1, Hhp3, Hhp2, Hhp1.
    rewrite <- !app_assoc. reflexivity. }
  split; [exact Hleaf|]. split.
  { intros l Hl. destruct (Hcl l Hl) as [?|Hin]; [assumption|].
    rewrite Hleaf in Hin. apply elem_of_nil in Hin. contradiction. }
  split.
  { intros l Hl. destruct (Hal l Hl) as [?|[Hin|[Hin|Hin]]]; auto.
    - right; left. exact (proj1 (actor_sample_leaves _ _ _ _ _) Hin).
    - right; left. exact (proj2 (actor_sample_leaves _ _ _ _ _) Hin). }
  split; [exact Hleaves|].
  rewrite <- Hhp1, <- Hhp2, <- Hhp3. exact Hint.
Qed.

(** C1. In a gradient step of [Train] the target Q-value is computed
    without gradient tracking from the batch drawn in that step, the
    current actor's sample on [next_observation] and the entrywise minimum
    [q] of the critic-target ensemble, as
    [reward + (1 - done) * gamma * (q - ent_coef * next_log_prob)]; for a
    transition with [done = 1] it is the reward. *)
Theorem train_step_target_q (E : Env) (step : Int) (s s' : State)
    (st st' : Stats) (rb : ReplayBuffer) (batch : Batch)
    (actor ct : Module) (ec : Tensor) (e : Qc) (i : nat) (r d l : Qc) :
  train_step E step (s, st) = Some (s', st') ->
  replay_buffer_ (nets s) = Some rb ->
  Sample E rb (batch_size_ (hp s)) (rng_ (world s)) = Some batch ->
  actor_ (nets s) = Some actor ->
  critic_target_ (nets s) = Some ct ->
  current_ent_coef E s = Some ec ->
  let next := PredictActionLogProb E actor (S (S (rng_ (world s))))
                (next_observation batch) in
  let outs := Forward E ct (next_observation batch) next.1 in
  data ec = [e] ->
  length (done batch) = length (reward batch) ->
  length next.2 = length (reward batch) ->
  Forall (fun o => length o = length (reward batch)) outs ->
  reward batch !! i = Some r ->
  done batch !! i = Some d ->
  next.2 !! i = Some l ->
  exists t q,
    target_q_values E (gamma_ (hp s)) ec actor ct (S (S (rng_ (world s))))
      batch = Some t
    /\ EvTargetQ step t ∈ drop (length (trace_ (world s))) (trace_ (world s'))
    /\ leaves t = []
    /\ is_min_over outs i q
    /\ data t !! i = Some (r + (1 - d) * gamma_ (hp s) * (q - e * l))%Qc
    /\ (d = 1%Qc -> data t !! i = Some r).
Proof.
  intros Hstep Hrb Hb Hactor Hct Hec next outs He Hd Hl Hall Hr Hdi Hli.
  apply train_step_events in Hstep.
  destruct Hstep as (rb' & batch' & actor' & ct' & ec' & t & cl & al
                     & Hrb' & Hb' & Hactor' & Hct' & Hec' & Htq & Htr
                     & Hleaf & _).
  assert (rb' = rb) as -> by congruence.
  assert (batch' = batch) as -> by congruence.
  assert (actor' = actor) as -> by congruence.
  assert (ct' = ct) as -> by congruence.
  assert (ec' = ec) as -> by congruence.
  destruct (target_q_values_spec _ _ _ _ _ _ _ _ Htq) as (_ & Hspec).
  destruct (Hspec e He Hd Hl Hall i r d l Hr Hdi Hli) as (q & Hmin & Hdata).
  exists t, q. split; [exact Htq|]. split.
  { rewrite Htr, drop_app_length. destruct (auto_mode s); simpl.
    - apply elem_of_cons; right. apply elem_of_cons; left. reflexivity.
    - apply elem_of_cons; left. reflexivity. }
  split; [exact Hleaf|]. split; [exact Hmin|]. split; [exact Hdata|].
  intros ->. rewrite Hdata. f_equal. ring.
Qed.

Lemma train_step_target_q_witness :
  exists t q,
    is_min_over [replicate 4 (qc 1 1); replicate 4 (qc 2 1)] 0 q
    /\ leaves t = []
    /\ data t !! 0%nat
       = Some (qc 1 1 + (1 - qc 0 1) * qc 99 100 * (q - qc 1 1 * (- qc 1 1)))%Qc.
Proof.
  destruct (train_step_target_q Stub.env 0 Stub.ready Stub.stepped.1
              no_stats Stub.stepped.2
              (default (MakeReplayBuffer Stub.env)
                 (replay_buffer_ (nets Stub.ready)))
              (mkBatch (replicate 4 (qc 0 1)) (replicate 4 (qc 0 1))
                 (replicate 4 (qc 0 1)) (replicate 4 (qc 1 1))
                 (replicate 4 (qc 0 1)))
              (default (MakeActor Stub.env 0) (actor_ (nets Stub.ready)))
              (default (MakeActor Stub.env 0)
                 (critic_target_ (nets Stub.ready)))
              (default (scalar_tensor (qc 0 1))
                 (current_ent_coef Stub.env Stub.ready))
              (qc 1 1) 0%nat (qc 1 1) (qc 0 1) (- qc 1 1)%Qc)
    as (t & q & Htq & Hin & Hleaf & Hmin & Hdata & _);
    try (vm_compute; reflexivity).
  - repeat constructor.
  - exists t, q. split; [exact Hmin|]. split; [exact Hleaf | exact Hdata].
Defined.



(** *** The target update *)




Lemma Train_inv (E : Env) (s s' : State) :
  Train E s = Some s' ->
  exists actor critic s1 st1 items,
    actor_ (nets s) = Some actor
    /\ critic_ (nets s) = Some critic
    /\ train_loop E (Z.to_nat (gradient_steps_ (hp s))) 0
         (upd_nets (fun n => set_critic_ (Some (set_training true critic))
                      (set_actor_ (Some (set_training true actor)) n)) s,
          no_stats) = Some (s1, st1)
    /\ write_log_items (num_updates_ (rl s1) + gradient_steps_ (hp s1)) st1
         (log_items_ (rl s1)) = Some items
    /\ s' = upd_rl (set_log_items_ items)
              (upd_rl (fun r => set_num_updates_
                         (num_updates_ r + gradient_steps_ (hp s1)) r) s1).
Proof.
  unfold Train. intros H.
  destruct (actor_ (nets s)) as [actor|]; [|discriminate H].
  destruct (critic_ (nets s)) as [critic|]; [|discriminate H].
  cbn [mbind option_bind] in H.
  destruct (train_loop E _ 0 _) as [[s1 st1]|] eqn:Hloop; [|discriminate H].
  cbn [mbind option_bind] in H. cbn [rl upd_rl hp num_updates_ set_num_updates_ log_items_] in H.
  destruct (write_log_items _ _ _) as [items|] eqn:Hw; [|discriminate H].
  injection H as <-.
  exists actor, critic, s1, st1, items. repeat split; try assumption.
Qed.



(** Evaluation of the record updates and projections of a state. *)
Ltac state_cbv :=
  cbv beta iota zeta delta
    [Reset RL_Reset RegisterLogItems MakeReplayBuffer action_sizes rl hp
     nets world upd_rl upd_hp upd_nets upd_world tick emit num_iters_
     time_steps_ max_time_steps_ num_updates_ monitor_interval_
     checkpoint_interval_ output_path_ log_items_ learning_starts_
     batch_size_ lr_ tau_ gamma_ ent_coef_ target_entropy_ auto_ent_coef_
     auto_target_entropy_ train_freq_ gradient_steps_
     target_update_interval_ replay_buffer_ actor_ critic_ critic_target_
     actor_optimizer_ critic_optimizer_ ent_coef_optimizer_ log_ent_coef_
     ent_coef_tensor_ observation_ env_ rng_ log_txt_ console_ checkpoints_
     trace_ set_num_iters_ set_time_steps_ set_max_time_steps_
     set_num_updates_ set_monitor_interval_ set_checkpoint_interval_
     set_output_path_ set_log_items_ set_learning_starts_ set_batch_size_
     set_lr_ set_tau_ set_gamma_ set_ent_coef_ set_target_entropy_
     set_auto_ent_coef_ set_auto_target_entropy_ set_train_freq_
     set_gradient_steps_ set_target_update_interval_ set_replay_buffer_
     set_actor_ set_critic_ set_critic_target_ set_actor_optimizer_
     set_critic_optimizer_ set_ent_coef_optimizer_ set_log_ent_coef_
     set_ent_coef_tensor_ set_observation_ set_env_ set_rng_ set_log_txt_
     set_console_ set_checkpoints_ set_trace_].

(** [Reset], member by member. *)
Lemma Reset_unfold (E : Env) (s : State) :
  let auto := auto_ent_coef_ (hp s) in
  let rng := rng_ (world s) in
  let items := log_items_ (rl (RegisterLogItems s)) in
  let actor := MakeActor E rng in
  let critic := ResetCritic E (MakeCritic E (S rng)) in
  let target :=
    torch_utils.CopyStateDict critic
      (set_training false (ResetCritic E (MakeCritic E (S (S rng))))) in
  let log_ent_coef :=
    mkTensor [tlog E (1 * ent_coef_ (hp s))%Qc] [LLogEntCoef] in
  let started := ResetEnv E (env_ (world s)) in
  Reset E s
  = mkState
      (mkRLBase 0 0 (max_time_steps_ (rl s)) 0 (monitor_interval_ (rl s))
         (checkpoint_interval_ (rl s)) (output_path_ (rl s)) items)
      (if auto && auto_target_entropy_ (hp s)
       then set_target_entropy_
              (default_target_entropy (buffer_action_sizes E)) (hp s)
       else hp s)
      (mkNets (Some (MakeReplayBuffer E)) (Some actor) (Some critic)
         (Some target)
         (Some (adam_init E (lr_ (hp s)) (params actor)))
         (Some (adam_init E (lr_ (hp s)) (params critic)))
         (if auto then Some (adam_init E (lr_ (hp s)) (data log_ent_coef))
          else ent_coef_optimizer_ (nets s))
         (if auto then Some log_ent_coef else log_ent_coef_ (nets s))
         (if auto then ent_coef_tensor_ (nets s)
          else Some (scalar_tensor (ent_coef_ (hp s))))
         (Some started.2))
      (mkWorld started.1 (S (S (S rng)))
         (if bool_decide (output_path_ (rl s) = "") then log_txt_ (world s)
          else [Header (column_names items)])
         (console_ (world s)) (checkpoints_ (world s)) (trace_ (world s))).
Proof.
  cbv zeta.
  destruct s as [[ni ts mts nu mi ci path items0]
                 [ls bs lr tau gamma ec te aec ate tf gs tui] n w].
  destruct aec, ate; state_cbv; reflexivity.
Qed.

Lemma Reset_critic_target (E : Env) (s : State) :
  let critic := ResetCritic E (MakeCritic E (S (rng_ (world s)))) in
  critic_ (nets (Reset E s)) = Some critic
  /\ critic_target_ (nets (Reset E s))
     = Some (torch_utils.CopyStateDict critic
               (set_training false
                  (ResetCritic E (MakeCritic E (S (S (rng_ (world s)))))))).
Proof.
  rewrite Reset_unfold. split; reflexivity.
Qed.

Lemma PolyakUpdate_tau_1 (source : list Qc) :
  forall target : list Qc,
    length source = length target ->
    torch_utils.PolyakUpdate source target (qc 1 1) = source.
Proof.
  unfold torch_utils.PolyakUpdate. change (qc 1 1) with 1%Qc.
  induction source as [|x source IH]; intros [|y target] Hlen;
    simpl in *; try discriminate; [reflexivity|].
  f_equal; [ring | apply IH; lia].
Qed.

Lemma PolyakUpdate_tau_0 (source : list Qc) :
  forall target : list Qc,
    length source = length target ->
    torch_utils.PolyakUpdate source target (qc 0 1) = target.
Proof.
  unfold torch_utils.PolyakUpdate. change (qc 0 1) with 0%Qc.
  induction source as [|x source IH]; intros [|y target] Hlen;
    simpl in *; try discriminate; [reflexivity|].
  f_equal; [ring | apply IH; lia].
Qed.

Lemma actor_phase_critic (E : Env) step batch noise a lp ec s st s2 st2 :
  actor_phase E step batch noise a lp ec s st = Some (s2, st2) ->
  is_Some (critic_ (nets s2)) /\ is_Some (actor_ (nets s2)).
Proof.
  unfold actor_phase. intros H.
  destruct (critic_ (nets s)) as [critic|] eqn:Hc; [|discriminate H].
  simplify_option_eq.
  destruct (adam_step E _ _) as [opt' upd]. simplify_eq.
  simpl. rewrite Hc. split; eexists; reflexivity.
Qed.

(** What a gradient step does to the critic target. *)
Lemma train_step_target_update (E : Env) step s st s' st' :
  train_step E step (s, st) = Some (s', st') ->
  exists critic target,
    critic_ (nets s') = Some critic
    /\ critic_target_ (nets s) = Some target
    /\ critic_target_ (nets s')
       = Some (if bool_decide
                    (Z.rem step (target_update_interval_ (hp s)) = 0)
               then mkModule
                      (torch_utils.PolyakUpdate (params critic)
                         (params target) (tau_ (hp s)))
                      (torch_utils.PolyakUpdate (buffers critic)
                         (buffers target) (qc 1 1))
                      (training target)
               else target).
Proof.
  intros H. apply train_step_inv in H.
  destruct H as (rb & batch & actor & s1 & st1 & ec & ct & tq & s2 & st2 & s3
                 & _ & _ & _ & He & Hct & _ & Hc & Ha & Hp).
  pose proof (ent_coef_phase_frame _ _ _ _ _ _ _ _ He) as (_ & Hhp1 & _).
  apply ent_coef_phase_trace in He.
  destruct He as (_ & _ & _ & _ & Hct1 & _).
  pose proof (critic_phase_frame _ _ _ _ _ _ _ _ Hc) as (_ & Hhp2 & _).
  apply critic_phase_trace in Hc. destruct Hc as (cl & _ & _ & _ & Hct2).
  pose proof (actor_phase_frame _ _ _ _ _ _ _ _ _ _ _ Ha) as (_ & Hhp3 & _).
  pose proof (actor_phase_critic _ _ _ _ _ _ _ _ _ _ _ Ha) as ([c3 Hc3] & _).
  apply actor_phase_trace in Ha. destruct Ha as (al & _ & _ & _ & Hct3).
  simpl in Hct1, Hct2, Hhp1, Hhp2.
  assert (Hhp : hp s3 = hp s) by congruence.
  assert (Htgt : critic_target_ (nets s3) = Some ct) by congruence.
  apply polyak_phase_spec in Hp.
  destruct Hp as (_ & _ & Hcr & _ & Hyes & Hno). rewrite Hhp in Hyes, Hno.
  case_bool_decide as Hrem.
  - destruct (Hyes Hrem) as (critic & target & Hc3' & Ht3 & Ht').
    exists critic, ct. assert (target = ct) as -> by congruence.
    split; [congruence|]. split; [congruence|]. exact Ht'.
  - rewrite (Hno Hrem). exists c3, ct. split; [exact Hc3|].
    split; congruence.
Qed.

(** C2. After [Reset] the critic target has the parameters (and buffers)
    of the critic. In a gradient step whose index is a multiple of
    [target_update_interval] the target's parameters become
    [tau*critic + (1-tau)*target], which is the critic's parameters for
    [tau = 1] and the target's own for [tau = 0], and its buffers become
    the critic's (factor 1); in the other gradient steps the target is
    left alone. *)
Theorem critic_target_sync (E : Env) (s0 : State) (step : Int)
    (s s' : State) (st st' : Stats) (critic target target' : Module) :
  train_step E step (s, st) = Some (s', st') ->
  critic_ (nets s') = Some critic ->
  critic_target_ (nets s) = Some target ->
  critic_target_ (nets s') = Some target' ->
  length (params critic) = length (params target) ->
  length (buffers critic) = length (buffers target) ->
  (exists c t,
      critic_ (nets (Reset E s0)) = Some c
      /\ critic_target_ (nets (Reset E s0)) = Some t
      /\ params t = params c /\ buffers t = buffers c)
  /\ (Z.rem step (target_update_interval_ (hp s)) <> 0 -> target' = target)
  /\ (Z.rem step (target_update_interval_ (hp s)) = 0 ->
      params target'
      = torch_utils.PolyakUpdate (params critic) (params target) (tau_ (hp s))
      /\ (tau_ (hp s) = 1%Qc -> params target' = params critic)
      /\ (tau_ (hp s) = 0%Qc -> params target' = params target)
      /\ buffers target' = buffers critic).
Proof.
  intros Hstep Hc Ht Ht' Hlp Hlb. split.
  { destruct (Reset_critic_target E s0) as (Hrc & Hrt).
    eexists _, _. split; [exact Hrc|]. split; [exact Hrt|].
    split; reflexivity. }
  apply train_step_target_update in Hstep.
  destruct Hstep as (critic1 & target1 & Hc1 & Ht1 & Ht1').
  assert (critic1 = critic) as -> by congruence.
  assert (target1 = target) as -> by congruence.
  rewrite Ht' in Ht1'. injection Ht1' as ->.
  split.
  - intros Hrem. case_bool_decide; [contradiction | reflexivity].
  - intros Hrem. case_bool_decide; [|contradiction]. simpl.
    split; [reflexivity|]. split; [|split].
    + intros ->. apply (PolyakUpdate_tau_1 _ _ Hlp).
    + intros ->. apply (PolyakUpdate_tau_0 _ _ Hlp).
    + apply (PolyakUpdate_tau_1 _ _ Hlb).
Qed.

Lemma critic_target_sync_witness :
  exists critic target',
    critic_ (nets Stub.stepped.1) = Some critic
    /\ critic_target_ (nets Stub.stepped.1) = Some target'
    /\ params target' = params critic
    /\ buffers target' = buffers critic.
Proof.
  pose (critic := default (MakeActor Stub.env 0)
                    (critic_ (nets Stub.stepped.1))).
  pose (target := default (MakeActor Stub.env 0)
                    (critic_target_ (nets Stub.ready))).
  pose (target' := default (MakeActor Stub.env 0)
                     (critic_target_ (nets Stub.stepped.1))).
  destruct (critic_target_sync Stub.env Stub.scenario 0 Stub.ready
              Stub.stepped.1 no_stats Stub.stepped.2 critic target target')
    as (_ & _ & Hsync); try (vm_compute; reflexivity).
  destruct Hsync as (_ & Hone & _ & Hbuf); [vm_compute; reflexivity|].
  exists critic, target'.
  split; [vm_compute; reflexivity|]. split; [vm_compute; reflexivity|].
  split; [apply Hone; apply Qc_is_canon; reflexivity | exact Hbuf].
Defined.

Lemma rollout_frame_refl (s : State) : rollout_frame s s.
Proof. unfold rollout_frame. repeat split. Qed.

Lemma rollout_frame_trans (s1 s2 s3 : State) :
  rollout_frame s1 s2 -> rollout_frame s2 s3 -> rollout_frame s1 s3.
Proof.
  unfold rollout_frame. intros H1 H2.
  destruct H1 as (?&?&?&?&?&?&?&?&?&?&?&?&?&?&?),
           H2 as (?&?&?&?&?&?&?&?&?&?&?&?&?&?&?).
  repeat split; congruence.
Qed.

Lemma length_Add (t : Transition) (b : ReplayBuffer) :
  capacity (Add t b) = capacity b
  /\ action_sizes (Add t b) = action_sizes b
  /\ length (storage (Add t b))
     = Nat.min (capacity b) (S (length (storage b))).
Proof.
  unfold Add. simpl. rewrite length_drop, length_app. simpl.
  repeat split. lia.
Qed.

(** What storing one transition does. *)
Lemma step_and_store_spec (E : Env) (act : list Qc) (s s' : State) :
  step_and_store E act s = Some s' ->
  rollout_frame s s'
  /\ time_steps_ (rl s') = time_steps_ (rl s)
  /\ rng_ (world s') = rng_ (world s)
  /\ is_Some (observation_ (nets s'))
  /\ actor_ (nets s') = actor_ (nets s)
  /\ critic_ (nets s') = critic_ (nets s)
  /\ exists rb rb',
      replay_buffer_ (nets s) = Some rb
      /\ replay_buffer_ (nets s') = Some rb'
      /\ capacity rb' = capacity rb
      /\ length (storage rb')
         = Nat.min (capacity rb) (S (length (storage rb))).
Proof.
  unfold step_and_store. intros H.
  destruct (replay_buffer_ (nets s)) as [rb|] eqn:Hrb; [|discriminate H].
  destruct (observation_ (nets s)) as [obs|] eqn:Hobs; [|discriminate H].
  cbn [mbind option_bind] in H.
  destruct (Step E _ act) as [env' [[no r] d]]. injection H as <-.
  split; [unfold rollout_frame; simpl; repeat split|].
  simpl. repeat split; try (eexists; reflexivity).
  exists rb. eexists. split; [reflexivity|]. split; [reflexivity|].
  destruct (length_Add (mkTransition obs act no r d) rb) as (Hc & _ & Hl).
  split; assumption.
Qed.

Lemma step_and_store_total (E : Env) (act : list Qc) (s : State) :
  is_Some (replay_buffer_ (nets s)) -> is_Some (observation_ (nets s)) ->
  is_Some (step_and_store E act s).
Proof.
  intros [rb Hrb] [obs Hobs]. unfold step_and_store. rewrite Hrb, Hobs.
  cbn [mbind option_bind].
  destruct (Step E _ act) as [env' [[no r] d]]. eexists; reflexivity.
Qed.

Lemma stored_refl (s : State) : stored 0 0 s s.
Proof.
  unfold stored. split; [apply rollout_frame_refl|].
  split; [lia|]. split; [auto|].
  destruct (replay_buffer_ (nets s)) as [rb|]; reflexivity.
Qed.

Lemma size_after_add (cap len k1 k2 : nat) :
  size_after cap (size_after cap len k1) k2 = size_after cap len (k1 + k2).
Proof.
  destruct k1 as [|k1]; [reflexivity|].
  destruct k2 as [|k2]; [rewrite Nat.add_0_r; reflexivity|].
  simpl. lia.
Qed.

Lemma stored_trans (k1 k2 : nat) (d1 d2 : Z) (s1 s2 s3 : State) :
  stored k1 d1 s1 s2 -> stored k2 d2 s2 s3 ->
  stored (k1 + k2) (d1 + d2) s1 s3.
Proof.
  intros (Hf1 & Ht1 & Ho1 & Hb1) (Hf2 & Ht2 & Ho2 & Hb2).
  split; [eapply rollout_frame_trans; eassumption|].
  split; [lia|]. split; [auto|].
  destruct (replay_buffer_ (nets s1)) as [rb1|];
    destruct (replay_buffer_ (nets s2)) as [rb2|];
    destruct (replay_buffer_ (nets s3)) as [rb3|];
    simpl in *; try discriminate; try reflexivity.
  injection Hb1 as Hc1 Hl1. injection Hb2 as Hc2 Hl2.
  unfold buffer_size. rewrite Hc2, Hl2, Hl1, Hc1, size_after_add.
  reflexivity.
Qed.

Lemma warmup_body_stored (E : Env) (s s' : State) :
  warmup_body E s = Some s' -> stored 1 0 s s'.
Proof.
  unfold warmup_body. intros H. apply step_and_store_spec in H.
  destruct H as (Hf & Ht & _ & Ho & _ & _ & rb & rb' & Hrb & Hrb' & Hc & Hl).
  simpl in *. split; [exact Hf|]. split; [lia|]. split; [auto|].
  rewrite Hrb, Hrb'. simpl. unfold buffer_size. rewrite Hc, Hl.
  do 2 f_equal. lia.
Qed.

Lemma rollout_body_stored (E : Env) (s s' : State) :
  rollout_body E s = Some s' -> stored 1 (NumEnvs E) s s'.
Proof.
  unfold rollout_body. intros H.
  destruct (actor_ (nets s)) as [actor|]; [|discriminate H].
  destruct (observation_ (nets s)) as [obs|] eqn:Hobs; [|discriminate H].
  cbn [mbind option_bind] in H.
  destruct (step_and_store E _ (tick s)) as [s1|] eqn:H1; [|discriminate H].
  injection H as <-. apply step_and_store_spec in H1.
  destruct H1 as (Hf & Ht & _ & Ho & _ & _ & rb & rb' & Hrb & Hrb' & Hc & Hl).
  simpl in *. split.
  { unfold rollout_frame in *. simpl. exact Hf. }
  split; [simpl; lia|]. split; [simpl; auto|].
  simpl. rewrite Hrb, Hrb'. simpl. unfold buffer_size. rewrite Hc, Hl.
  do 2 f_equal. lia.
Qed.

Lemma repeat_opt_stored (body : State -> option State) (dt : Z) :
  (forall s s', body s = Some s' -> stored 1 dt s s') ->
  forall (n : nat) (s s' : State),
    repeat_opt n body s = Some s' -> stored n (dt * Z.of_nat n) s s'.
Proof.
  intros Hbody. induction n as [|n IH]; intros s s' H; simpl in H.
  - injection H as <-. rewrite Z.mul_0_r. apply stored_refl.
  - destruct (body s) as [s1|] eqn:H1; [|discriminate H].
    simpl in H. apply Hbody in H1. apply IH in H.
    replace (dt * Z.of_nat (S n)) with (dt + dt * Z.of_nat n) by lia.
    apply (stored_trans 1 n _ _ _ _ _ H1 H).
Qed.

(** What [CollectRollouts] does to the counters and to the buffer. *)
Lemma CollectRollouts_stored (E : Env) (s s' : State) :
  CollectRollouts E s = Some s' ->
  stored
    ((if bool_decide (num_iters_ (rl s) = 0)
      then Z.to_nat (learning_starts_ (hp s)) else 0)
     + Z.to_nat (train_freq_ (hp s)))
    (NumEnvs E * Z.of_nat (Z.to_nat (train_freq_ (hp s)))) s s'.
Proof.
  unfold CollectRollouts. intros H.
  destruct (actor_ (nets s)) as [actor|] eqn:Ha; [|discriminate H].
  destruct (critic_ (nets s)) as [critic|] eqn:Hc; [|discriminate H].
  cbn [mbind option_bind] in H.
  set (s0 := upd_nets _ s) in H.
  assert (H0 : stored 0 0 s s0).
  { split; [|split; [simpl; lia|split; [auto|]]].
    - unfold rollout_frame. simpl. rewrite Ha, Hc. repeat split.
    - simpl. destruct (replay_buffer_ (nets s)); reflexivity. }
  change (num_iters_ (rl s0)) with (num_iters_ (rl s)) in H.
  change (hp s0) with (hp s) in H.
  case_bool_decide as Hni.
  - destruct (repeat_opt _ (warmup_body E) s0) as [s1|] eqn:Hw;
      [|discriminate H].
    cbn [mbind option_bind] in H.
    apply (repeat_opt_stored _ 0 (warmup_body_stored E)) in Hw.
    pose proof Hw as ((_ & Hhp1 & _) & _).
    rewrite Hhp1 in H. change (hp s0) with (hp s) in H.
    apply (repeat_opt_stored _ _ (rollout_body_stored E)) in H.
    pose proof (stored_trans _ _ _ _ _ _ _ H0
                  (stored_trans _ _ _ _ _ _ _ Hw H)) as Hall.
    simpl in Hall. rewrite Z.mul_0_l in Hall. exact Hall.
  - cbn [mbind option_bind] in H.
    apply (repeat_opt_stored _ _ (rollout_body_stored E)) in H.
    pose proof (stored_trans _ _ _ _ _ _ _ H0 H) as Hall.
    simpl in Hall. exact Hall.
Qed.

(** *** The log items *)

Lemma set_log_item_spec (key : string) (value : option Qc)
    (items items' : gmap string (option Qc)) :
  set_log_item key value items = Some items' ->
  (forall k, is_Some (items' !! k) <-> is_Some (items !! k))
  /\ (forall k, k <> key -> items' !! k = items !! k)
  /\ (is_Some (items !! key) -> exists x, items' !! key = Some (Some x)).
Proof.
  unfold set_log_item. intros H.
  destruct (items !! key) as [old|] eqn:Hkey.
  - destruct value as [v|]; [|discriminate H]. injection H as <-.
    split; [|split].
    + intros k. destruct (decide (k = key)) as [->|Hne].
      * rewrite lookup_insert_eq, Hkey. split; eauto.
      * rewrite lookup_insert_ne by congruence. reflexivity.
    + intros k Hne. rewrite lookup_insert_ne by congruence. reflexivity.
    + intros _. exists v. apply lookup_insert_eq.
  - injection H as <-. split; [reflexivity|]. split; [reflexivity|].
    intros [x Hx]. discriminate Hx.
Qed.

Lemma write_log_items_spec (num_updates : Int) (st : Stats)
    (items items' : gmap string (option Qc)) :
  write_log_items num_updates st items = Some items' ->
  (forall k, is_Some (items' !! k) <-> is_Some (items !! k))
  /\ (is_Some (items !! "ent_coef_loss") ->
      exists x, items' !! "ent_coef_loss" = Some (Some x)).
Proof.
  unfold write_log_items. intros H. case_bool_decide as Hempty.
  { injection H as <-. split; [reflexivity|]. subst items.
    intros [x Hx]. rewrite lookup_empty in Hx. discriminate Hx. }
  destruct (set_log_item "num_updates" _ items) as [i1|] eqn:H1;
    [|discriminate H]. cbn [mbind option_bind] in H.
  destruct (set_log_item "ent_coef" _ i1) as [i2|] eqn:H2;
    [|discriminate H]. cbn [mbind option_bind] in H.
  destruct (set_log_item "actor_loss" _ i2) as [i3|] eqn:H3;
    [|discriminate H]. cbn [mbind option_bind] in H.
  destruct (set_log_item "critic_loss" _ i3) as [i4|] eqn:H4;
    [|discriminate H]. cbn [mbind option_bind] in H.
  destruct (set_log_item "ent_coef_loss" _ i4) as [i5|] eqn:H5;
    [|discriminate H]. cbn [mbind option_bind] in H.
  destruct (set_log_item "q_value" _ i5) as [i6|] eqn:H6;
    [|discriminate H]. cbn [mbind option_bind] in H.
  apply set_log_item_spec in H1, H2, H3, H4, H5, H6, H.
  destruct H1 as (D1 & _ & _), H2 as (D2 & _ & _), H3 as (D3 & _ & _),
           H4 as (D4 & _ & _), H5 as (D5 & _ & V5), H6 as (D6 & O6 & _),
           H as (D7 & O7 & _).
  split.
  - intros k. rewrite D7, D6, D5, D4, D3, D2, D1. reflexivity.
  - intros Hreg. rewrite O7, O6 by discriminate.
    apply V5. rewrite D4, D3, D2, D1. exact Hreg.
Qed.

(** What [Train] does outside the networks. *)
Lemma Train_spec (E : Env) (s s' : State) :
  Train E s = Some s' ->
  hp s' = hp s
  /\ (exists st items,
        write_log_items (num_updates_ (rl s) + gradient_steps_ (hp s)) st
          (log_items_ (rl s)) = Some items
        /\ rl s' = set_log_items_ items
                     (set_num_updates_
                        (num_updates_ (rl s) + gradient_steps_ (hp s)) (rl s)))
  /\ replay_buffer_ (nets s') = replay_buffer_ (nets s)
  /\ observation_ (nets s') = observation_ (nets s)
  /\ auto_mode s' = auto_mode s
  /\ env_ (world s') = env_ (world s)
  /\ log_txt_ (world s') = log_txt_ (world s)
  /\ console_ (world s') = console_ (world s)
  /\ checkpoints_ (world s') = checkpoints_ (world s).
Proof.
  intros H. apply Train_inv in H.
  destruct H as (actor & critic & s1 & st1 & items & Ha & Hc & Hloop & Hw & ->).
  pose proof (train_loop_frame _ _ _ _ _ _ _ Hloop)
    as (Hrl & Hhp & Hrb & _ & Hobs & Hauto & Henv & Hlog & Hcon & Hck & _).
  simpl in Hrl, Hhp, Hrb, Hobs, Henv, Hlog, Hcon, Hck.
  assert (Hauto' : auto_mode s1 = auto_mode s) by exact Hauto.
  split; [exact Hhp|]. split.
  { exists st1, items. rewrite <- Hrl, <- Hhp. split; [exact Hw|]. reflexivity. }
  simpl. repeat split; assumption.
Qed.

Lemma names_of_items (items : gmap string (option Qc)) (k : string) :
  k ∈ (map_to_list items).*1 <-> is_Some (items !! k).
Proof.
  rewrite list_elem_of_fmap. split.
  - intros ([k' v] & -> & Hin). apply elem_of_map_to_list in Hin.
    simpl. eauto.
  - intros [v Hv]. exists (k, v). split; [reflexivity|].
    apply elem_of_map_to_list, Hv.
Qed.

(** [Monitor] only writes lines, whose columns are the log items. *)
Lemma Monitor_spec (s : State) :
  rl (Monitor s) = rl s /\ hp (Monitor s) = hp s
  /\ nets (Monitor s) = nets s
  /\ checkpoints_ (world (Monitor s)) = checkpoints_ (world s)
  /\ exists rows1 rows2,
      log_txt_ (world (Monitor s)) = log_txt_ (world s) ++ rows1
      /\ console_ (world (Monitor s)) = console_ (world s) ++ rows2
      /\ Forall (fun row => forall k, k ∈ row_names row ->
                              is_Some (log_items_ (rl s) !! k))
                (rows1 ++ rows2).
Proof.
  unfold Monitor.
  assert (Hrows : Forall (fun row => forall k, k ∈ row_names row ->
                              is_Some (log_items_ (rl s) !! k))
                    [Header (column_names (log_items_ (rl s))); log_row s]).
  { repeat constructor; intros k Hk; apply names_of_items, Hk. }
  destruct (_ || _); [|case_bool_decide]; simpl;
    repeat split; try reflexivity.
  - exists [], []. rewrite !app_nil_r. repeat split. constructor.
  - exists []. eexists. rewrite app_nil_r. repeat split. exact Hrows.
  - eexists [_]. eexists. repeat split.
    constructor; [|exact Hrows]. intros k Hk. apply names_of_items, Hk.
Qed.

Lemma Checkpoint_spec (E : Env) (s s' : State) :
  Checkpoint E s = Some s' ->
  rl s' = rl s /\ hp s' = hp s /\ nets s' = nets s
  /\ log_txt_ (world s') = log_txt_ (world s)
  /\ console_ (world s') = console_ (world s).
Proof.
  unfold Checkpoint. intros H.
  destruct (_ || _); [injection H as <-; repeat split|].
  case_bool_decide; [injection H as <-; repeat split|].
  destruct (SaveArchive _ s ∅) as [a|]; [|discriminate H].
  injection H as <-. repeat split.
Qed.

Lemma Learn_iteration_inv (E : Env) (s s' : State) :
  Learn_iteration E s = Some s' ->
  exists s1 s2 s3,
    CollectRollouts E s = Some s1
    /\ Train E s1 = Some s2
    /\ Checkpoint E (Monitor s2) = Some s3
    /\ s' = Update s3.
Proof.
  unfold Learn_iteration. intros H.
  destruct (CollectRollouts E s) as [s1|] eqn:H1; [|discriminate H].
  cbn [mbind option_bind] in H.
  destruct (Train E s1) as [s2|] eqn:H2; [|discriminate H].
  cbn [mbind option_bind] in H.
  destruct (Checkpoint E (Monitor s2)) as [s3|] eqn:H3; [|discriminate H].
  injection H as <-. exists s1, s2, s3. repeat split; assumption.
Qed.

(** *** The counters *)

Lemma Learn_iteration_counters (E : Env) (s s' : State) :
  Learn_iteration E s = Some s' ->
  hp s' = hp s
  /\ time_steps_ (rl s')
     = time_steps_ (rl s) + NumEnvs E * Z.max 0 (train_freq_ (hp s))
  /\ num_iters_ (rl s') = num_iters_ (rl s) + 1
  /\ num_updates_ (rl s') = num_updates_ (rl s) + gradient_steps_ (hp s)
  /\ max_time_steps_ (rl s') = max_time_steps_ (rl s).
Proof.
  intros H. apply Learn_iteration_inv in H.
  destruct H as (s1 & s2 & s3 & Hc & Ht & Hk & ->).
  apply CollectRollouts_stored in Hc.
  destruct Hc as ((Hrl1 & Hhp1 & _) & Hts1 & _).
  apply Train_spec in Ht.
  destruct Ht as (Hhp2 & (st & items & _ & Hrl2) & _).
  apply Checkpoint_spec in Hk. destruct Hk as (Hrl3 & Hhp3 & _).
  destruct (Monitor_spec s2) as (Hrlm & Hhpm & _).
  rewrite Hrlm in Hrl3. rewrite Hhpm in Hhp3.
  simpl. rewrite Hrl3, Hrl2, Hhp3, Hhp2, Hhp1. simpl.
  pose proof (f_equal num_iters_ Hrl1) as Hni.
  pose proof (f_equal num_updates_ Hrl1) as Hnu.
  pose proof (f_equal max_time_steps_ Hrl1) as Hmt.
  simpl in Hni, Hnu, Hmt.
  repeat split; try congruence; lia.
Qed.

Lemma Learn_iterations_counters (E : Env) (n : nat) :
  forall s s',
    Learn_iterations E n s = Some s' ->
    hp s' = hp s
    /\ time_steps_ (rl s')
       = time_steps_ (rl s)
         + NumEnvs E * Z.max 0 (train_freq_ (hp s)) * Z.of_nat n
    /\ num_iters_ (rl s') = num_iters_ (rl s) + Z.of_nat n
    /\ num_updates_ (rl s')
       = num_updates_ (rl s) + gradient_steps_ (hp s) * Z.of_nat n.
Proof.
  induction n as [|n IH]; intros s s' H.
  - injection H as <-. repeat split; lia.
  - cbn [Learn_iterations] in H.
    destruct (Proceed s); [|discriminate H].
    destruct (Learn_iteration E s) as [s1|] eqn:H1; [|discriminate H].
    cbn [mbind option_bind] in H.
    apply Learn_iteration_counters in H1.
    destruct H1 as (Hhp1 & Hts1 & Hni1 & Hnu1 & _).
    apply IH in H. destruct H as (Hhp & Hts & Hni & Hnu).
    rewrite Hhp1 in Hhp, Hts, Hnu.
    repeat split; [congruence| | |]; nia.
Qed.

(** C3 (amended). After [N] iterations of the loop of [Learn],
    [time_steps_] is [NumEnvs() * max(train_freq_, 0) * N]: every
    iteration takes [train_freq_] policy actions (none when [train_freq_]
    is negative) and counts [NumEnvs()] for each; the warmup steps of the
    first iteration count nothing. *)
Theorem Learn_time_steps (E : Env) (n : nat)
    (max_time_steps monitor_interval checkpoint_interval : Int)
    (s s' : State) :
  Learn_iterations E n
    (Learn_begin max_time_steps monitor_interval checkpoint_interval s)
  = Some s' ->
  time_steps_ (rl s')
  = NumEnvs E * Z.max 0 (train_freq_ (hp s)) * Z.of_nat n.
Proof.
  intros H. apply Learn_iterations_counters in H.
  destruct H as (_ & Hts & _). rewrite Hts. simpl. lia.
Qed.

Lemma Learn_time_steps_witness :
  time_steps_
    (rl (default Stub.scenario
           (Learn_iterations Stub.env 1
              (Learn_begin 1 0 0 (Reset Stub.env Stub.scenario)))))
  = 1 * Z.max 0 1 * 1.
Proof.
  apply (Learn_time_steps Stub.env 1 1 0 0 (Reset Stub.env Stub.scenario)).
  vm_compute. reflexivity.
Defined.

(** C3 as stated fails for a negative [train_freq]: the loop of lines
    108-114 is not entered and [time_steps_] stays 0. *)
Lemma Learn_time_steps_negative_train_freq :
  exists s',
    Learn_iterations Stub.env 1
      (Learn_begin 1 0 0 (Reset Stub.env Stub.negative)) = Some s'
    /\ time_steps_ (rl s')
       <> NumEnvs Stub.env * train_freq_ (hp s') * Z.of_nat 1.
Proof.
  eexists. split; [vm_compute; reflexivity|].
  vm_compute. discriminate.
Qed.

(** *** The log *)

Lemma Learn_iteration_log (E : Env) (s s' : State) :
  Learn_iteration E s = Some s' ->
  (forall k, is_Some (log_items_ (rl s') !! k)
             <-> is_Some (log_items_ (rl s) !! k))
  /\ (is_Some (log_items_ (rl s) !! "ent_coef_loss") ->
      exists x, log_items_ (rl s') !! "ent_coef_loss" = Some (Some x))
  /\ exists rows,
      log_txt_ (world s') ++ console_ (world s')
      ≡ₚ (log_txt_ (world s) ++ console_ (world s)) ++ rows
      /\ registered_rows s rows.
Proof.
  intros H. apply Learn_iteration_inv in H.
  destruct H as (s1 & s2 & s3 & Hc & Ht & Hk & ->).
  apply CollectRollouts_stored in Hc.
  destruct Hc as ((Hrl1 & _ & _ & _ & _ & _ & _ & _ & _ & _ & _
                   & Hlog1 & Hcon1 & _) & _).
  pose proof (f_equal log_items_ Hrl1) as Hitems1. simpl in Hitems1.
  apply Train_spec in Ht.
  destruct Ht as (_ & (st & items & Hw & Hrl2) & _ & _ & _ & _
                  & Hlog2 & Hcon2 & _).
  apply write_log_items_spec in Hw. destruct Hw as (Hdom & Hval).
  apply Checkpoint_spec in Hk. destruct Hk as (Hrl3 & _ & _ & Hlog3 & Hcon3).
  destruct (Monitor_spec s2)
    as (Hrlm & _ & _ & _ & rows1 & rows2 & Hlogm & Hconm & Hrows).
  rewrite Hrlm in Hrl3.
  assert (Hitems : log_items_ (rl (Update s3)) = items).
  { simpl. rewrite Hrl3, Hrl2. reflexivity. }
  rewrite Hitems. rewrite <- Hitems1.
  split; [exact Hdom|]. split; [exact Hval|].
  exists (rows1 ++ rows2). split.
  - simpl. rewrite Hlog3, Hcon3, Hlogm, Hconm, Hlog2, Hcon2, Hlog1, Hcon1.
    rewrite <- !app_assoc. apply Permutation_app_head.
    rewrite !app_assoc. apply Permutation_app_tail, Permutation_app_comm.
  - unfold registered_rows. eapply Forall_impl; [|exact Hrows].
    intros row Hrow k Hk. simpl in Hrow. apply Hrow in Hk.
    rewrite Hrl2 in Hk. simpl in Hk. rewrite <- Hitems1. apply Hdom, Hk.
Qed.

Lemma Learn_iterations_log (E : Env) (n : nat) :
  forall s s',
    Learn_iterations E n s = Some s' ->
    (forall k, is_Some (log_items_ (rl s') !! k)
               <-> is_Some (log_items_ (rl s) !! k))
    /\ ((1 <= n)%nat -> is_Some (log_items_ (rl s) !! "ent_coef_loss") ->
        exists x, log_items_ (rl s') !! "ent_coef_loss" = Some (Some x))
    /\ exists rows,
        log_txt_ (world s') ++ console_ (world s')
        ≡ₚ (log_txt_ (world s) ++ console_ (world s)) ++ rows
        /\ registered_rows s rows.
Proof.
  induction n as [|n IH]; intros s s' H.
  - injection H as <-. split; [reflexivity|]. split; [lia|].
    exists []. rewrite app_nil_r. split; [reflexivity | constructor].
  - cbn [Learn_iterations] in H.
    destruct (Proceed s); [|discriminate H].
    destruct (Learn_iteration E s) as [s1|] eqn:H1; [|discriminate H].
    cbn [mbind option_bind] in H.
    apply Learn_iteration_log in H1.
    destruct H1 as (Hdom1 & Hval1 & rows1 & Hperm1 & Hrows1).
    pose proof H as Hrest.
    apply IH in H. destruct H as (Hdom & Hval & rows & Hperm & Hrows).
    split; [intros k; rewrite Hdom, Hdom1; reflexivity|]. split.
    + intros _ Hreg. destruct n as [|n].
      * injection Hrest as <-. exact (Hval1 Hreg).
      * apply Hval; [lia|]. apply Hdom1, Hreg.
    + exists (rows1 ++ rows). split.
      * rewrite Hperm, Hperm1, app_assoc. reflexivity.
      * unfold registered_rows in *. apply Forall_app. split; [exact Hrows1|].
        eapply Forall_impl; [|exact Hrows]. intros row Hrow k Hk.
        apply Hdom1, Hrow, Hk.
Qed.

Lemma Reset_log (E : Env) (s : State) :
  log_items_ (rl (Reset E s)) = log_items_ (rl (RegisterLogItems s))
  /\ console_ (world (Reset E s)) = console_ (world s)
  /\ log_txt_ (world (Reset E s))
     = if bool_decide (output_path_ (rl s) = "") then log_txt_ (world s)
       else [Header (column_names (log_items_ (rl (RegisterLogItems s))))].
Proof.
  rewrite Reset_unfold. repeat split; reflexivity.
Qed.

Lemma Learn_begin_log_items (a b c : Int) (s : State) :
  log_items_ (rl (Learn_begin a b c s)) = log_items_ (rl s).
Proof. reflexivity. Qed.




(** *** [Train] does not throw *)

Lemma present_Some {A : Type} (o : option A) :
  present o = true -> exists x, o = Some x.
Proof. destruct o as [x|]; [eauto | discriminate]. Qed.

Lemma train_frame_trainable (s s' : State) :
  train_frame s s' -> trainable s -> trainable s'.
Proof.
  intros (_ & Hhp & Hrb & Hect & _ & Hauto & _ & _ & _ & _
          & Ha & Hc & Hct & Hao & Hco) (Hbuf & ? & ? & ? & ? & ? & Hec & Hi).
  unfold trainable.
  rewrite Hhp, Hrb, Hect, Hauto, Ha, Hc, Hct, Hao, Hco. repeat split; auto.
Qed.

Lemma ent_coef_phase_total (E : Env) step lp s st :
  auto_mode s = true \/ present (ent_coef_tensor_ (nets s)) = true ->
  exists s1 st1 ec,
    ent_coef_phase E step lp s st = Some (s1, st1, ec)
    /\ stats_lengths st1
       = zip_with Nat.add (stats_lengths st)
           [1; 0; 0; if auto_mode s then 1 else 0; 0; 0]%nat.
Proof.
  unfold ent_coef_phase, auto_mode, stats_lengths. intros H.
  destruct (ent_coef_optimizer_ (nets s)) as [opt|];
    destruct (log_ent_coef_ (nets s)) as [lec|];
    try destruct (adam_step E opt _) as [opt' upd];
    try (destruct H as [H|H]; [discriminate H|];
         apply present_Some in H; destruct H as [ec ->]);
    eexists _, _, _; (split; [reflexivity|]); simpl;
    rewrite ?length_app; simpl; repeat f_equal; lia.
Qed.

Lemma critic_forward_stack (E : Env) (g : bool) (leaf : Leaf) critic obs act :
  well_behaved E ->
  is_Some (stack_min g (critic_forward E g leaf critic obs act)).
Proof.
  intros (_ & Hstack). unfold critic_forward.
  apply stack_min_total, Hstack.
Qed.

Lemma target_q_values_total (E : Env) gamma ec actor ct noise batch :
  well_behaved E ->
  is_Some (target_q_values E gamma ec actor ct noise batch).
Proof.
  intros HE. unfold target_q_values, actor_sample.
  destruct (PredictActionLogProb E actor noise _) as [na nlp].
  destruct (critic_forward_stack E false LCriticTarget ct
              (next_observation batch) (mkTensor na (track false [LActor])) HE)
    as [m Hm].
  rewrite Hm. eexists; reflexivity.
Qed.

Lemma critic_phase_total (E : Env) step batch target s st :
  well_behaved E ->
  present (critic_ (nets s)) = true ->
  present (critic_optimizer_ (nets s)) = true ->
  exists s2 st2,
    critic_phase E step batch target s st = Some (s2, st2)
    /\ stats_lengths st2
       = zip_with Nat.add (stats_lengths st) [0; 0; 1; 0; 1; 1]%nat.
Proof.
  intros HE Hc Ho. apply present_Some in Hc, Ho.
  destruct Hc as [critic Hc], Ho as [copt Ho].
  unfold critic_phase. rewrite Hc, Ho. cbn [mbind option_bind].
  destruct (critic_forward_stack E true LCritic critic (observation batch)
              (plain (action batch)) HE) as [m Hm].
  rewrite Hm. cbn [fmap option_fmap option_map mbind option_bind].
  destruct (adam_step E copt _) as [copt' upd].
  eexists _, _. split; [reflexivity|].
  unfold stats_lengths. simpl. rewrite ?length_app. simpl.
  repeat f_equal; lia.
Qed.

Lemma actor_phase_total (E : Env) step batch noise a lp ec s st :
  well_behaved E ->
  present (critic_ (nets s)) = true ->
  present (actor_ (nets s)) = true ->
  present (actor_optimizer_ (nets s)) = true ->
  exists s2 st2,
    actor_phase E step batch noise a lp ec s st = Some (s2, st2)
    /\ stats_lengths st2
       = zip_with Nat.add (stats_lengths st) [0; 1; 0; 0; 0; 0]%nat.
Proof.
  intros HE Hc Ha Ho. apply present_Some in Hc, Ha, Ho.
  destruct Hc as [critic Hc], Ha as [actor Ha], Ho as [aopt Ho].
  unfold actor_phase. rewrite Hc, Ha, Ho. cbn [mbind option_bind].
  destruct (critic_forward_stack E true LCritic critic (observation batch)
              a HE) as [m Hm].
  rewrite Hm. cbn [mbind option_bind].
  destruct (adam_step E aopt _) as [aopt' upd].
  eexists _, _. split; [reflexivity|].
  unfold stats_lengths. simpl. rewrite ?length_app. simpl.
  repeat f_equal; lia.
Qed.

Lemma polyak_phase_total (step : Int) (s : State) :
  target_update_interval_ (hp s) <> 0 ->
  present (critic_ (nets s)) = true ->
  present (critic_target_ (nets s)) = true ->
  is_Some (polyak_phase step s).
Proof.
  intros Hi Hc Ht. apply present_Some in Hc, Ht.
  destruct Hc as [critic Hc], Ht as [target Ht].
  unfold polyak_phase. rewrite Hc, Ht.
  repeat case_bool_decide; try contradiction; eexists; reflexivity.
Qed.

Lemma train_step_total (E : Env) (step : Int) (s : State) (st : Stats) :
  well_behaved E -> trainable s ->
  exists s' st',
    train_step E step (s, st) = Some (s', st')
    /\ stats_lengths st'
       = zip_with Nat.add (stats_lengths st)
           [1; 1; 1; if auto_mode s then 1 else 0; 1; 1]%nat.
Proof.
  intros HE ((rb & Hrb & Hne) & Ha & Hc & Hct & Hao & Hco & Hec & Hi).
  unfold train_step. rewrite Hrb. cbn [mbind option_bind].
  destruct (proj1 HE rb (batch_size_ (hp s)) (rng_ (world s)) Hne)
    as [batch Hb].
  rewrite Hb. cbn [mbind option_bind].
  destruct (present_Some _ Ha) as [actor Hactor].
  change (actor_ (nets (tick s))) with (actor_ (nets s)). rewrite Hactor.
  cbn [mbind option_bind].
  destruct (actor_sample E true actor _ _) as [actions_pi log_prob].
  destruct (ent_coef_phase_total E step log_prob (tick (tick s)) st Hec)
    as (s1 & st1 & ec & He & Hst1).
  rewrite He. cbn [mbind option_bind].
  pose proof (ent_coef_phase_frame _ _ _ _ _ _ _ _ He)
    as (_ & Hhp1 & _ & _ & _ & _ & _ & _ & _ & _
        & Ha1 & Hc1 & Hct1 & Hao1 & Hco1).
  simpl in Hhp1, Ha1, Hc1, Hct1, Hao1, Hco1.
  destruct (present_Some (critic_target_ (nets s1))) as [ct Hcts];
    [congruence|].
  rewrite Hcts. cbn [mbind option_bind].
  destruct (target_q_values_total E (gamma_ (hp s1)) ec actor ct
              (rng_ (world s1)) batch HE) as [t Ht].
  rewrite Ht. cbn [mbind option_bind].
  destruct (critic_phase_total E step batch t
              (emit (EvTargetQ step t) (tick s1)) st1 HE)
    as (s2 & st2 & Hcp & Hst2); [simpl; congruence | simpl; congruence|].
  rewrite Hcp. cbn [mbind option_bind].
  pose proof (critic_phase_frame _ _ _ _ _ _ _ _ Hcp)
    as (_ & Hhp2 & _ & _ & _ & _ & _ & _ & _ & _
        & Ha2 & Hc2 & Hct2 & Hao2 & Hco2).
  simpl in Hhp2, Ha2, Hc2, Hct2, Hao2, Hco2.
  destruct (actor_phase_total E step batch (S (rng_ (world s))) actions_pi
              log_prob ec s2 st2 HE)
    as (s3 & st3 & Hap & Hst3); [congruence | congruence | congruence|].
  change (rng_ (world (tick s))) with (S (rng_ (world s))).
  rewrite Hap. cbn [mbind option_bind].
  pose proof (actor_phase_frame _ _ _ _ _ _ _ _ _ _ _ Hap)
    as (_ & Hhp3 & _ & _ & _ & _ & _ & _ & _ & _
        & Ha3 & Hc3 & Hct3 & Hao3 & Hco3).
  destruct (polyak_phase_total step s3) as [s4 Hp];
    [congruence | congruence | congruence|].
  rewrite Hp. cbn [mbind option_bind].
  eexists _, _. split; [reflexivity|].
  rewrite Hst3, Hst2, Hst1.
  change (auto_mode (tick (tick s))) with (auto_mode s).
  unfold stats_lengths. simpl.
  destruct (auto_mode s); repeat (apply (f_equal2 cons); [lia|]); reflexivity.
Qed.

Lemma train_loop_total (E : Env) (n : nat) :
  forall (step : Int) (s : State) (st : Stats),
    well_behaved E -> trainable s ->
    exists s' st',
      train_loop E n step (s, st) = Some (s', st')
      /\ stats_lengths st'
         = zip_with Nat.add (stats_lengths st)
             [n; n; n; if auto_mode s then n else 0; n; n]%nat.
Proof.
  induction n as [|n IH]; intros step s st HE Hs.
  - exists s, st. split; [reflexivity|].
    unfold stats_lengths. simpl.
    destruct (auto_mode s); repeat (apply (f_equal2 cons); [lia|]);
      reflexivity.
  - destruct (train_step_total E step s st HE Hs) as (s1 & st1 & H1 & Hst1).
    pose proof (train_step_frame _ _ _ _ _ _ H1) as Hframe.
    destruct (IH (step + 1) s1 st1 HE (train_frame_trainable _ _ Hframe Hs))
      as (s' & st' & H & Hst).
    exists s', st'. rewrite train_loop_S, H1. split; [exact H|].
    rewrite Hst, Hst1.
    destruct Hframe as (_ & _ & _ & _ & _ & -> & _).
    unfold stats_lengths. simpl.
    destruct (auto_mode s); repeat (apply (f_equal2 cons); [lia|]);
      reflexivity.
Qed.

Lemma stack_mean_total (ts : list Tensor) :
  (1 <= length ts)%nat -> is_Some (stack_mean ts).
Proof. destruct ts; simpl; [lia | eexists; reflexivity]. Qed.

Lemma set_log_item_total (key : string) (value : option Qc)
    (items : gmap string (option Qc)) :
  (is_Some (items !! key) -> is_Some value) ->
  is_Some (set_log_item key value items).
Proof.
  unfold set_log_item. intros H.
  destruct (items !! key) as [old|]; [|eexists; reflexivity].
  destruct H as [v ->]; [eauto|]. eexists; reflexivity.
Qed.

Lemma write_log_items_total (num_updates : Int) (st : Stats)
    (items : gmap string (option Qc)) :
  (1 <= length (ent_coef_list st))%nat ->
  (1 <= length (actor_loss_list st))%nat ->
  (1 <= length (critic_loss_list st))%nat ->
  (is_Some (items !! "ent_coef_loss") ->
   (1 <= length (ent_coef_loss_list st))%nat) ->
  (1 <= length (q_value_list st))%nat ->
  (1 <= length (reward_list st))%nat ->
  is_Some (write_log_items num_updates st items).
Proof.
  intros H1 H2 H3 H4 H5 H6. unfold write_log_items.
  case_bool_decide; [eexists; reflexivity|].
  destruct (set_log_item_total "num_updates" (Some (Qc_of_Z num_updates))
              items) as [i1 Hi1]; [eauto|].
  rewrite Hi1. cbn [mbind option_bind].
  destruct (set_log_item_total "ent_coef" (stack_mean (ent_coef_list st)) i1)
    as [i2 Hi2]; [intros _; apply stack_mean_total, H1|].
  rewrite Hi2. cbn [mbind option_bind].
  destruct (set_log_item_total "actor_loss"
              (stack_mean (actor_loss_list st)) i2)
    as [i3 Hi3]; [intros _; apply stack_mean_total, H2|].
  rewrite Hi3. cbn [mbind option_bind].
  destruct (set_log_item_total "critic_loss"
              (stack_mean (critic_loss_list st)) i3)
    as [i4 Hi4]; [intros _; apply stack_mean_total, H3|].
  rewrite Hi4. cbn [mbind option_bind].
  apply set_log_item_spec in Hi1, Hi2, Hi3, Hi4.
  destruct Hi1 as (D1 & _), Hi2 as (D2 & _), Hi3 as (D3 & _),
           Hi4 as (D4 & _).
  destruct (set_log_item_total "ent_coef_loss"
              (stack_mean (ent_coef_loss_list st)) i4)
    as [i5 Hi5].
  { intros Hreg. apply stack_mean_total, H4.
    rewrite D4, D3, D2, D1 in Hreg. exact Hreg. }
  rewrite Hi5. cbn [mbind option_bind].
  destruct (set_log_item_total "q_value" (stack_mean (q_value_list st)) i5)
    as [i6 Hi6]; [intros _; apply stack_mean_total, H5|].
  rewrite Hi6. cbn [mbind option_bind].
  apply set_log_item_total. intros _. apply stack_mean_total, H6.
Qed.

(** [Train] returns when the collaborators behave, the pointers are set,
    the buffer holds a transition, at least one gradient step is asked
    for, and the item ["ent_coef_loss"] is registered only in auto mode. *)
Lemma Train_total (E : Env) (s : State) :
  well_behaved E -> trainable s ->
  1 <= gradient_steps_ (hp s) ->
  (is_Some (log_items_ (rl s) !! "ent_coef_loss") -> auto_mode s = true) ->
  is_Some (Train E s).
Proof.
  intros HE Hs Hg Hreg.
  pose proof Hs as (_ & Ha & Hc & _).
  destruct (present_Some _ Ha) as [actor Hactor].
  destruct (present_Some _ Hc) as [critic Hcritic].
  unfold Train. rewrite Hactor, Hcritic. cbn [mbind option_bind].
  set (s0 := upd_nets _ s).
  assert (Hs0 : trainable s0).
  { destruct Hs as (Hbuf & _ & _ & Hct & Hao & Hco & Hec & Hi).
    unfold trainable, auto_mode in *. simpl. repeat split; assumption. }
  destruct (train_loop_total E (Z.to_nat (gradient_steps_ (hp s0))) 0 s0
              no_stats HE Hs0) as (s1 & st1 & Hloop & Hst).
  rewrite Hloop. cbn [mbind option_bind].
  pose proof (train_loop_frame _ _ _ _ _ _ _ Hloop) as (Hrl & Hhp & _).
  injection Hst as L1 L2 L3 L4 L5 L6. simpl in L1, L2, L3, L4, L5, L6.
  change (hp s0) with (hp s) in *. change (rl s0) with (rl s) in *.
  change (auto_mode s0) with (auto_mode s) in L4.
  destruct (write_log_items_total
              (num_updates_ (rl s1) + gradient_steps_ (hp s1)) st1
              (log_items_ (rl s1))) as [items Hw]; try lia.
  { rewrite Hrl. intros Hk. rewrite (Hreg Hk) in L4. lia. }
  cbn [rl upd_rl hp num_updates_ set_num_updates_ log_items_].
  rewrite Hw. eexists; reflexivity.
Qed.

(** *** The state after [Reset] *)

Lemma Reset_state (E : Env) (s : State) :
  replay_buffer_ (nets (Reset E s)) = Some (MakeReplayBuffer E)
  /\ present (actor_ (nets (Reset E s))) = true
  /\ present (critic_ (nets (Reset E s))) = true
  /\ present (critic_target_ (nets (Reset E s))) = true
  /\ present (actor_optimizer_ (nets (Reset E s))) = true
  /\ present (critic_optimizer_ (nets (Reset E s))) = true
  /\ present (observation_ (nets (Reset E s))) = true
  /\ num_iters_ (rl (Reset E s)) = 0
  /\ time_steps_ (rl (Reset E s)) = 0
  /\ num_updates_ (rl (Reset E s)) = 0
  /\ set_target_entropy_ (qc 0 1) (hp (Reset E s))
     = set_target_entropy_ (qc 0 1) (hp s)
  /\ (if auto_ent_coef_ (hp s)
      then auto_mode (Reset E s) = true
      else present (ent_coef_tensor_ (nets (Reset E s))) = true
           /\ auto_mode (Reset E s) = auto_mode s).
Proof.
  rewrite Reset_unfold. unfold auto_mode.
  cbn [rl hp nets replay_buffer_ actor_ critic_ critic_target_
       actor_optimizer_ critic_optimizer_ ent_coef_optimizer_ log_ent_coef_
       ent_coef_tensor_ observation_ num_iters_ time_steps_ num_updates_
       present].
  repeat split; try reflexivity.
  - destruct (auto_ent_coef_ (hp s)), (auto_target_entropy_ (hp s));
      reflexivity.
  - destruct (auto_ent_coef_ (hp s)); [reflexivity|]. split; reflexivity.
Qed.

(** *** [CollectRollouts] does not fail *)

Lemma present_fmap {A B : Type} (f : A -> B) (o o' : option A) :
  f <$> o' = f <$> o -> present o' = present o.
Proof. destruct o, o'; simpl; intros H; try discriminate H; reflexivity. Qed.

Lemma present_is_Some {A : Type} (o : option A) :
  present o = true <-> is_Some o.
Proof.
  destruct o; simpl; split; intros H; eauto; try discriminate H.
  destruct H as [x H]. discriminate H.
Qed.

Lemma stored_collectable (k : nat) (dt : Z) (s s' : State) :
  stored k dt s s' -> collectable s -> collectable s'.
Proof.
  intros (Hf & _ & Ho & Hb) (Ha & Hrb & Hobs).
  destruct Hf as (_ & _ & _ & _ & _ & _ & _ & _ & Hpa & _).
  unfold collectable. rewrite (present_fmap _ _ _ Hpa). split; [exact Ha|].
  split.
  - destruct (replay_buffer_ (nets s)); [|discriminate Hrb].
    destruct (replay_buffer_ (nets s')); [reflexivity | discriminate Hb].
  - apply present_is_Some, Ho, present_is_Some, Hobs.
Qed.

Lemma warmup_body_total (E : Env) (s : State) :
  collectable s -> is_Some (warmup_body E s).
Proof.
  intros (_ & Hrb & Hobs). unfold warmup_body.
  apply step_and_store_total; apply present_is_Some; assumption.
Qed.

Lemma rollout_body_total (E : Env) (s : State) :
  collectable s -> is_Some (rollout_body E s).
Proof.
  intros (Ha & Hrb & Hobs). unfold rollout_body.
  destruct (present_Some _ Ha) as [actor ->].
  destruct (present_Some _ Hobs) as [obs Hobs'].
  rewrite Hobs'. cbn [mbind option_bind].
  destruct (step_and_store_total E (PredictAction E actor (rng_ (world s)) obs)
              (tick s)) as [s1 H1].
  - apply present_is_Some. exact Hrb.
  - apply present_is_Some. exact Hobs.
  - rewrite H1. eexists; reflexivity.
Qed.

Lemma repeat_opt_total (body : State -> option State) (dt : Z) :
  (forall s, collectable s -> is_Some (body s)) ->
  (forall s s', body s = Some s' -> stored 1 dt s s') ->
  forall (n : nat) (s : State),
    collectable s -> is_Some (repeat_opt n body s).
Proof.
  intros Htotal Hstored. induction n as [|n IH]; intros s Hs; simpl.
  - eexists; reflexivity.
  - destruct (Htotal s Hs) as [s1 H1]. rewrite H1. simpl.
    apply IH. eapply stored_collectable; [apply Hstored, H1 | exact Hs].
Qed.

Lemma CollectRollouts_total (E : Env) (s : State) :
  collectable s -> present (critic_ (nets s)) = true ->
  is_Some (CollectRollouts E s).
Proof.
  intros Hs Hc. pose proof Hs as (Ha & Hrb & Hobs).
  destruct (present_Some _ Ha) as [actor Hactor].
  destruct (present_Some _ Hc) as [critic Hcritic].
  unfold CollectRollouts. rewrite Hactor, Hcritic. cbn [mbind option_bind].
  set (s0 := upd_nets _ s).
  assert (Hs0 : collectable s0) by (unfold collectable; simpl; auto).
  change (num_iters_ (rl s0)) with (num_iters_ (rl s)).
  change (hp s0) with (hp s).
  case_bool_decide as Hni.
  - destruct (repeat_opt_total _ 0 (warmup_body_total E)
                (warmup_body_stored E) (Z.to_nat (learning_starts_ (hp s)))
                s0 Hs0) as [s1 H1].
    rewrite H1. cbn [mbind option_bind].
    apply (repeat_opt_total _ _ (rollout_body_total E)
             (rollout_body_stored E)).
    eapply stored_collectable; [|exact Hs0].
    apply (repeat_opt_stored _ 0 (warmup_body_stored E)), H1.
  - cbn [mbind option_bind].
    apply (repeat_opt_total _ _ (rollout_body_total E)
             (rollout_body_stored E)), Hs0.
Qed.

Lemma critic_phase_critic (E : Env) step batch target s st s2 st2 :
  critic_phase E step batch target s st = Some (s2, st2) ->
  exists c c',
    critic_ (nets s) = Some c
    /\ critic_ (nets s2) = Some c'
    /\ length (params c') = length (params c)
    /\ buffers c' = buffers c.
Proof.
  unfold critic_phase. intros H.
  destruct (critic_ (nets s)) as [c|] eqn:Hc; [|discriminate H].
  simplify_option_eq.
  destruct (adam_step E _ _) as [opt' upd]. simplify_eq.
  eexists _, _. split; [reflexivity|]. split; [reflexivity|].
  simpl. unfold update_in_place. rewrite length_imap. split; reflexivity.
Qed.

(** A gradient step keeps the shape of the critic. *)
Lemma train_step_critic_shape (E : Env) step s st s' st' :
  train_step E step (s, st) = Some (s', st') ->
  exists c c',
    critic_ (nets s) = Some c
    /\ critic_ (nets s') = Some c'
    /\ length (params c') = length (params c)
    /\ buffers c' = buffers c.
Proof.
  intros H. apply train_step_inv in H.
  destruct H as (rb & batch & actor & s1 & st1 & ec & ct & tq & s2 & st2 & s3
                 & _ & _ & _ & He & _ & _ & Hc & Ha & Hp).
  apply ent_coef_phase_trace in He. destruct He as (_ & _ & _ & Hc1 & _).
  apply critic_phase_critic in Hc.
  destruct Hc as (c & c' & Hc0 & Hc2 & Hlen & Hbuf).
  apply actor_phase_trace in Ha. destruct Ha as (al & _ & _ & Hc3 & _).
  apply polyak_phase_spec in Hp. destruct Hp as (_ & _ & Hc4 & _).
  simpl in Hc0, Hc1. exists c, c'.
  split; [congruence|]. split; [congruence|]. split; assumption.
Qed.

(** With [tau = 1] a gradient step that updates the target leaves it
    with the parameters of the critic. *)
Lemma train_step_hard_sync (E : Env) step s st s' st' (c t : Module) :
  train_step E step (s, st) = Some (s', st') ->
  Z.rem step (target_update_interval_ (hp s)) = 0 ->
  tau_ (hp s) = 1%Qc ->
  critic_ (nets s) = Some c ->
  critic_target_ (nets s) = Some t ->
  length (params t) = length (params c) ->
  exists c' t',
    critic_ (nets s') = Some c'
    /\ critic_target_ (nets s') = Some t'
    /\ params t' = params c'.
Proof.
  intros H Hrem Htau Hc Ht Hlen.
  pose proof (train_step_critic_shape _ _ _ _ _ _ H)
    as (c0 & c' & Hc0 & Hc' & Hlen' & _).
  assert (c0 = c) as -> by congruence.
  apply train_step_target_update in H.
  destruct H as (c1 & t1 & Hc1 & Ht1 & Ht').
  assert (c1 = c') as -> by congruence.
  assert (t1 = t) as -> by congruence.
  rewrite bool_decide_eq_true_2 in Ht' by exact Hrem.
  eexists _, _. split; [exact Hc'|]. split; [exact Ht'|].
  simpl. rewrite Htau. apply PolyakUpdate_tau_1. lia.
Qed.

(** [Reset] changes no hyperparameter but the target entropy. *)
Lemma Reset_hparams (E : Env) (s : State) :
  learning_starts_ (hp (Reset E s)) = learning_starts_ (hp s)
  /\ batch_size_ (hp (Reset E s)) = batch_size_ (hp s)
  /\ lr_ (hp (Reset E s)) = lr_ (hp s)
  /\ tau_ (hp (Reset E s)) = tau_ (hp s)
  /\ gamma_ (hp (Reset E s)) = gamma_ (hp s)
  /\ ent_coef_ (hp (Reset E s)) = ent_coef_ (hp s)
  /\ auto_ent_coef_ (hp (Reset E s)) = auto_ent_coef_ (hp s)
  /\ auto_target_entropy_ (hp (Reset E s)) = auto_target_entropy_ (hp s)
  /\ train_freq_ (hp (Reset E s)) = train_freq_ (hp s)
  /\ gradient_steps_ (hp (Reset E s)) = gradient_steps_ (hp s)
  /\ target_update_interval_ (hp (Reset E s))
     = target_update_interval_ (hp s).
Proof.
  rewrite Reset_unfold. cbn [hp].
  destruct (auto_ent_coef_ (hp s) && auto_target_entropy_ (hp s));
    repeat split; reflexivity.
Qed.

(** One iteration of [Learn] from a state as [Reset] leaves it, in the
    configuration of the end-to-end scenario. *)
Lemma first_iteration (E : Env) (sr : State) (c0 t0 : Module) (fuel : nat) :
  well_behaved E ->
  NumEnvs E = 1 ->
  (11 <= buffer_capacity E)%nat ->
  replay_buffer_ (nets sr) = Some (MakeReplayBuffer E) ->
  present (actor_ (nets sr)) = true ->
  present (critic_ (nets sr)) = true ->
  present (critic_target_ (nets sr)) = true ->
  present (actor_optimizer_ (nets sr)) = true ->
  present (critic_optimizer_ (nets sr)) = true ->
  present (observation_ (nets sr)) = true ->
  num_iters_ (rl sr) = 0 ->
  num_updates_ (rl sr) = 0 ->
  critic_ (nets sr) = Some c0 ->
  critic_target_ (nets sr) = Some t0 ->
  params t0 = params c0 ->
  learning_starts_ (hp sr) = 10 ->
  train_freq_ (hp sr) = 1 ->
  gradient_steps_ (hp sr) = 1 ->
  target_update_interval_ (hp sr) = 1 ->
  tau_ (hp sr) = 1%Qc ->
  (is_Some (log_items_ (rl sr) !! "ent_coef_loss") -> auto_mode sr = true) ->
  auto_mode sr = true \/ present (ent_coef_tensor_ (nets sr)) = true ->
  exists s' rb c t,
    Learn_loop E (S fuel) (Learn_begin 1 0 0 sr) = Returned s'
    /\ num_iters_ (rl s') = 1
    /\ replay_buffer_ (nets s') = Some rb
    /\ length (storage rb) = 11%nat
    /\ num_updates_ (rl s') = 1
    /\ time_steps_ (rl s') = 1
    /\ critic_ (nets s') = Some c
    /\ critic_target_ (nets s') = Some t
    /\ params t = params c.
Proof.
  intros HE Henvs Hcap Hrb Ha Hc Hct Hao Hco Hobs Hni Hnu Hcr Htr Hshape
         Hls Htf Hgs Hui Htau Hreg Hec.
  set (sb := Learn_begin 1 0 0 sr).
  (* CollectRollouts *)
  destruct (CollectRollouts_total E sb) as [s1 H1].
  { unfold collectable. subst sb. simpl. rewrite Hrb. auto. }
  { exact Hc. }
  pose proof (CollectRollouts_stored _ _ _ H1) as (Hf1 & Hts1 & _ & Hbuf1).
  change (num_iters_ (rl sb)) with (num_iters_ (rl sr)) in Hbuf1.
  change (hp sb) with (hp sr) in Hbuf1, Hts1.
  change (nets sb) with (nets sr) in Hbuf1.
  rewrite Hni, Hls, Htf, Hrb in Hbuf1. simpl in Hbuf1.
  rewrite Htf, Henvs in Hts1. simpl in Hts1.
  destruct (replay_buffer_ (nets s1)) as [rb1|] eqn:Hrb1; [|discriminate Hbuf1].
  injection Hbuf1 as Hcap1 Hlen1.
  rewrite Nat.min_r in Hlen1 by exact Hcap.
  destruct Hf1 as (Hrl1 & Hhp1 & Hct1 & Hao1 & Hco1 & Heo1 & Hle1 & Het1
                   & Hpa1 & Hpc1 & Hbc1 & _).
  change (nets sb) with (nets sr) in *. change (hp sb) with (hp sr) in *.
  assert (Hmode1 : auto_mode s1 = auto_mode sr).
  { unfold auto_mode. rewrite Heo1, Hle1. reflexivity. }
  assert (Htrain : trainable s1).
  { unfold trainable. rewrite Hrb1, Hct1, Hao1, Hco1, Het1, Hmode1, Hhp1, Hui.
    rewrite (present_fmap _ _ _ Hpa1), (present_fmap _ _ _ Hpc1).
    repeat split; try assumption; try discriminate.
    exists rb1. split; [reflexivity|]. intros Hnil. rewrite Hnil in Hlen1.
    discriminate Hlen1. }
  (* Train *)
  destruct (Train_total E s1 HE Htrain) as [s2 H2].
  { rewrite Hhp1, Hgs. lia. }
  { pose proof (f_equal log_items_ Hrl1) as Hit. simpl in Hit.
    rewrite Hit, Hmode1. exact Hreg. }
  pose proof (Train_spec _ _ _ H2)
    as (Hhp2 & (st & items & _ & Hrl2) & Hrb2 & _).
  pose proof (f_equal num_updates_ Hrl1) as Hnu1.
  pose proof (f_equal num_iters_ Hrl1) as Hni1.
  pose proof (f_equal max_time_steps_ Hrl1) as Hmt1.
  pose proof (f_equal monitor_interval_ Hrl1) as Hmi1.
  pose proof (f_equal checkpoint_interval_ Hrl1) as Hci1.
  simpl in Hnu1, Hni1, Hmt1, Hmi1, Hci1.
  (* the target after the gradient step *)
  assert (Hsync : exists c t, critic_ (nets s2) = Some c
                    /\ critic_target_ (nets s2) = Some t
                    /\ params t = params c).
  { apply Train_inv in H2.
    destruct H2 as (actor & critic & s1' & st1 & items' & Hactor & Hcritic
                    & Hloop & _ & ->).
    rewrite Hhp1, Hgs in Hloop. change (Z.to_nat 1) with 1%nat in Hloop.
    apply train_loop_S_inv in Hloop.
    destruct Hloop as (s1'' & st1' & Hstep & Hrest).
    injection Hrest as <- <-.
    rewrite Hcritic in Hpc1. rewrite Hcr in Hpc1. simpl in Hpc1.
    injection Hpc1 as Hpc1.
    destruct (train_step_hard_sync _ _ _ _ _ _ (set_training true critic) t0
                Hstep) as (c' & t' & Hc' & Ht' & Heq).
    - simpl. rewrite Hhp1, Hui. reflexivity.
    - simpl. rewrite Hhp1. exact Htau.
    - reflexivity.
    - simpl. rewrite Hct1. exact Htr.
    - simpl. rewrite Hpc1, Hshape. reflexivity.
    - exists c', t'. simpl. auto. }
  destruct Hsync as (c & t & Hc2 & Ht2 & Heq).
  (* Monitor, Checkpoint, Update *)
  assert (Hmon : Monitor s2 = s2).
  { unfold Monitor. rewrite Hrl2. simpl. rewrite Hmi1. reflexivity. }
  assert (Hck : Checkpoint E s2 = Some s2).
  { unfold Checkpoint. rewrite Hrl2. simpl. rewrite Hci1. reflexivity. }
  assert (Hiter : Learn_iteration E sb = Some (Update s2)).
  { unfold Learn_iteration. rewrite H1. cbn [mbind option_bind].
    rewrite H2. cbn [mbind option_bind]. rewrite Hmon, Hck. reflexivity. }
  assert (Hts2 : time_steps_ (rl (Update s2)) = 1).
  { simpl. rewrite Hrl2. simpl. rewrite Hts1. reflexivity. }
  exists (Update s2), rb1, c, t. split.
  { fold sb. cbn [Learn_loop].
    assert (Hp : Proceed sb = true) by reflexivity.
    rewrite Hp, Hiter.
    assert (Hp' : Proceed (Update s2) = false).
    { unfold Proceed. rewrite Hts2. simpl. rewrite Hrl2. simpl.
      rewrite Hmt1. reflexivity. }
    destruct fuel; cbn [Learn_loop]; rewrite Hp'; reflexivity. }
  split; [simpl; rewrite Hrl2; simpl; rewrite Hni1; simpl;
          rewrite Hni; reflexivity|].
  split; [simpl; rewrite Hrb2; exact Hrb1|].
  split; [exact Hlen1|].
  split; [simpl; rewrite Hrl2; simpl; rewrite Hnu1, Hhp1, Hgs; simpl;
          rewrite Hnu; reflexivity|].
  split; [exact Hts2|].
  split; [exact Hc2|]. split; [exact Ht2 | exact Heq].
Qed.

(** C4. The end-to-end scenario: [learning_starts = 10], [batch_size = 4],
    [train_freq = 1], [gradient_steps = 1], [target_update_interval = 1],
    [tau = 1], one environment, collaborators that do not throw and a
    buffer with room for the 11 transitions. [Reset] followed by [Learn]
    with a budget of one time step makes one iteration and returns with 11
    transitions in the buffer, [num_updates_ = 1], [time_steps_ = 1] and
    the critic target holding the critic's parameters. *)
Theorem end_to_end_scenario (E : Env) (lr gamma ent_coef : double)
    (auto_ent_coef : bool) (target_entropy : option double)
    (output_path : string) (ind : Indeterminate) (fuel : nat) :
  well_behaved E ->
  NumEnvs E = 1 ->
  (11 <= buffer_capacity E)%nat ->
  exists s' rb c t,
    Learn E (S fuel) 1 0 0
      (Reset E (SAC_new 10 4 lr 1%Qc gamma ent_coef auto_ent_coef
                  target_entropy 1 1 1 output_path ind))
    = Returned s'
    /\ num_iters_ (rl s') = 1
    /\ replay_buffer_ (nets s') = Some rb
    /\ length (storage rb) = 11%nat
    /\ num_updates_ (rl s') = 1
    /\ time_steps_ (rl s') = 1
    /\ critic_ (nets s') = Some c
    /\ critic_target_ (nets s') = Some t
    /\ params t = params c.
Proof.
  intros HE Henvs Hcap.
  set (s0 := SAC_new 10 4 lr 1%Qc gamma ent_coef auto_ent_coef
               target_entropy 1 1 1 output_path ind).
  destruct (Reset_state E s0)
    as (Hrb & Ha & Hc & Hct & Hao & Hco & Hobs & Hni & Hts & Hnu & _ & Hmode).
  destruct (Reset_hparams E s0)
    as (Hls & _ & _ & Htau & _ & _ & _ & _ & Htf & Hgs & Hui).
  destruct (Reset_critic_target E s0) as (Hcr & Htr).
  destruct (Reset_log E s0) as (Hitems & _).
  assert (Hitems0 : log_items_ (rl (RegisterLogItems s0)) !! "ent_coef_loss"
                    = if auto_ent_coef then Some None else None).
  { subst s0. destruct auto_ent_coef; reflexivity. }
  assert (Hauto0 : auto_ent_coef_ (hp s0) = auto_ent_coef) by reflexivity.
  rewrite Hauto0 in Hmode.
  change (learning_starts_ (hp s0)) with 10 in Hls.
  change (train_freq_ (hp s0)) with 1 in Htf.
  change (gradient_steps_ (hp s0)) with 1 in Hgs.
  change (target_update_interval_ (hp s0)) with 1 in Hui.
  change (tau_ (hp s0)) with 1%Qc in Htau.
  change (auto_mode s0) with false in Hmode.
  unfold Learn. fold s0.
  generalize dependent (Reset E s0). intros sr.
  intros Hrb Ha Hc Hct Hao Hco Hobs Hni Hts Hnu Hmode Hls Htau Htf Hgs Hui
         Hcr Htr Hitems.
  eapply (first_iteration E sr _ _ fuel HE Henvs Hcap Hrb Ha Hc Hct
            Hao Hco Hobs Hni Hnu Hcr Htr); try assumption.
  - reflexivity.
  - rewrite Hitems, Hitems0. destruct auto_ent_coef.
    + intros _. exact Hmode.
    + intros [x Hx]. discriminate Hx.
  - destruct auto_ent_coef; [left|right];
      [exact Hmode | exact (proj1 Hmode)].
Qed.
Lemma Stub_well_behaved : well_behaved Stub.env.
Proof.
  split.
  - intros rb n r Hne. simpl. unfold Stub.sample.
    destruct (storage rb); [contradiction | eexists; reflexivity].
  - intros m obs act. simpl. rewrite !length_map, Nat.eqb_refl. reflexivity.
Qed.

Lemma end_to_end_scenario_witness :
  exists s' rb,
    Learn Stub.env 1 1 0 0 (Reset Stub.env Stub.scenario) = Returned s'
    /\ replay_buffer_ (nets s') = Some rb
    /\ length (storage rb) = 11%nat
    /\ num_updates_ (rl s') = 1
    /\ time_steps_ (rl s') = 1.
Proof.
  destruct (end_to_end_scenario Stub.env (qc 3 10000) (qc 99 100) (qc 1 1)
              true None "" Stub.ind 0 Stub_well_behaved)
    as (s' & rb & c & t & H & _ & Hrb & Hlen & Hnu & Hts & _).
  - reflexivity.
  - simpl. lia.
  - exists s', rb. repeat split; assumption.
Defined.

(** *** The target entropy *)

Lemma Qc_of_Z_mul (a b : Z) :
  Qc_of_Z (a * b) = (Qc_of_Z a * Qc_of_Z b)%Qc.
Proof.
  unfold Qc_of_Z. apply Qc_is_canon. simpl.
  rewrite !Qred_correct. unfold inject_Z, Qmult. simpl. reflexivity.
Qed.

Lemma default_target_entropy_fold (sizes : list Int) :
  forall acc : Z,
    foldl (fun te size => (te * Qc_of_Z size)%Qc) (- Qc_of_Z acc)%Qc sizes
    = (- Qc_of_Z (acc * foldr Z.mul 1 sizes)%Z)%Qc.
Proof.
  induction sizes as [|x sizes IH]; intros acc; simpl.
  - rewrite Z.mul_1_r. reflexivity.
  - replace (- Qc_of_Z acc * Qc_of_Z x)%Qc with (- Qc_of_Z (acc * x))%Qc
      by (rewrite Qc_of_Z_mul; ring).
    rewrite IH. do 2 f_equal. ring.
Qed.

(** The loop of lines 75-78 computes the spec's [-prod(action_shape)]. *)
Lemma default_target_entropy_neg_prod (sizes : list Int) :
  default_target_entropy sizes = neg_prod sizes.
Proof.
  unfold default_target_entropy, neg_prod.
  change (- qc 1 1)%Qc with (- Qc_of_Z 1)%Qc.
  rewrite default_target_entropy_fold. do 2 f_equal.
  destruct (foldr Z.mul 1 sizes); reflexivity.
Qed.

Lemma Reset_target_entropy (E : Env) (s : State) :
  target_entropy_ (hp (Reset E s))
  = if auto_ent_coef_ (hp s) && auto_target_entropy_ (hp s)
    then default_target_entropy (buffer_action_sizes E)
    else target_entropy_ (hp s).
Proof.
  rewrite Reset_unfold. cbn [hp].
  destruct (auto_ent_coef_ (hp s) && auto_target_entropy_ (hp s));
    reflexivity.
Qed.

(** C6 (amended). A target entropy supplied at construction is stored by
    the constructor, and [Reset] keeps the stored value when
    [auto_ent_coef_] is false or [auto_target_entropy_] is false. When
    none is supplied the constructor sets [auto_target_entropy_], and
    every [Reset] with [auto_ent_coef_] and [auto_target_entropy_] set
    makes the target entropy [-prod(action sizes)]. *)
Theorem target_entropy_rule (E : Env)
    (learning_starts batch_size : Int) (lr tau gamma ent_coef : double)
    (auto_ent_coef : bool) (target_entropy : option double)
    (train_freq gradient_steps target_update_interval : Int)
    (output_path : string) (ind : Indeterminate) (s : State) :
  let s0 := SAC_new learning_starts batch_size lr tau gamma ent_coef
              auto_ent_coef target_entropy train_freq gradient_steps
              target_update_interval output_path ind in
  (forall te, target_entropy = Some te -> target_entropy_ (hp s0) = te)
  /\ (target_entropy = None -> auto_target_entropy_ (hp s0) = true)
  /\ (auto_ent_coef_ (hp s) = true -> auto_target_entropy_ (hp s) = true ->
      target_entropy_ (hp (Reset E s)) = neg_prod (buffer_action_sizes E))
  /\ (auto_ent_coef_ (hp s) = false \/ auto_target_entropy_ (hp s) = false ->
      target_entropy_ (hp (Reset E s)) = target_entropy_ (hp s)).
Proof.
  intros s0. split; [|split; [|split]].
  - intros te ->. reflexivity.
  - intros ->. reflexivity.
  - intros Ha Ht. rewrite Reset_target_entropy, Ha, Ht. simpl.
    apply default_target_entropy_neg_prod.
  - intros H. rewrite Reset_target_entropy.
    destruct H as [-> | ->]; [reflexivity|].
    rewrite andb_false_r. reflexivity.
Qed.

Lemma target_entropy_rule_witness :
  target_entropy_ (hp (Reset Stub.env Stub.scenario)) = neg_prod [1]
  /\ target_entropy_
       (hp (Reset Stub.env
              (SAC_new 10 4 (qc 3 10000) (qc 1 1) (qc 99 100) (qc 1 1) false
                 (Some (qc (-3) 1)) 1 1 1 "" Stub.ind)))
     = qc (-3) 1.
Proof.
  split.
  - apply (target_entropy_rule Stub.env 10 4 (qc 3 10000) (qc 1 1)
             (qc 99 100) (qc 1 1) true None 1 1 1 "" Stub.ind Stub.scenario);
      reflexivity.
  - etransitivity.
    + apply (target_entropy_rule Stub.env 10 4 (qc 3 10000) (qc 1 1)
               (qc 99 100) (qc 1 1) false (Some (qc (-3) 1)) 1 1 1 ""
               Stub.ind). left. reflexivity.
    + reflexivity.
Defined.

(** C6 as stated fails in fixed entropy mode: no target entropy is derived
    when none is supplied; the member keeps the value it happened to
    hold. *)
Lemma target_entropy_not_derived_in_fixed_mode :
  target_entropy_
    (hp (Reset Stub.env
           (SAC_new 10 4 (qc 3 10000) (qc 1 1) (qc 99 100) (qc 1 1) false
              None 1 1 1 "" Stub.ind)))
  <> neg_prod (buffer_action_sizes Stub.env).
Proof.
  vm_compute. intros H. discriminate H.
Qed.

(** The constructor leaves [auto_target_entropy_] without a value when a
    target entropy is supplied; if the member happens to hold [true], the
    [Reset] of auto mode replaces the supplied value. *)
Lemma supplied_target_entropy_overwritten :
  target_entropy_
    (hp (Reset Stub.env
           (SAC_new 10 4 (qc 3 10000) (qc 1 1) (qc 99 100) (qc 1 1) true
              (Some (qc (-3) 1)) 1 1 1 "" (mkIndeterminate (qc 0 1) true))))
  = qc (-1) 1.
Proof. vm_compute. reflexivity. Qed.

(** *** Archives *)





Lemma SaveArchive_hparams (names : gset string) (s : State)
    (a0 a : gmap string Entry) :
  requested names "hparams" = true ->
  SaveArchive names s a0 = Some a ->
  Forall (fun kv => a !! kv.1 = Some kv.2) (hparams_entries (hp s)).
Proof.
  intros Hreq. unfold SaveArchive. rewrite Hreq. intros H.
  destruct (save_section names "actor" _ _ a0) as [a1|]; [|discriminate H].
  cbn [mbind option_bind] in H.
  destruct (save_section names "critic" _ _ a1) as [a2|]; [|discriminate H].
  cbn [mbind option_bind] in H.
  destruct (save_section names "critic_target" _ _ a2) as [a3|];
    [|discriminate H].
  cbn [mbind option_bind] in H.
  destruct (save_section names "actor_optimizer" _ _ a3) as [a4|];
    [|discriminate H].
  cbn [mbind option_bind] in H.
  destruct (save_section names "critic_optimizer" _ _ a4) as [a5|];
    [|discriminate H].
  cbn [mbind option_bind] in H.
  match type of H with
  | (?o ≫= _) = _ => destruct o as [a6|]; [|discriminate H]
  end.
  cbn [mbind option_bind] in H. injection H as <-.
  unfold write_if_defined, write, hparams_entries.
  destruct (ent_coef_tensor_ (nets s)), (log_ent_coef_ (nets s));
    repeat constructor; simpl; simplify_map_eq; reflexivity.
Qed.





Lemma requested_other (key : string) :
  key <> "hparams" -> key <> "all" -> requested {["hparams"]} key = false.
Proof.
  intros H1 H2. unfold requested.
  rewrite !bool_decide_eq_false_2 by set_solver. reflexivity.
Qed.















(** *** The registered log items *)

Lemma RegisterLogItems_lookup (s : State) (k : string) :
  log_items_ (rl (RegisterLogItems s)) !! k
  = if bool_decide (k ∈ sac_items (auto_ent_coef_ (hp s))) then Some None
    else log_items_ (rl s) !! k.
Proof.
  unfold RegisterLogItems, sac_items. cbn [rl upd_rl log_items_ set_log_items_].
  destruct (auto_ent_coef_ (hp s)); cbn [app].
  - case_bool_decide as Hk.
    + repeat (apply elem_of_cons in Hk; destruct Hk as [->|Hk];
              [simplify_map_eq; reflexivity|]).
      apply elem_of_nil in Hk. destruct Hk.
    + rewrite !lookup_insert_ne; [reflexivity|..];
        intros <-; apply Hk; set_solver.
  - case_bool_decide as Hk.
    + repeat (apply elem_of_cons in Hk; destruct Hk as [->|Hk];
              [simplify_map_eq; reflexivity|]).
      apply elem_of_nil in Hk. destruct Hk.
    + rewrite !lookup_insert_ne; [reflexivity|..];
        intros <-; apply Hk; set_solver.
Qed.

(** X1. A trainer as constructed, after [Reset] and any number of
    iterations of [Learn], has exactly the log items that
    [SAC::RegisterLogItems] names: ["ent_coef"], ["actor_loss"],
    ["critic_loss"], ["q_value"], ["reward"], and ["ent_coef_loss"] when
    [auto_ent_coef] is set. ["num_updates"], which [RL::RegisterLogItems]
    registers, is not among them: the override does not call the member
    it overrides. *)
Theorem SAC_registered_items (E : Env)
    (learning_starts batch_size : Int) (lr tau gamma ent_coef : double)
    (auto_ent_coef : bool) (target_entropy : option double)
    (train_freq gradient_steps target_update_interval : Int)
    (output_path : string) (ind : Indeterminate)
    (max_time_steps monitor_interval checkpoint_interval : Int)
    (n : nat) (s' : State) :
  let s0 := Reset E (SAC_new learning_starts batch_size lr tau gamma ent_coef
                       auto_ent_coef target_entropy train_freq gradient_steps
                       target_update_interval output_path ind) in
  Learn_iterations E n
    (Learn_begin max_time_steps monitor_interval checkpoint_interval s0)
  = Some s' ->
  (forall k, is_Some (log_items_ (rl s') !! k) <-> k ∈ sac_items auto_ent_coef)
  /\ log_items_ (rl s') !! "num_updates" = None
  /\ log_items_ (rl (RL_RegisterLogItems s')) !! "num_updates" = Some None.
Proof.
  intros s0 H.
  destruct (Reset_log E (SAC_new learning_starts batch_size lr tau gamma
              ent_coef auto_ent_coef target_entropy train_freq gradient_steps
              target_update_interval output_path ind))
    as (Hitems & _ & _).
  fold s0 in Hitems. clearbody s0.
  apply Learn_iterations_log in H. destruct H as (Hdom & _ & _).
  rewrite Learn_begin_log_items in Hdom.
  assert (Hkeys : forall k, is_Some (log_items_ (rl s') !! k)
                            <-> k ∈ sac_items auto_ent_coef).
  { intros k. rewrite Hdom, Hitems, RegisterLogItems_lookup.
    cbn [SAC_new hp rl auto_ent_coef_ log_items_].
    case_bool_decide as Hk.
    - split; [intros _; exact Hk|intros _; eexists; reflexivity].
    - rewrite lookup_empty. split; [intros [x Hx]; discriminate|].
      intros Hin. destruct (Hk Hin). }
  split; [exact Hkeys|]. split.
  - apply eq_None_not_Some. rewrite Hkeys.
    destruct auto_ent_coef; apply (bool_decide_eq_false_1 _); reflexivity.
  - unfold RL_RegisterLogItems. cbn [rl upd_rl log_items_ set_log_items_].
    apply lookup_insert_eq.
Qed.

Lemma SAC_registered_items_witness :
  (forall k,
      is_Some (log_items_
                 (rl (default Stub.scenario
                        (Learn_iterations Stub.env 1
                           (Learn_begin 1 0 0
                              (Reset Stub.env Stub.scenario))))) !! k)
      <-> k ∈ sac_items true)
  /\ log_items_
       (rl (default Stub.scenario
              (Learn_iterations Stub.env 1
                 (Learn_begin 1 0 0 (Reset Stub.env Stub.scenario)))))
     !! "num_updates" = None.
Proof.
  destruct (SAC_registered_items Stub.env 10 4 (qc 3 10000) (qc 1 1)
              (qc 99 100) (qc 1 1) true None 1 1 1 "" Stub.ind 1 0 0 1%nat
              (default Stub.scenario
                 (Learn_iterations Stub.env 1
                    (Learn_begin 1 0 0 (Reset Stub.env Stub.scenario)))))
    as (H1 & H2 & _).
  - vm_compute. reflexivity.
  - split; [exact H1|exact H2].
Defined.

(** *** What [Reset] keeps and what it discards *)

(** X2. [Reset] never leaves auto entropy mode: with [auto_ent_coef_] unset
    it assigns [ent_coef_tensor_] but leaves an [ent_coef_optimizer_] and a
    [log_ent_coef_] made by an earlier [Reset] in place, so the test of
    line 141 still holds and the coefficient [Train] works with is still
    the one of [log_ent_coef_]. *)
Theorem Reset_keeps_auto_mode (E : Env) (s : State) :
  auto_mode (Reset E s) = auto_ent_coef_ (hp s) || auto_mode s
  /\ (auto_ent_coef_ (hp s) = false ->
      ent_coef_tensor_ (nets (Reset E s))
      = Some (scalar_tensor (ent_coef_ (hp s)))
      /\ ent_coef_optimizer_ (nets (Reset E s)) = ent_coef_optimizer_ (nets s)
      /\ log_ent_coef_ (nets (Reset E s)) = log_ent_coef_ (nets s)
      /\ (auto_mode s = true ->
          current_ent_coef E (Reset E s) = current_ent_coef E s)).
Proof.
  rewrite Reset_unfold. cbv zeta.
  unfold auto_mode, current_ent_coef.
  cbn [nets ent_coef_optimizer_ log_ent_coef_ ent_coef_tensor_].
  destruct (auto_ent_coef_ (hp s)).
  - split; [reflexivity|]. discriminate.
  - split; [reflexivity|]. intros _.
    split; [reflexivity|]. split; [reflexivity|]. split; [reflexivity|].
    destruct (ent_coef_optimizer_ (nets s)), (log_ent_coef_ (nets s));
      first [reflexivity|discriminate].
Qed.


(** *** The modes of the networks *)

Lemma repeat_opt_preserves (P : State -> Prop)
    (body : State -> option State) :
  (forall s s', body s = Some s' -> P s -> P s') ->
  forall (n : nat) (s s' : State),
    repeat_opt n body s = Some s' -> P s -> P s'.
Proof.
  intros Hbody. induction n as [|n IH]; intros s s' H HP; simpl in H.
  - injection H as <-. exact HP.
  - destruct (body s) as [s1|] eqn:H1; [|discriminate H].
    simpl in H. eauto.
Qed.

Lemma warmup_body_nets (E : Env) (s s' : State) :
  warmup_body E s = Some s' ->
  actor_ (nets s') = actor_ (nets s) /\ critic_ (nets s') = critic_ (nets s).
Proof.
  unfold warmup_body. intros H. apply step_and_store_spec in H.
  destruct H as (_ & _ & _ & _ & Ha & Hc & _). split; assumption.
Qed.

Lemma rollout_body_nets (E : Env) (s s' : State) :
  rollout_body E s = Some s' ->
  actor_ (nets s') = actor_ (nets s) /\ critic_ (nets s') = critic_ (nets s).
Proof.
  unfold rollout_body. intros H.
  destruct (actor_ (nets s)) as [actor|] eqn:Hact; [|discriminate H].
  destruct (observation_ (nets s)) as [obs|]; [|discriminate H].
  cbn [mbind option_bind] in H.
  destruct (step_and_store E _ (tick s)) as [s1|] eqn:H1; [|discriminate H].
  injection H as <-. apply step_and_store_spec in H1.
  destruct H1 as (_ & _ & _ & _ & Ha & Hc & _).
  simpl in *. rewrite Ha, Hc, Hact. split; reflexivity.
Qed.

(** [CollectRollouts] puts the actor and the critic in evaluation mode and
    does nothing else to them. *)
Lemma CollectRollouts_nets (E : Env) (s s' : State) :
  CollectRollouts E s = Some s' ->
  actor_ (nets s') = set_training false <$> actor_ (nets s)
  /\ critic_ (nets s') = set_training false <$> critic_ (nets s).
Proof.
  unfold CollectRollouts. intros H.
  destruct (actor_ (nets s)) as [actor|] eqn:Ha; [|discriminate H].
  destruct (critic_ (nets s)) as [critic|] eqn:Hc; [|discriminate H].
  cbn [mbind option_bind] in H.
  set (s0 := upd_nets _ s) in H.
  set (P := fun t : State =>
              actor_ (nets t) = Some (set_training false actor)
              /\ critic_ (nets t) = Some (set_training false critic)).
  assert (H0 : P s0) by (split; reflexivity).
  assert (Hw : forall t t', warmup_body E t = Some t' -> P t -> P t').
  { intros t t' Ht HP. unfold P in *. destruct HP as [? ?].
    apply warmup_body_nets in Ht.
    destruct Ht as [-> ->]. split; assumption. }
  assert (Hr : forall t t', rollout_body E t = Some t' -> P t -> P t').
  { intros t t' Ht HP. unfold P in *. destruct HP as [? ?].
    apply rollout_body_nets in Ht.
    destruct Ht as [-> ->]. split; assumption. }
  destruct (if bool_decide (num_iters_ (rl s0) = 0)
            then repeat_opt (Z.to_nat (learning_starts_ (hp s0)))
                   (warmup_body E) s0
            else Some s0) as [s1|] eqn:H1; [|discriminate H].
  cbn [mbind option_bind] in H.
  assert (P1 : P s1).
  { destruct (bool_decide (num_iters_ (rl s0) = 0)).
    - exact (repeat_opt_preserves P _ Hw _ _ _ H1 H0).
    - injection H1 as <-. exact H0. }
  exact (repeat_opt_preserves P _ Hr _ _ _ H P1).
Qed.

Ltac modes_tac :=
  unfold modes; simpl;
  repeat match goal with
         | H : _ = Some _ |- _ => rewrite H
         | H : _ = None |- _ => rewrite H
         end; reflexivity.

Lemma ent_coef_phase_modes (E : Env) step lp s st s1 st1 ec :
  ent_coef_phase E step lp s st = Some (s1, st1, ec) -> modes s1 = modes s.
Proof.
  unfold ent_coef_phase. intros H.
  destruct (ent_coef_optimizer_ (nets s)) as [opt|] eqn:Hopt;
    destruct (log_ent_coef_ (nets s)) as [lec|] eqn:Hlec;
    try destruct (adam_step E opt _) as [opt' upd] eqn:Hstep;
    simplify_option_eq; modes_tac.
Qed.

Lemma critic_phase_modes (E : Env) step batch target s st s2 st2 :
  critic_phase E step batch target s st = Some (s2, st2) ->
  modes s2 = modes s.
Proof.
  unfold critic_phase. intros H. simplify_option_eq.
  destruct (adam_step E _ _) as [opt' upd]. simplify_eq. modes_tac.
Qed.

Lemma actor_phase_modes (E : Env) step batch noise a lp ec s st s2 st2 :
  actor_phase E step batch noise a lp ec s st = Some (s2, st2) ->
  modes s2 = modes s.
Proof.
  unfold actor_phase. intros H. simplify_option_eq.
  destruct (adam_step E _ _) as [opt' upd]. simplify_eq. modes_tac.
Qed.

Lemma polyak_phase_modes (step : Int) (s s' : State) :
  polyak_phase step s = Some s' -> modes s' = modes s.
Proof.
  unfold polyak_phase. intros H.
  repeat case_bool_decide; simplify_option_eq; modes_tac.
Qed.

Lemma train_step_modes (E : Env) step s st s' st' :
  train_step E step (s, st) = Some (s', st') -> modes s' = modes s.
Proof.
  intros H. apply train_step_inv in H.
  destruct H as (rb & batch & actor & s1 & st1 & ec & ct & tq & s2 & st2 & s3
                 & _ & _ & _ & He & _ & _ & Hc & Ha & Hp).
  apply ent_coef_phase_modes in He. apply critic_phase_modes in Hc.
  apply actor_phase_modes in Ha. apply polyak_phase_modes in Hp.
  rewrite Hp, Ha, Hc. exact He.
Qed.

Lemma train_loop_modes (E : Env) (n : nat) :
  forall step s st s' st',
    train_loop E n step (s, st) = Some (s', st') -> modes s' = modes s.
Proof.
  induction n as [|n IH]; intros step s st s' st' H.
  - injection H as <- <-. reflexivity.
  - apply train_loop_S_inv in H. destruct H as (s1 & st1 & H1 & H).
    apply train_step_modes in H1. apply IH in H. congruence.
Qed.

(** [Train] leaves the actor and the critic in training mode and the
    critic target in the mode it had. *)
Lemma Train_modes (E : Env) (s s' : State) :
  Train E s = Some s' ->
  modes s' = (Some true, Some true, training <$> critic_target_ (nets s)).
Proof.
  intros H. apply Train_inv in H.
  destruct H as (actor & critic & s1 & st1 & items & Ha & Hc & Hloop & _ & ->).
  apply train_loop_modes in Hloop.
  change (modes (upd_rl _ (upd_rl _ s1))) with (modes s1).
  rewrite Hloop. reflexivity.
Qed.

Lemma Learn_iteration_modes (E : Env) (s s' : State) :
  Learn_iteration E s = Some s' ->
  modes s' = (Some true, Some true, training <$> critic_target_ (nets s)).
Proof.
  intros H. apply Learn_iteration_inv in H.
  destruct H as (s1 & s2 & s3 & Hc & Ht & Hk & ->).
  apply Checkpoint_spec in Hk. destruct Hk as (_ & _ & Hn & _).
  destruct (Monitor_spec s2) as (_ & _ & Hm & _).
  apply Train_modes in Ht.
  apply CollectRollouts_stored in Hc. destruct Hc as ((_ & _ & Hct & _) & _).
  change (modes (Update s3)) with (modes s3).
  unfold modes in *. rewrite Hn, Hm. rewrite Ht, Hct. reflexivity.
Qed.

(** X4. The critic target is put in evaluation mode by [Reset] and stays
    there through every iteration of [Learn]; the actor and the critic are
    in evaluation mode while [CollectRollouts] runs and in training mode
    when an iteration, hence [Learn], ends. *)
Theorem network_modes (E : Env) (s0 : State) (n : nat)
    (max_time_steps monitor_interval checkpoint_interval : Int)
    (s' : State) :
  Learn_iterations E n
    (Learn_begin max_time_steps monitor_interval checkpoint_interval
       (Reset E s0)) = Some s' ->
  training <$> critic_target_ (nets s') = Some false
  /\ ((1 <= n)%nat ->
      training <$> actor_ (nets s') = Some true
      /\ training <$> critic_ (nets s') = Some true)
  /\ (forall s1, CollectRollouts E s' = Some s1 ->
        modes s1 = (Some false, Some false, Some false)).
Proof.
  assert (Hgen : forall (n : nat) (s s' : State),
             Learn_iterations E n s = Some s' ->
             training <$> critic_target_ (nets s') 
             = training <$> critic_target_ (nets s)
             /\ ((1 <= n)%nat ->
                 training <$> actor_ (nets s') = Some true
                 /\ training <$> critic_ (nets s') = Some true)).
  { clear. induction n as [|n IH]; intros s s' H; simpl in H.
    - injection H as <-. split; [reflexivity|lia].
    - destruct (Proceed s); [|discriminate H].
      destruct (Learn_iteration E s) as [s1|] eqn:H1; [|discriminate H].
      cbn [mbind option_bind] in H.
      apply Learn_iteration_modes in H1.
      pose proof (IH _ _ H) as (Ht & Hac). unfold modes in H1.
      injection H1 as Ha Hc Hct. split; [exact (eq_trans Ht Hct)|]. intros _.
      destruct n as [|n]; [|apply Hac; lia].
      simpl in H. injection H as <-. split; assumption. }
  assert (Hr : training <$> critic_target_ (nets (Reset E s0)) = Some false).
  { destruct (Reset_critic_target E s0) as (_ & Hct). rewrite Hct.
    reflexivity. }
  generalize dependent (Reset E s0). intros sr Hr H.
  apply Hgen in H. destruct H as (Ht & Hac).
  assert (Htarget : training <$> critic_target_ (nets s') = Some false).
  { exact (eq_trans Ht Hr). }
  split; [exact Htarget|]. split; [exact Hac|].
  intros s1 H1. pose proof (CollectRollouts_nets _ _ _ H1) as (Ha & Hc).
  pose proof (CollectRollouts_stored _ _ _ H1) as ((_ & _ & Hct & _) & _).
  unfold modes. rewrite Ha, Hc, Hct, Htarget.
  unfold CollectRollouts in H1.
  destruct (actor_ (nets s')); [|discriminate H1].
  destruct (critic_ (nets s')); [|discriminate H1]. reflexivity.
Qed.

Lemma network_modes_witness :
  training
    <$> critic_target_
          (nets (default Stub.scenario
                   (Learn_iterations Stub.env 1
                      (Learn_begin 1 0 0 (Reset Stub.env Stub.scenario)))))
  = Some false.
Proof.
  assert (H : Learn_iterations Stub.env 1
                (Learn_begin 1 0 0 (Reset Stub.env Stub.scenario))
              = Some (default Stub.scenario
                        (Learn_iterations Stub.env 1
                           (Learn_begin 1 0 0
                              (Reset Stub.env Stub.scenario)))))
    by (vm_compute; reflexivity).
  exact (proj1 (network_modes Stub.env Stub.scenario 1 1 0 0 _ H)).
Defined.

(** *** The stored trajectory *)

Lemma chained_snoc (l : list Transition) (t : Transition) (obs : list Qc) :
  chained l (tr_observation t) = true ->
  tr_next_observation t = obs ->
  chained (l ++ [t]) obs = true.
Proof.
  intros Hl Ht. induction l as [|t0 l IH]; simpl.
  - rewrite Ht. rewrite bool_decide_eq_true_2 by reflexivity. reflexivity.
  - simpl in Hl. apply andb_true_iff in Hl. destruct Hl as [H0 Hl].
    apply andb_true_iff. split; [|exact (IH Hl)].
    destruct l as [|t1 l]; simpl; exact H0.
Qed.

Lemma chained_tail (t : Transition) (l : list Transition) (obs : list Qc) :
  chained (t :: l) obs = true -> chained l obs = true.
Proof. simpl. intros H. apply andb_true_iff in H. apply H. Qed.

Lemma chained_drop (k : nat) :
  forall (l : list Transition) (obs : list Qc),
    chained l obs = true -> chained (drop k l) obs = true.
Proof.
  induction k as [|k IH]; intros l obs H.
  - rewrite drop_0. exact H.
  - destruct l as [|t l]; [reflexivity|].
    simpl. apply IH. exact (chained_tail _ _ _ H).
Qed.

Lemma step_and_store_trajectory (E : Env) (act : list Qc) (s s' : State) :
  step_and_store E act s = Some s' ->
  trajectory_stored s -> trajectory_stored s'.
Proof.
  unfold step_and_store. intros H (rb & obs & Hrb & Hobs & Hch & Hlen).
  rewrite Hrb, Hobs in H. cbn [mbind option_bind] in H.
  destruct (Step E (env_ (world s)) act) as [env' [[next r] d]].
  injection H as <-.
  exists (Add (mkTransition obs act next r d) rb), next.
  cbn [nets upd_nets upd_world replay_buffer_ observation_
       set_replay_buffer_ set_observation_].
  split; [reflexivity|]. split; [reflexivity|]. split.
  - unfold Add. cbn [storage]. apply chained_drop.
    apply chained_snoc; [exact Hch|reflexivity].
  - unfold Add. cbn [storage capacity].
    rewrite length_drop, length_app. simpl. lia.
Qed.

Lemma trajectory_stored_ext (s s' : State) :
  replay_buffer_ (nets s') = replay_buffer_ (nets s) ->
  observation_ (nets s') = observation_ (nets s) ->
  trajectory_stored s -> trajectory_stored s'.
Proof.
  intros Hrb Hobs (rb & obs & H1 & H2 & H3 & H4).
  exists rb, obs. rewrite Hrb, Hobs. repeat split; assumption.
Qed.

Lemma warmup_body_trajectory (E : Env) (s s' : State) :
  warmup_body E s = Some s' -> trajectory_stored s -> trajectory_stored s'.
Proof.
  unfold warmup_body. intros H Ht.
  apply (step_and_store_trajectory _ _ _ _ H).
  apply (trajectory_stored_ext s); [reflexivity|reflexivity|exact Ht].
Qed.

Lemma rollout_body_trajectory (E : Env) (s s' : State) :
  rollout_body E s = Some s' -> trajectory_stored s -> trajectory_stored s'.
Proof.
  unfold rollout_body. intros H Ht.
  destruct (actor_ (nets s)) as [actor|]; [|discriminate H].
  destruct (observation_ (nets s)) as [obs|] eqn:Hobs; [|discriminate H].
  cbn [mbind option_bind] in H.
  destruct (step_and_store E _ (tick s)) as [s1|] eqn:H1; [|discriminate H].
  injection H as <-.
  apply (trajectory_stored_ext s1); [reflexivity|reflexivity|].
  apply (step_and_store_trajectory _ _ _ _ H1).
  apply (trajectory_stored_ext s); [reflexivity|reflexivity|exact Ht].
Qed.

Lemma CollectRollouts_trajectory (E : Env) (s s' : State) :
  CollectRollouts E s = Some s' ->
  trajectory_stored s -> trajectory_stored s'.
Proof.
  unfold CollectRollouts. intros H Ht.
  destruct (actor_ (nets s)) as [actor|] eqn:Ha; [|discriminate H].
  destruct (critic_ (nets s)) as [critic|] eqn:Hc; [|discriminate H].
  cbn [mbind option_bind] in H.
  set (s0 := upd_nets _ s) in H.
  assert (H0 : trajectory_stored s0).
  { apply (trajectory_stored_ext s); [reflexivity|reflexivity|exact Ht]. }
  destruct (if bool_decide (num_iters_ (rl s0) = 0)
            then repeat_opt (Z.to_nat (learning_starts_ (hp s0)))
                   (warmup_body E) s0
            else Some s0) as [s1|] eqn:H1; [|discriminate H].
  cbn [mbind option_bind] in H.
  assert (P1 : trajectory_stored s1).
  { destruct (bool_decide (num_iters_ (rl s0) = 0)).
    - exact (repeat_opt_preserves _ _ (warmup_body_trajectory E) _ _ _ H1 H0).
    - injection H1 as <-. exact H0. }
  exact (repeat_opt_preserves _ _ (rollout_body_trajectory E) _ _ _ H P1).
Qed.

Lemma Learn_iteration_trajectory (E : Env) (s s' : State) :
  Learn_iteration E s = Some s' ->
  trajectory_stored s -> trajectory_stored s'.
Proof.
  intros H Ht. apply Learn_iteration_inv in H.
  destruct H as (s1 & s2 & s3 & Hc & Htr & Hk & ->).
  apply Checkpoint_spec in Hk. destruct Hk as (_ & _ & Hn & _).
  destruct (Monitor_spec s2) as (_ & _ & Hm & _).
  apply Train_spec in Htr. destruct Htr as (_ & _ & Hrb & Hobs & _).
  apply (CollectRollouts_trajectory _ _ _ Hc) in Ht.
  apply (trajectory_stored_ext s1); [| |exact Ht].
  - change (nets (Update s3)) with (nets s3). rewrite Hn, Hm. exact Hrb.
  - change (nets (Update s3)) with (nets s3). rewrite Hn, Hm. exact Hobs.
Qed.

Lemma Learn_iterations_preserves (E : Env) (P : State -> Prop) :
  (forall s s', Learn_iteration E s = Some s' -> P s -> P s') ->
  forall (n : nat) (s s' : State),
    Learn_iterations E n s = Some s' -> P s -> P s'.
Proof.
  intros Hstep. induction n as [|n IH]; intros s s' H HP; simpl in H.
  - injection H as <-. exact HP.
  - destruct (Proceed s); [|discriminate H].
    destruct (Learn_iteration E s) as [s1|] eqn:H1; [|discriminate H].
    cbn [mbind option_bind] in H. eauto.
Qed.

Lemma Reset_trajectory (E : Env) (s : State) : trajectory_stored (Reset E s).
Proof.
  rewrite Reset_unfold. cbv zeta.
  eexists _, _. cbn [nets replay_buffer_ observation_].
  split; [reflexivity|]. split; [reflexivity|]. split; [reflexivity|].
  simpl. lia.
Qed.

(** X5. After [Reset] and any number of iterations of [Learn] the replay
    buffer holds one unbroken trajectory: every stored transition starts at
    the observation at which the one stored before it ended, and the last
    one ends at [observation_]. Nothing in [CollectRollouts] restarts the
    environment when a transition is final. The buffer never holds more
    transitions than its capacity. *)
Theorem buffer_holds_one_trajectory (E : Env) (s0 : State) (n : nat)
    (max_time_steps monitor_interval checkpoint_interval : Int)
    (s' : State) :
  Learn_iterations E n
    (Learn_begin max_time_steps monitor_interval checkpoint_interval
       (Reset E s0)) = Some s' ->
  exists rb obs,
    replay_buffer_ (nets s') = Some rb
    /\ observation_ (nets s') = Some obs
    /\ chained (storage rb) obs = true
    /\ (length (storage rb) <= capacity rb)%nat.
Proof.
  pose proof (Reset_trajectory E s0) as Hr.
  generalize dependent (Reset E s0). intros sr Hr H.
  apply (Learn_iterations_preserves E trajectory_stored
           (Learn_iteration_trajectory E) _ _ _ H).
  apply (trajectory_stored_ext sr); [reflexivity|reflexivity|exact Hr].
Qed.

Lemma buffer_holds_one_trajectory_witness :
  exists rb obs,
    replay_buffer_
      (nets (default Stub.scenario
               (Learn_iterations Stub.env 1
                  (Learn_begin 1 0 0 (Reset Stub.env Stub.scenario)))))
    = Some rb
    /\ observation_
         (nets (default Stub.scenario
                  (Learn_iterations Stub.env 1
                     (Learn_begin 1 0 0 (Reset Stub.env Stub.scenario)))))
       = Some obs
    /\ chained (storage rb) obs = true
    /\ (length (storage rb) <= capacity rb)%nat.
Proof.
  assert (H : Learn_iterations Stub.env 1
                (Learn_begin 1 0 0 (Reset Stub.env Stub.scenario))
              = Some (default Stub.scenario
                        (Learn_iterations Stub.env 1
                           (Learn_begin 1 0 0
                              (Reset Stub.env Stub.scenario)))))
    by (vm_compute; reflexivity).
  exact (buffer_holds_one_trajectory Stub.env Stub.scenario 1 1 0 0 _ H).
Defined.

(** *** How much [CollectRollouts] stores *)

(** X6. A call of [CollectRollouts] stores [train_freq_] transitions, and
    [learning_starts_] more before them when [num_iters_] is 0, a negative
    number counting as none; the buffer keeps its capacity and holds the
    transitions it held and the new ones, up to its capacity. Only the
    [train_freq_] transitions count in [time_steps_], [NumEnvs()] each. The
    call changes no weight, optimizer or hyperparameter. *)
Theorem CollectRollouts_count (E : Env) (s s' : State) (rb : ReplayBuffer) :
  CollectRollouts E s = Some s' ->
  replay_buffer_ (nets s) = Some rb ->
  (length (storage rb) <= capacity rb)%nat ->
  (exists rb',
      replay_buffer_ (nets s') = Some rb'
      /\ capacity rb' = capacity rb
      /\ length (storage rb')
         = Nat.min (capacity rb)
             (length (storage rb)
              + ((if bool_decide (num_iters_ (rl s) = 0)
                  then Z.to_nat (learning_starts_ (hp s)) else 0)
                 + Z.to_nat (train_freq_ (hp s)))))
  /\ time_steps_ (rl s')
     = time_steps_ (rl s) + NumEnvs E * Z.max 0 (train_freq_ (hp s))
  /\ rollout_frame s s'.
Proof.
  intros H Hrb Hlen. apply CollectRollouts_stored in H.
  destruct H as (Hf & Hts & _ & Hsize).
  split; [|split; [|exact Hf]].
  - rewrite Hrb in Hsize. simpl in Hsize.
    destruct (replay_buffer_ (nets s')) as [rb'|]; [|discriminate Hsize].
    simpl in Hsize. unfold buffer_size in Hsize. injection Hsize as Hc Hl.
    exists rb'. split; [reflexivity|]. split; [exact Hc|].
    rewrite Hl. unfold size_after.
    destruct (_ + _)%nat as [|k] eqn:Hk; [|reflexivity].
    rewrite Nat.add_0_r. lia.
  - rewrite Hts. f_equal. f_equal. lia.
Qed.

Lemma CollectRollouts_count_witness :
  exists rb',
    replay_buffer_ (nets Stub.ready) = Some rb'
    /\ capacity rb' = 100%nat
    /\ length (storage rb') = Nat.min 100 (0 + (10 + 1)).
Proof.
  assert (H : CollectRollouts Stub.env (Reset Stub.env Stub.scenario)
              = Some Stub.ready) by (vm_compute; reflexivity).
  exact (proj1 (CollectRollouts_count Stub.env _ _
                  (MakeReplayBuffer Stub.env) H eq_refl (Nat.le_0_l _))).
Defined.

(** *** A trainer that was not [Reset] *)

(** X7. Before the first [Reset] the networks, the optimizers and the
    buffer are null: [CollectRollouts] and [Train] fail, [Learn] with a
    positive budget fails in its first iteration and with a budget of 0 or
    less returns at once, saving a network section fails, and so does
    loading one that the archive holds. *)
Theorem before_Reset (E : Env)
    (learning_starts batch_size : Int) (lr tau gamma ent_coef : double)
    (auto_ent_coef : bool) (target_entropy : option double)
    (train_freq gradient_steps target_update_interval : Int)
    (output_path : string) (ind : Indeterminate)
    (max_time_steps monitor_interval checkpoint_interval : Int)
    (fuel : nat) (names : gset string) (a : gmap string Entry)
    (sub : SubArchive) :
  let s := SAC_new learning_starts batch_size lr tau gamma ent_coef
             auto_ent_coef target_entropy train_freq gradient_steps
             target_update_interval output_path ind in
  CollectRollouts E s = None
  /\ Train E s = None
  /\ Learn E (S fuel) max_time_steps monitor_interval checkpoint_interval s
     = (if bool_decide (0 < max_time_steps) then Raised
        else Returned (Learn_begin max_time_steps monitor_interval
                         checkpoint_interval s))
  /\ (requested names "actor" = true -> SaveArchive names s a = None)
  /\ (requested names "actor" = true -> a !! "actor" = Some (ESub sub) ->
      LoadArchive a names s = None).
Proof.
  intros s. split; [reflexivity|]. split; [reflexivity|]. split; [|split].
  - unfold Learn. cbn [Learn_loop]. unfold Proceed.
    cbn [Learn_begin s SAC_new upd_rl rl time_steps_ max_time_steps_
         set_time_steps_ set_max_time_steps_ set_monitor_interval_
         set_checkpoint_interval_].
    destruct (bool_decide (0 < max_time_steps)); reflexivity.
  - intros Hreq. unfold SaveArchive, save_section. rewrite Hreq. reflexivity.
  - intros Hreq Ha. unfold LoadArchive, load_section, try_read_archive.
    rewrite Hreq, Ha. reflexivity.
Qed.

(** *** Calls of [Train] that cannot complete *)

Lemma set_log_item_registered (key : string) (value : option Qc)
    (items : gmap string (option Qc)) :
  is_Some (items !! key) -> value = None -> set_log_item key value items = None.
Proof.
  intros [x Hx] ->. unfold set_log_item. rewrite Hx. reflexivity.
Qed.




(** X9. [Train] with [target_update_interval_ = 0] and at least one
    gradient step does not complete: the test [step % 0] of line 185 is a
    division by zero. *)
Theorem Train_with_interval_zero (E : Env) (s : State) :
  target_update_interval_ (hp s) = 0 ->
  1 <= gradient_steps_ (hp s) ->
  Train E s = None.
Proof.
  intros Hint Hgs.
  destruct (Train E s) as [s'|] eqn:H; [|reflexivity]. exfalso.
  apply Train_inv in H.
  destruct H as (actor & critic & s1 & st1 & items & _ & _ & Hloop & _).
  destruct (Z.to_nat (gradient_steps_ (hp s))) as [|n] eqn:Hn; [lia|].
  apply train_loop_S_inv in Hloop. destruct Hloop as (s2 & st2 & Hstep & _).
  apply train_step_events in Hstep.
  destruct Hstep as (rb & batch & a & ct & ec & t & cl & al & Hrest).
  destruct Hrest as (_ & _ & _ & _ & _ & _ & _ & _ & _ & _ & _ & Hne).
  apply Hne. exact Hint.
Qed.

Lemma Train_with_interval_zero_witness :
  Train Stub.env (upd_hp (set_target_update_interval_ 0) Stub.ready) = None.
Proof.
  apply (Train_with_interval_zero Stub.env
           (upd_hp (set_target_update_interval_ 0) Stub.ready)).
  - reflexivity.
  - vm_compute. discriminate.
Defined.

(** *** What [Train] writes to the log items *)

Lemma set_log_item_lookup (key : string) (value : option Qc)
    (items items' : gmap string (option Qc)) :
  set_log_item key value items = Some items' ->
  (forall k, items' !! k
             = if bool_decide (k = key)
               then items !! key ≫= fun _ => Some value
               else items !! k)
  /\ (is_Some (items !! key) -> is_Some value).
Proof.
  unfold set_log_item. intros H.
  destruct (items !! key) as [old|] eqn:Hkey.
  - destruct value as [v|]; [|discriminate H]. injection H as <-. split.
    + intros k. case_bool_decide as Hk.
      * subst k. rewrite lookup_insert_eq. reflexivity.
      * rewrite lookup_insert_ne by congruence. reflexivity.
    + intros _. eexists; reflexivity.
  - injection H as <-. split.
    + intros k. case_bool_decide as Hk; [subst k; exact Hkey|reflexivity].
    + intros [x Hx]. discriminate Hx.
Qed.

Ltac decide_names :=
  repeat match goal with
         | |- context [bool_decide (?a = ?b)] =>
             let r := eval vm_compute in (bool_decide (a = b)) in
             lazymatch r with
             | true => change (bool_decide (a = b)) with true
             | false => change (bool_decide (a = b)) with false
             end
         end;
  cbv iota.

Lemma write_log_items_values (num_updates : Int) (st : Stats)
    (items items' : gmap string (option Qc)) :
  write_log_items num_updates st items = Some items' ->
  (forall k, k ∉ train_items -> items' !! k = items !! k)
  /\ (forall k, k ∈ train_items -> is_Some (items !! k) ->
        exists x, items' !! k = Some (Some x))
  /\ (is_Some (items !! "num_updates") ->
      items' !! "num_updates" = Some (Some (Qc_of_Z num_updates)))
  /\ (is_Some (items !! "ent_coef") ->
      items' !! "ent_coef" = Some (stack_mean (ent_coef_list st))).
Proof.
  unfold write_log_items. intros H. case_bool_decide as Hempty.
  { injection H as <-. subst items.
    split; [reflexivity|].
    split; [|split]; intros; repeat match goal with
      | H : is_Some (∅ !! _) |- _ =>
          rewrite lookup_empty in H; destruct H as [? H]; discriminate H
      end. }
  destruct (set_log_item "num_updates" _ items) as [i1|] eqn:H1;
    [|discriminate H]. cbn [mbind option_bind] in H.
  destruct (set_log_item "ent_coef" _ i1) as [i2|] eqn:H2;
    [|discriminate H]. cbn [mbind option_bind] in H.
  destruct (set_log_item "actor_loss" _ i2) as [i3|] eqn:H3;
    [|discriminate H]. cbn [mbind option_bind] in H.
  destruct (set_log_item "critic_loss" _ i3) as [i4|] eqn:H4;
    [|discriminate H]. cbn [mbind option_bind] in H.
  destruct (set_log_item "ent_coef_loss" _ i4) as [i5|] eqn:H5;
    [|discriminate H]. cbn [mbind option_bind] in H.
  destruct (set_log_item "q_value" _ i5) as [i6|] eqn:H6;
    [|discriminate H]. cbn [mbind option_bind] in H.
  apply set_log_item_lookup in H1, H2, H3, H4, H5, H6, H.
  destruct H1 as (L1 & V1), H2 as (L2 & V2), H3 as (L3 & V3),
           H4 as (L4 & V4), H5 as (L5 & V5), H6 as (L6 & V6),
           H as (L7 & V7).
  assert (Hlook : forall k,
             items' !! k
             = if bool_decide (k = "reward")
               then i6 !! "reward" ≫= fun _ => Some (stack_mean (reward_list st))
               else if bool_decide (k = "q_value")
               then i5 !! "q_value"
                    ≫= fun _ => Some (stack_mean (q_value_list st))
               else if bool_decide (k = "ent_coef_loss")
               then i4 !! "ent_coef_loss"
                    ≫= fun _ => Some (stack_mean (ent_coef_loss_list st))
               else if bool_decide (k = "critic_loss")
               then i3 !! "critic_loss"
                    ≫= fun _ => Some (stack_mean (critic_loss_list st))
               else if bool_decide (k = "actor_loss")
               then i2 !! "actor_loss"
                    ≫= fun _ => Some (stack_mean (actor_loss_list st))
               else if bool_decide (k = "ent_coef")
               then i1 !! "ent_coef"
                    ≫= fun _ => Some (stack_mean (ent_coef_list st))
               else if bool_decide (k = "num_updates")
               then items !! "num_updates"
                    ≫= fun _ => Some (Some (Qc_of_Z num_updates))
               else items !! k).
  { intros k. rewrite (L7 k), (L6 k), (L5 k), (L4 k), (L3 k), (L2 k), (L1 k).
    reflexivity. }
  assert (E1 : i1 !! "ent_coef" = items !! "ent_coef").
  { rewrite (L1 "ent_coef"). decide_names. reflexivity. }
  assert (E2 : i2 !! "actor_loss" = items !! "actor_loss").
  { rewrite (L2 "actor_loss"), (L1 "actor_loss"). decide_names.
    reflexivity. }
  assert (E3 : i3 !! "critic_loss" = items !! "critic_loss").
  { rewrite (L3 "critic_loss"), (L2 "critic_loss"), (L1 "critic_loss").
    decide_names. reflexivity. }
  assert (E4 : i4 !! "ent_coef_loss" = items !! "ent_coef_loss").
  { rewrite (L4 "ent_coef_loss"), (L3 "ent_coef_loss"),
      (L2 "ent_coef_loss"), (L1 "ent_coef_loss").
    decide_names. reflexivity. }
  assert (E5 : i5 !! "q_value" = items !! "q_value").
  { rewrite (L5 "q_value"), (L4 "q_value"), (L3 "q_value"), (L2 "q_value"),
      (L1 "q_value").
    decide_names. reflexivity. }
  assert (E6 : i6 !! "reward" = items !! "reward").
  { rewrite (L6 "reward"), (L5 "reward"), (L4 "reward"), (L3 "reward"),
      (L2 "reward"), (L1 "reward").
    decide_names. reflexivity. }
  rewrite E1 in V2, Hlook. rewrite E2 in V3, Hlook. rewrite E3 in V4, Hlook.
  rewrite E4 in V5, Hlook. rewrite E5 in V6, Hlook. rewrite E6 in V7, Hlook.
  clear L1 L2 L3 L4 L5 L6 L7 E1 E2 E3 E4 E5 E6.
  split; [|split; [|split]].
  - intros k Hk. rewrite Hlook. unfold train_items in Hk.
    repeat (rewrite bool_decide_eq_false_2;
            [|intros ->; apply Hk; set_solver]).
    reflexivity.
  - intros k Hk [old Hold]. unfold train_items in Hk.
    rewrite Hlook.
    repeat (apply elem_of_cons in Hk; destruct Hk as [->|Hk];
            [decide_names; rewrite Hold; cbn [mbind option_bind];
             first [ eexists; reflexivity
                   | match goal with
                     | V : is_Some (_ !! ?key) -> is_Some ?v
                       |- context [Some ?v] =>
                         destruct V as [x ->];
                         [rewrite Hold; eexists; reflexivity
                         |eexists; reflexivity]
                     end ]|]).
    apply elem_of_nil in Hk. destruct Hk.
  - intros [old Hold]. rewrite Hlook. decide_names.
    rewrite Hold. reflexivity.
  - intros [old Hold]. rewrite Hlook. decide_names.
    rewrite Hold. reflexivity.
Qed.

(** X10. A call of [Train] that returns has added [gradient_steps_] to
    [num_updates_] and has given a value to every log item it names that
    is registered, ["num_updates"] holding the new count; it registers no
    item and leaves the others as they were. It changes none of the other
    counters, the hyperparameters, the replay buffer, the current
    observation, the environment, the log file, the console or the
    checkpoints. *)
Theorem Train_effects (E : Env) (s s' : State) :
  Train E s = Some s' ->
  (num_updates_ (rl s') = num_updates_ (rl s) + gradient_steps_ (hp s)
   /\ num_iters_ (rl s') = num_iters_ (rl s)
   /\ time_steps_ (rl s') = time_steps_ (rl s)
   /\ max_time_steps_ (rl s') = max_time_steps_ (rl s)
   /\ monitor_interval_ (rl s') = monitor_interval_ (rl s)
   /\ checkpoint_interval_ (rl s') = checkpoint_interval_ (rl s)
   /\ output_path_ (rl s') = output_path_ (rl s)
   /\ hp s' = hp s
   /\ replay_buffer_ (nets s') = replay_buffer_ (nets s)
   /\ observation_ (nets s') = observation_ (nets s)
   /\ env_ (world s') = env_ (world s)
   /\ log_txt_ (world s') = log_txt_ (world s)
   /\ console_ (world s') = console_ (world s)
   /\ checkpoints_ (world s') = checkpoints_ (world s))
  /\ (forall k, is_Some (log_items_ (rl s') !! k)
                <-> is_Some (log_items_ (rl s) !! k))
  /\ (forall k, k ∉ train_items ->
        log_items_ (rl s') !! k = log_items_ (rl s) !! k)
  /\ (forall k, k ∈ train_items -> is_Some (log_items_ (rl s) !! k) ->
        exists x, log_items_ (rl s') !! k = Some (Some x))
  /\ (is_Some (log_items_ (rl s) !! "num_updates") ->
      log_items_ (rl s') !! "num_updates"
      = Some (Some (Qc_of_Z (num_updates_ (rl s'))))).
Proof.
  intros H. apply Train_spec in H.
  destruct H as (Hhp & (st & items & Hw & Hrl) & Hrb & Hobs & _ & Henv & Hlog
                 & Hcon & Hck).
  pose proof (write_log_items_spec _ _ _ _ Hw) as (Hdom & _).
  pose proof (write_log_items_values _ _ _ _ Hw) as (Hother & Hval & Hnum & _).
  rewrite Hrl. cbn [num_updates_ num_iters_ time_steps_ max_time_steps_
                    monitor_interval_ checkpoint_interval_ output_path_
                    log_items_ set_log_items_ set_num_updates_].
  repeat split; try assumption; try apply Hdom.
Qed.

Lemma Train_effects_witness :
  num_updates_ (rl Stub.trained)
  = num_updates_ (rl Stub.ready) + gradient_steps_ (hp Stub.ready).
Proof.
  assert (H : Train Stub.env Stub.ready = Some Stub.trained)
    by (vm_compute; reflexivity).
  exact (proj1 (proj1 (Train_effects Stub.env _ _ H))).
Defined.

(** *** The optimizer steps of a call of [Train] *)


Lemma seqZ_succ_front (step : Z) (n : nat) :
  seqZ step (Z.of_nat (S n)) = step :: seqZ (step + 1) (Z.of_nat n).
Proof.
  rewrite Nat2Z.inj_succ.
  rewrite (seqZ_cons step) by (apply Z.lt_succ_r, Nat2Z.is_nonneg).
  rewrite Z.pred_succ. replace (Z.succ step) with (step + 1) by lia.
  reflexivity.
Qed.




(** *** The entropy coefficient in the log *)

Lemma ent_coef_phase_list (E : Env) step lp s st s1 st1 ec :
  ent_coef_phase E step lp s st = Some (s1, st1, ec) ->
  ent_coef_list st1 = ent_coef_list st ++ [detach ec].
Proof.
  unfold ent_coef_phase. intros H.
  destruct (ent_coef_optimizer_ (nets s)) as [opt|] eqn:Hopt;
    destruct (log_ent_coef_ (nets s)) as [lec|] eqn:Hlec;
    try destruct (adam_step E opt _) as [opt' upd] eqn:Hstep;
    simplify_option_eq; reflexivity.
Qed.

Lemma critic_phase_list (E : Env) step batch target s st s2 st2 :
  critic_phase E step batch target s st = Some (s2, st2) ->
  ent_coef_list st2 = ent_coef_list st.
Proof.
  unfold critic_phase. intros H. simplify_option_eq.
  destruct (adam_step E _ _) as [opt' upd]. simplify_eq. reflexivity.
Qed.

Lemma actor_phase_list (E : Env) step batch noise a lp ec s st s2 st2 :
  actor_phase E step batch noise a lp ec s st = Some (s2, st2) ->
  ent_coef_list st2 = ent_coef_list st.
Proof.
  unfold actor_phase. intros H. simplify_option_eq.
  destruct (adam_step E _ _) as [opt' upd]. simplify_eq. reflexivity.
Qed.

Lemma train_step_ent_coef_list (E : Env) step s st s' st' :
  train_step E step (s, st) = Some (s', st') ->
  exists ec,
    current_ent_coef E s = Some ec
    /\ ent_coef_list st' = ent_coef_list st ++ [detach ec].
Proof.
  intros H. apply train_step_inv in H.
  destruct H as (rb & batch & actor & s1 & st1 & ec & ct & tq & s2 & st2 & s3
                 & _ & _ & _ & He & _ & _ & Hc & Ha & _).
  exists ec. split.
  - apply ent_coef_phase_trace in He.
    destruct He as (_ & _ & _ & _ & _ & Hec & _). exact Hec.
  - apply ent_coef_phase_list in He. apply critic_phase_list in Hc.
    apply actor_phase_list in Ha. rewrite Ha, Hc. exact He.
Qed.

Lemma current_ent_coef_fixed (E : Env) (s : State) :
  auto_mode s = false -> current_ent_coef E s = ent_coef_tensor_ (nets s).
Proof.
  unfold auto_mode, current_ent_coef.
  destruct (ent_coef_optimizer_ (nets s)), (log_ent_coef_ (nets s));
    first [discriminate|reflexivity].
Qed.

Lemma train_loop_ent_coef_list (E : Env) (t : Tensor) (n : nat) :
  forall step s st s' st',
    train_loop E n step (s, st) = Some (s', st') ->
    auto_mode s = false ->
    ent_coef_tensor_ (nets s) = Some t ->
    ent_coef_list st' = ent_coef_list st ++ replicate n (detach t).
Proof.
  induction n as [|n IH]; intros step s st s' st' H Hauto Ht.
  - injection H as <- <-. simpl. rewrite app_nil_r. reflexivity.
  - apply train_loop_S_inv in H. destruct H as (s1 & st1 & H1 & H).
    pose proof (train_step_frame _ _ _ _ _ _ H1)
      as (_ & _ & _ & Ht1 & _ & Hauto1 & _).
    apply train_step_ent_coef_list in H1. destruct H1 as (ec & Hec & Hl).
    rewrite current_ent_coef_fixed, Ht in Hec by exact Hauto.
    injection Hec as <-.
    rewrite (IH _ _ _ _ _ H); [|congruence|congruence].
    rewrite Hl, <- app_assoc. reflexivity.
Qed.

Lemma Qc_of_Z_succ (n : nat) :
  Qc_of_Z (Z.of_nat (S n)) = (1 + Qc_of_Z (Z.of_nat n))%Qc.
Proof.
  unfold Qc_of_Z. apply Qc_is_canon. simpl.
  rewrite !Qred_correct. unfold inject_Z, Qplus, Qeq. simpl. lia.
Qed.

Lemma Qc_of_Z_pos (n : nat) : Qc_of_Z (Z.of_nat (S n)) <> 0%Qc.
Proof.
  unfold Qc_of_Z. intros H. apply (f_equal this) in H. simpl in H.
  assert (Hq : Qred (inject_Z (Z.of_nat (S n))) == 0%Q) by (rewrite H; reflexivity).
  rewrite Qred_correct in Hq. unfold inject_Z, Qeq in Hq. simpl in Hq. lia.
Qed.

Lemma Qcsum_replicate (n : nat) (x : Qc) :
  Qcsum (replicate n x) = (Qc_of_Z (Z.of_nat n) * x)%Qc.
Proof.
  induction n as [|n IH].
  - replace (Qc_of_Z (Z.of_nat 0)) with 0%Qc
      by (apply Qc_is_canon; reflexivity).
    replace (Qcsum (replicate 0 x)) with 0%Qc
      by (apply Qc_is_canon; reflexivity).
    ring.
  - change (Qcsum (replicate (S n) x)) with (x + Qcsum (replicate n x))%Qc.
    rewrite IH, Qc_of_Z_succ. ring.
Qed.

(** The mean of one or more copies of a value is that value. *)
Lemma Qcmean_replicate (n : nat) (x : Qc) :
  Qcmean (replicate (S n) x) = x.
Proof.
  unfold Qcmean. rewrite Qcsum_replicate, length_replicate.
  field. apply Qc_of_Z_pos.
Qed.

Lemma stack_mean_replicate (n : nat) (x : Qc) (t : Tensor) :
  data t = [x] -> stack_mean (replicate (S n) (detach t)) = Some x.
Proof.
  intros Hd. unfold stack_mean. cbn [replicate].
  change (detach t :: replicate n (detach t))
    with (replicate (S n) (detach t)).
  f_equal.
  assert (Hc : forall k, concat (map data (replicate k (detach t)))
                         = replicate k x).
  { induction k as [|k IHk]; [reflexivity|].
    simpl. rewrite Hd, IHk. reflexivity. }
  rewrite Hc. apply Qcmean_replicate.
Qed.

Lemma write_log_items_no_ent_coef (num_updates : Int) (st : Stats)
    (items : gmap string (option Qc)) :
  ent_coef_list st = [] ->
  is_Some (items !! "ent_coef") ->
  write_log_items num_updates st items = None.
Proof.
  intros Hl Hreg. unfold write_log_items.
  rewrite bool_decide_eq_false_2.
  2:{ intros ->. rewrite lookup_empty in Hreg. destruct Hreg as [x Hx].
      discriminate. }
  destruct (set_log_item "num_updates" _ items) as [items1|] eqn:H1;
    [|reflexivity].
  cbn [mbind option_bind].
  apply set_log_item_spec in H1. destruct H1 as (Hdom & _).
  rewrite (set_log_item_registered "ent_coef" _ items1); [reflexivity| |].
  - apply Hdom. exact Hreg.
  - rewrite Hl. reflexivity.
Qed.

(** X12. In a trainer that is not in auto entropy mode and whose
    [ent_coef_tensor_] holds one value [x], as [Reset] makes it, the log
    item ["ent_coef"] that a call of [Train] writes is [x]: the mean over
    the gradient steps of a coefficient that no step changes. *)
Theorem Train_logs_fixed_ent_coef (E : Env) (s s' : State) (t : Tensor)
    (x : Qc) :
  Train E s = Some s' ->
  auto_mode s = false ->
  ent_coef_tensor_ (nets s) = Some t ->
  data t = [x] ->
  is_Some (log_items_ (rl s) !! "ent_coef") ->
  log_items_ (rl s') !! "ent_coef" = Some (Some x)
  /\ ent_coef_tensor_ (nets s') = Some t.
Proof.
  intros H Hauto Ht Hd Hreg.
  pose proof (Train_inv _ _ _ H)
    as (actor & critic & s1 & st1 & items & Ha & Hc & Hloop & Hw & ->).
  pose proof (train_loop_frame _ _ _ _ _ _ _ Hloop)
    as (Hrl & _ & _ & Ht1 & _).
  apply (train_loop_ent_coef_list E t) in Hloop;
    [|exact Hauto|exact Ht].
  cbn [rl upd_rl upd_nets] in Hrl. rewrite Hrl in Hw.
  pose proof (write_log_items_values _ _ _ _ Hw) as (_ & _ & _ & Hec).
  specialize (Hec Hreg).
  cbn [rl upd_rl log_items_ set_log_items_ nets].
  split; [|rewrite Ht1; exact Ht].
  rewrite Hec. f_equal. rewrite Hloop. cbn [no_stats ent_coef_list app].
  destruct (Z.to_nat (gradient_steps_ (hp s))) as [|n] eqn:Hn.
  - exfalso. cbn [replicate] in Hloop.
    rewrite (write_log_items_no_ent_coef _ _ _ Hloop Hreg) in Hw.
    discriminate Hw.
  - apply stack_mean_replicate. exact Hd.
Qed.

Lemma Train_logs_fixed_ent_coef_witness :
  log_items_ (rl (default fixed_ready (Train Stub.env fixed_ready)))
  !! "ent_coef" = Some (Some (qc 1 5)).
Proof.
  assert (H : Train Stub.env fixed_ready
              = Some (default fixed_ready (Train Stub.env fixed_ready)))
    by (vm_compute; reflexivity).
  assert (Hauto : auto_mode fixed_ready = false)
    by (vm_compute; reflexivity).
  assert (Ht : ent_coef_tensor_ (nets fixed_ready)
               = Some (scalar_tensor (qc 1 5)))
    by (vm_compute; reflexivity).
  assert (Hreg : is_Some (log_items_ (rl fixed_ready) !! "ent_coef"))
    by (vm_compute; eexists; reflexivity).
  exact (proj1 (Train_logs_fixed_ent_coef Stub.env fixed_ready _
                  (scalar_tensor (qc 1 5)) (qc 1 5) H Hauto Ht eq_refl
                  Hreg)).
Defined.

(** *** When [Learn] returns *)

Lemma Learn_loop_returned (E : Env) (fuel : nat) :
  forall s s',
    Learn_loop E fuel s = Returned s' ->
    exists n,
      (n <= fuel)%nat
      /\ Learn_iterations E n s = Some s'
      /\ Proceed s' = false.
Proof.
  induction fuel as [|fuel IH]; intros s s' H; simpl in H.
  - destruct (Proceed s) eqn:Hp; [discriminate H|].
    injection H as <-. exists 0%nat. split; [lia|]. split; [reflexivity|].
    exact Hp.
  - destruct (Proceed s) eqn:Hp.
    + destruct (Learn_iteration E s) as [s1|] eqn:H1; [|discriminate H].
      apply IH in H. destruct H as (n & Hn & Hit & Hp').
      exists (S n). split; [lia|]. split; [|exact Hp'].
      simpl. rewrite Hp, H1. exact Hit.
    + injection H as <-. exists 0%nat. split; [lia|]. split; [reflexivity|].
      exact Hp.
Qed.

(** The loop was entered before each of the iterations made. *)
Lemma Learn_iterations_prefix (E : Env) (n : nat) :
  forall s s' (k : nat),
    Learn_iterations E n s = Some s' -> (k < n)%nat ->
    exists sk, Learn_iterations E k s = Some sk /\ Proceed sk = true.
Proof.
  induction n as [|n IH]; intros s s' k H Hk; [lia|].
  simpl in H. destruct (Proceed s) eqn:Hp; [|discriminate H].
  destruct (Learn_iteration E s) as [s1|] eqn:H1; [|discriminate H].
  cbn [mbind option_bind] in H.
  destruct k as [|k].
  - exists s. split; [reflexivity|exact Hp].
  - destruct (IH _ _ k H ltac:(lia)) as (sk & Hsk & Hpk).
    exists sk. split; [|exact Hpk]. simpl. rewrite Hp, H1. exact Hsk.
Qed.

Lemma Learn_iterations_budget (E : Env) (n : nat) :
  forall s s',
    Learn_iterations E n s = Some s' ->
    max_time_steps_ (rl s') = max_time_steps_ (rl s).
Proof.
  induction n as [|n IH]; intros s s' H; simpl in H.
  - injection H as <-. reflexivity.
  - destruct (Proceed s); [|discriminate H].
    destruct (Learn_iteration E s) as [s1|] eqn:H1; [|discriminate H].
    cbn [mbind option_bind] in H.
    apply Learn_iteration_counters in H1.
    destruct H1 as (_ & _ & _ & _ & Hm). rewrite (IH _ _ H). exact Hm.
Qed.

(** A call of [Learn] that returns has made the least number of iterations
    that brings [time_steps_] to the budget. *)
Lemma Learn_returned_inv (E : Env) (fuel : nat)
    (max_time_steps monitor_interval checkpoint_interval : Int)
    (s s' : State) :
  Learn E fuel max_time_steps monitor_interval checkpoint_interval s
  = Returned s' ->
  exists n,
    (n <= fuel)%nat
    /\ Learn_iterations E n
         (Learn_begin max_time_steps monitor_interval checkpoint_interval s)
       = Some s'
    /\ time_steps_ (rl s')
       = NumEnvs E * Z.max 0 (train_freq_ (hp s)) * Z.of_nat n
    /\ max_time_steps <= time_steps_ (rl s')
    /\ (forall k, (k < n)%nat ->
          NumEnvs E * Z.max 0 (train_freq_ (hp s)) * Z.of_nat k
          < max_time_steps)
    /\ num_iters_ (rl s') = num_iters_ (rl s) + Z.of_nat n
    /\ num_updates_ (rl s')
       = num_updates_ (rl s) + gradient_steps_ (hp s) * Z.of_nat n
    /\ hp s' = hp s.
Proof.
  unfold Learn. intros H. apply Learn_loop_returned in H.
  destruct H as (n & Hn & Hit & Hp).
  exists n. split; [exact Hn|]. split; [exact Hit|].
  pose proof (Learn_iterations_counters _ _ _ _ Hit) as (Hhp & Hts & Hni & Hnu).
  pose proof (Learn_iterations_budget _ _ _ _ Hit) as Hm.
  cbn [Learn_begin upd_rl rl hp time_steps_ max_time_steps_ num_iters_
       num_updates_ set_time_steps_ set_max_time_steps_
       set_monitor_interval_ set_checkpoint_interval_] in Hhp, Hts, Hni, Hnu, Hm.
  split; [rewrite Hts; lia|].
  split.
  { unfold Proceed in Hp. apply bool_decide_eq_false in Hp. rewrite Hm in Hp.
    lia. }
  split.
  { intros k Hk.
    destruct (Learn_iterations_prefix _ _ _ _ k Hit Hk) as (sk & Hsk & Hpk).
    pose proof (Learn_iterations_counters _ _ _ _ Hsk) as (_ & Htk & _).
    pose proof (Learn_iterations_budget _ _ _ _ Hsk) as Hmk.
    cbn [Learn_begin upd_rl rl hp time_steps_ max_time_steps_
         set_time_steps_ set_max_time_steps_ set_monitor_interval_
         set_checkpoint_interval_] in Htk, Hmk.
    unfold Proceed in Hpk. apply bool_decide_eq_true in Hpk.
    rewrite Hmk, Htk in Hpk. lia. }
  split; [exact Hni|]. split; [exact Hnu|exact Hhp].
Qed.

(** X13. A call of [Learn] that returns has made [n] iterations, where [n]
    is the least number for which
    [NumEnvs() * max(train_freq_, 0) * n >= max_time_steps]: [time_steps_]
    is that product, so the budget is reached and exceeded by less than
    one iteration's worth; [num_iters_] has grown by [n] and [num_updates_]
    by [gradient_steps_ * n], neither being reset by [Learn]. *)
Theorem Learn_returns_at_budget (E : Env) (fuel : nat)
    (max_time_steps monitor_interval checkpoint_interval : Int)
    (s s' : State) :
  Learn E fuel max_time_steps monitor_interval checkpoint_interval s
  = Returned s' ->
  exists n,
    Learn_iterations E n
      (Learn_begin max_time_steps monitor_interval checkpoint_interval s)
    = Some s'
    /\ time_steps_ (rl s')
       = NumEnvs E * Z.max 0 (train_freq_ (hp s)) * Z.of_nat n
    /\ max_time_steps <= time_steps_ (rl s')
    /\ (forall k, (k < n)%nat ->
          NumEnvs E * Z.max 0 (train_freq_ (hp s)) * Z.of_nat k
          < max_time_steps)
    /\ num_iters_ (rl s') = num_iters_ (rl s) + Z.of_nat n
    /\ num_updates_ (rl s')
       = num_updates_ (rl s) + gradient_steps_ (hp s) * Z.of_nat n.
Proof.
  intros H. apply Learn_returned_inv in H.
  destruct H as (n & _ & Hit & Hts & Hge & Hlt & Hni & Hnu & _).
  exists n. repeat split; assumption.
Qed.

Lemma Learn_returns_at_budget_witness : 3 <= time_steps_ (rl learned).
Proof.
  assert (H : Learn Stub.env 5 3 0 0 (Reset Stub.env Stub.scenario)
              = Returned learned) by (vm_compute; reflexivity).
  pose proof (Learn_returns_at_budget Stub.env 5 3 0 0
                (Reset Stub.env Stub.scenario) learned H)
    as (n & _ & _ & Hge & _).
  exact Hge.
Defined.

(** X14. When an iteration does not advance [time_steps_], that is when
    [train_freq_] or [NumEnvs()] is 0 or less, a call of [Learn] with a
    positive budget never returns: it runs until an iteration throws. *)
Theorem Learn_never_returns (E : Env) (fuel : nat)
    (max_time_steps monitor_interval checkpoint_interval : Int)
    (s s' : State) :
  NumEnvs E * Z.max 0 (train_freq_ (hp s)) <= 0 ->
  0 < max_time_steps ->
  Learn E fuel max_time_steps monitor_interval checkpoint_interval s
  <> Returned s'.
Proof.
  intros Hd Hm H. apply Learn_returned_inv in H.
  destruct H as (n & _ & _ & Hts & Hge & _).
  rewrite Hts in Hge. nia.
Qed.

Lemma Learn_never_returns_witness :
  Learn Stub.env 5 3 0 0 (Reset Stub.env Stub.negative)
  <> Returned (Reset Stub.env Stub.negative).
Proof.
  apply (Learn_never_returns Stub.env 5 3 0 0).
  - vm_compute. discriminate.
  - lia.
Defined.

(** *** When [SaveArchive] succeeds *)

Lemma save_section_is_Some {A : Type} (names : gset string) (key : string)
    (ptr : option A) (save : A -> SubArchive) (a : gmap string Entry) :
  is_Some (save_section names key ptr save a)
  <-> implb (requested names key) (present ptr) = true.
Proof.
  unfold save_section.
  destruct (requested names key), ptr; simpl; split; intros H;
    first [eexists; reflexivity | reflexivity | discriminate H
          | destruct H as [x H]; discriminate H].
Qed.

Lemma bind_is_Some {A B : Type} (m : option A) (f : A -> option B) :
  is_Some (m ≫= f) <-> exists x, m = Some x /\ is_Some (f x).
Proof.
  destruct m as [x|]; simpl; split.
  - intros H. exists x. split; [reflexivity|exact H].
  - intros (y & Hy & H). injection Hy as <-. exact H.
  - intros [y H]. discriminate H.
  - intros (y & Hy & _). discriminate Hy.
Qed.

(** The last two blocks of [SaveArchive] cannot fail. *)
Lemma save_tail_is_Some (names : gset string) (s : State)
    (a : gmap string Entry) (k : gmap string Entry
                                 -> option (gmap string Entry)) :
  (forall a', is_Some (k a')) ->
  is_Some ((if requested names "ent_coef_optimizer"
               && bool_decide (is_Some (ent_coef_optimizer_ (nets s)))
            then save_section names "ent_coef_optimizer"
                   (ent_coef_optimizer_ (nets s)) optimizer_save a
            else Some a) ≫= k).
Proof.
  intros Hk. unfold save_section.
  destruct (requested names "ent_coef_optimizer"); [|apply Hk].
  destruct (ent_coef_optimizer_ (nets s)) as [o|].
  - rewrite bool_decide_eq_true_2 by (eexists; reflexivity). apply Hk.
  - rewrite bool_decide_eq_false_2 by (intros [x Hx]; discriminate Hx).
    apply Hk.
Qed.

Lemma SaveArchive_is_Some_iff (names : gset string) (s : State)
    (a : gmap string Entry) :
  is_Some (SaveArchive names s a) <-> sections_ready names s = true.
Proof.
  unfold SaveArchive, sections_ready. cbv zeta.
  rewrite !andb_true_iff.
  rewrite bind_is_Some. setoid_rewrite bind_is_Some.
  setoid_rewrite bind_is_Some. setoid_rewrite bind_is_Some.
  setoid_rewrite bind_is_Some.
  split.
  - intros (a1 & H1 & a2 & H2 & a3 & H3 & a4 & H4 & a5 & H5 & _).
    split; [split; [split; [split|]|]|].
    + apply (proj1 (save_section_is_Some names _ _ module_save a)).
      eexists; exact H1.
    + apply (proj1 (save_section_is_Some names _ _ module_save a1)).
      eexists; exact H2.
    + apply (proj1 (save_section_is_Some names _ _ module_save a2)).
      eexists; exact H3.
    + apply (proj1 (save_section_is_Some names _ _ optimizer_save a3)).
      eexists; exact H4.
    + apply (proj1 (save_section_is_Some names _ _ optimizer_save a4)).
      eexists; exact H5.
  - intros ((((H1 & H2) & H3) & H4) & H5).
    apply (save_section_is_Some names _ _ module_save a) in H1.
    destruct H1 as [a1 H1]. exists a1. split; [exact H1|].
    apply (save_section_is_Some names _ _ module_save a1) in H2.
    destruct H2 as [a2 H2]. exists a2. split; [exact H2|].
    apply (save_section_is_Some names _ _ module_save a2) in H3.
    destruct H3 as [a3 H3]. exists a3. split; [exact H3|].
    apply (save_section_is_Some names _ _ optimizer_save a3) in H4.
    destruct H4 as [a4 H4]. exists a4. split; [exact H4|].
    apply (save_section_is_Some names _ _ optimizer_save a4) in H5.
    destruct H5 as [a5 H5]. exists a5. split; [exact H5|].
    apply save_tail_is_Some. intros a'.
    destruct (requested names "hparams"); eexists; reflexivity.
Qed.

(** X15. [SaveArchive] succeeds exactly when each of the sections
    ["actor"], ["critic"], ["critic_target"], ["actor_optimizer"] and
    ["critic_optimizer"] that is requested has its object: those pointers
    are dereferenced unchecked. The section ["ent_coef_optimizer"] is
    skipped when its pointer is null, and writing ["hparams"] needs no
    object. So after [Reset] every selection of sections can be saved, and
    ["hparams"] alone can be saved at any time. *)
Theorem SaveArchive_succeeds_iff (E : Env) (names : gset string) (s : State)
    (a : gmap string Entry) :
  (is_Some (SaveArchive names s a) <-> sections_ready names s = true)
  /\ is_Some (SaveArchive names (Reset E s) a)
  /\ is_Some (SaveArchive {["hparams"]} s a).
Proof.
  split; [apply SaveArchive_is_Some_iff|]. split.
  - apply SaveArchive_is_Some_iff.
    destruct (Reset_state E s) as (_ & Ha & Hc & Hct & Hao & Hco & _).
    unfold sections_ready. rewrite Ha, Hc, Hct, Hao, Hco.
    rewrite !implb_true_r. reflexivity.
  - apply SaveArchive_is_Some_iff. unfold sections_ready.
    rewrite (requested_other "actor"), (requested_other "critic"),
      (requested_other "critic_target"), (requested_other "actor_optimizer"),
      (requested_other "critic_optimizer") by discriminate.
    reflexivity.
Qed.

(** *** [Learn] runs to its end *)











(** *** What [SaveArchive] writes *)

Lemma put_lookup (key : string) (e : option Entry) (a : gmap string Entry)
    (k : string) :
  put key e a !! k
  = if bool_decide (k = key) then from_option Some (a !! k) e else a !! k.
Proof.
  unfold put, write. destruct e as [e|]; simpl.
  - case_bool_decide as Hk.
    + subst k. apply lookup_insert_eq.
    + apply lookup_insert_ne. congruence.
  - case_bool_decide; reflexivity.
Qed.

Lemma written_not_in (k : string) (l : list (string * option Entry)) :
  k ∉ l.*1 -> written k l = None.
Proof.
  induction l as [|[k' e] l IH]; intros Hk; [reflexivity|].
  simpl. rewrite bool_decide_eq_false_2.
  - apply IH. intros Hin. apply Hk. simpl. right. exact Hin.
  - intros ->. apply Hk. simpl. left.
Qed.

Lemma foldl_put_lookup (l : list (string * option Entry)) :
  forall (a0 : gmap string Entry) (k : string),
    NoDup l.*1 ->
    foldl (fun acc kv => put kv.1 kv.2 acc) a0 l !! k
    = from_option Some (a0 !! k) (written k l).
Proof.
  induction l as [|[k' e] l IH]; intros a0 k Hnd; [reflexivity|].
  simpl in Hnd. apply list.NoDup_cons in Hnd.
  destruct Hnd as [Hk' Hnd].
  simpl. rewrite IH by exact Hnd. rewrite put_lookup.
  case_bool_decide as Hk.
  - subst k'. rewrite (written_not_in k l Hk'). reflexivity.
  - reflexivity.
Qed.

Lemma save_section_put {A : Type} (names : gset string) (key : string)
    (ptr : option A) (save : A -> SubArchive) (a a' : gmap string Entry) :
  save_section names key ptr save a = Some a' ->
  a' = put key (if requested names key then ESub ∘ save <$> ptr else None) a.
Proof.
  unfold save_section. destruct (requested names key).
  - destruct ptr as [x|]; [|discriminate]. intros H. injection H as <-.
    reflexivity.
  - intros H. injection H as <-. reflexivity.
Qed.

Lemma SaveArchive_fold (names : gset string) (s : State)
    (a0 a : gmap string Entry) :
  SaveArchive names s a0 = Some a ->
  a = foldl (fun acc kv => put kv.1 kv.2 acc) a0 (saved_entries names s).
Proof.
  unfold SaveArchive. cbv zeta. intros H.
  destruct (save_section names "actor" _ _ a0) as [a1|] eqn:H1;
    [|discriminate H]. cbn [mbind option_bind] in H.
  destruct (save_section names "critic" _ _ a1) as [a2|] eqn:H2;
    [|discriminate H]. cbn [mbind option_bind] in H.
  destruct (save_section names "critic_target" _ _ a2) as [a3|] eqn:H3;
    [|discriminate H]. cbn [mbind option_bind] in H.
  destruct (save_section names "actor_optimizer" _ _ a3) as [a4|] eqn:H4;
    [|discriminate H]. cbn [mbind option_bind] in H.
  destruct (save_section names "critic_optimizer" _ _ a4) as [a5|] eqn:H5;
    [|discriminate H]. cbn [mbind option_bind] in H.
  apply save_section_put in H1, H2, H3, H4, H5.
  assert (H6 : exists a6,
             (if requested names "ent_coef_optimizer"
                 && bool_decide (is_Some (ent_coef_optimizer_ (nets s)))
              then save_section names "ent_coef_optimizer"
                     (ent_coef_optimizer_ (nets s)) optimizer_save a5
              else Some a5) = Some a6
             /\ a6 = put "ent_coef_optimizer"
                       (if requested names "ent_coef_optimizer"
                        then ESub ∘ optimizer_save
                               <$> ent_coef_optimizer_ (nets s)
                        else None) a5).
  { unfold save_section.
    destruct (requested names "ent_coef_optimizer");
      [|eexists; split; reflexivity].
    destruct (ent_coef_optimizer_ (nets s)) as [o|].
    - rewrite bool_decide_eq_true_2 by (eexists; reflexivity).
      eexists; split; reflexivity.
    - rewrite bool_decide_eq_false_2 by (intros [x Hx]; discriminate Hx).
      eexists; split; reflexivity. }
  destruct H6 as (a6 & H6 & E6). rewrite H6 in H.
  cbn [mbind option_bind] in H.
  unfold saved_entries. cbv zeta. cbn [app foldl fst snd].
  rewrite <- H1, <- H2, <- H3, <- H4, <- H5, <- E6.
  destruct (requested names "hparams").
  - injection H as <-. unfold hparams_entries. cbn [map app foldl fst snd].
    unfold put at 1 2. unfold write_if_defined.
    destruct (ent_coef_tensor_ (nets s)), (log_ent_coef_ (nets s));
      reflexivity.
  - injection H as <-. reflexivity.
Qed.

Lemma saved_entries_NoDup (names : gset string) (s : State) :
  NoDup (saved_entries names s).*1.
Proof.
  unfold saved_entries. cbv zeta.
  destruct (requested names "hparams");
    apply (bool_decide_unpack _); vm_compute; exact I.
Qed.

Lemma SaveArchive_lookup (names : gset string) (s : State)
    (a0 a : gmap string Entry) (k : string) :
  SaveArchive names s a0 = Some a ->
  a !! k = from_option Some (a0 !! k) (written k (saved_entries names s)).
Proof.
  intros H. rewrite (SaveArchive_fold _ _ _ _ H).
  apply foldl_put_lookup, saved_entries_NoDup.
Qed.



(** *** Loading what was saved *)

Ltac saved_lookup H :=
  rewrite (SaveArchive_lookup _ _ _ _ _ H);
  unfold saved_entries, hparams_entries; cbv zeta;
  destruct (requested _ "hparams");
  cbn [app map written fst snd]; decide_names;
  rewrite ?lookup_empty; try reflexivity.

Lemma SaveArchive_sections (names : gset string) (s : State)
    (a : gmap string Entry) :
  SaveArchive names s ∅ = Some a ->
  a !! "actor"
  = (if requested names "actor"
     then ESub ∘ module_save <$> actor_ (nets s) else None)
  /\ a !! "critic"
     = (if requested names "critic"
        then ESub ∘ module_save <$> critic_ (nets s) else None)
  /\ a !! "critic_target"
     = (if requested names "critic_target"
        then ESub ∘ module_save <$> critic_target_ (nets s) else None)
  /\ a !! "actor_optimizer"
     = (if requested names "actor_optimizer"
        then ESub ∘ optimizer_save <$> actor_optimizer_ (nets s) else None)
  /\ a !! "critic_optimizer"
     = (if requested names "critic_optimizer"
        then ESub ∘ optimizer_save <$> critic_optimizer_ (nets s) else None)
  /\ a !! "ent_coef_optimizer"
     = (if requested names "ent_coef_optimizer"
        then ESub ∘ optimizer_save <$> ent_coef_optimizer_ (nets s)
        else None).
Proof.
  intros H.
  repeat split; saved_lookup H;
    match goal with
    | |- from_option _ _ ?e = _ => destruct e; reflexivity
    end.
Qed.




Lemma load_tensor_none (a : gmap string Entry) (key : string)
    (t : option Tensor) :
  a !! key = None -> load_tensor a key t = t.
Proof. unfold load_tensor, try_read_tensor. intros ->. reflexivity. Qed.








Lemma requested_all (key : string) : requested {["all"]} key = true.
Proof.
  unfold requested. rewrite (bool_decide_eq_true_2 ("all" ∈ _)) by set_solver.
  reflexivity.
Qed.





(** *** When the log and the checkpoints are written *)

Lemma Monitor_outputs (s : State) :
  console_ (world (Monitor s))
  = console_ (world s)
    ++ (if fires (monitor_interval_ (rl s)) (num_iters_ (rl s))
        then [Header (column_names (log_items_ (rl s))); log_row s] else [])
  /\ log_txt_ (world (Monitor s))
     = log_txt_ (world s)
       ++ (if fires (monitor_interval_ (rl s)) (num_iters_ (rl s))
              && negb (bool_decide (output_path_ (rl s) = ""))
           then [log_row s] else []).
Proof.
  unfold Monitor, fires. cbv zeta.
  destruct (bool_decide (monitor_interval_ (rl s) <= 0)
            || negb (bool_decide (Z.rem (num_iters_ (rl s))
                                    (monitor_interval_ (rl s)) = 0)));
    cbn [negb andb].
  - rewrite !app_nil_r. split; reflexivity.
  - destruct (bool_decide (output_path_ (rl s) = "")); cbn [negb];
      [rewrite app_nil_r|]; split; reflexivity.
Qed.

Lemma SaveArchive_full (s : State) (a : gmap string Entry) :
  SaveArchive {["all"]} s ∅ = Some a -> full_checkpoint (hp s) a.
Proof.
  intros H. split.
  - pose proof (proj1 (SaveArchive_is_Some_iff _ s ∅) (ex_intro _ a H))
      as Hready.
    unfold sections_ready in Hready. rewrite !requested_all in Hready.
    rewrite !andb_true_iff in Hready. cbn [implb] in Hready.
    destruct Hready as ((((R1 & R2) & R3) & R4) & R5).
    destruct (SaveArchive_sections _ _ _ H) as (L1 & L2 & L3 & L4 & L5 & _).
    rewrite requested_all in L1, L2, L3, L4, L5.
    unfold object_sections.
    destruct (actor_ (nets s)); [|discriminate R1].
    destruct (critic_ (nets s)); [|discriminate R2].
    destruct (critic_target_ (nets s)); [|discriminate R3].
    destruct (actor_optimizer_ (nets s)); [|discriminate R4].
    destruct (critic_optimizer_ (nets s)); [|discriminate R5].
    repeat constructor; eexists; eassumption.
  - exact (SaveArchive_hparams _ _ _ _ (requested_all "hparams") H).
Qed.

Lemma Checkpoint_outputs (E : Env) (s s' : State) :
  Checkpoint E s = Some s' ->
  exists new,
    checkpoints_ (world s') = checkpoints_ (world s) ++ new
    /\ length new
       = (if fires (checkpoint_interval_ (rl s)) (num_iters_ (rl s))
             && negb (bool_decide (output_path_ (rl s) = ""))
          then 1 else 0)%nat
    /\ Forall (full_checkpoint (hp s)) new.
Proof.
  unfold Checkpoint, fires. cbv zeta. intros H.
  destruct (bool_decide (checkpoint_interval_ (rl s) <= 0)
            || negb (bool_decide (Z.rem (num_iters_ (rl s))
                                    (checkpoint_interval_ (rl s)) = 0)));
    cbn [negb andb].
  - injection H as <-. exists []. rewrite app_nil_r.
    split; [reflexivity|]. split; [reflexivity|constructor].
  - destruct (bool_decide (output_path_ (rl s) = "")); cbn [negb].
    + injection H as <-. exists []. rewrite app_nil_r.
      split; [reflexivity|]. split; [reflexivity|constructor].
    + destruct (SaveArchive {["all"]} s ∅) as [a|] eqn:Ha; [|discriminate H].
      injection H as <-. exists [a].
      split; [reflexivity|]. split; [reflexivity|].
      constructor; [|constructor]. exact (SaveArchive_full _ _ Ha).
Qed.

(** What one iteration adds to the outputs. *)
Lemma Learn_iteration_outputs (E : Env) (s s' : State) :
  Learn_iteration E s = Some s' ->
  let ts := time_steps_ (rl s) + NumEnvs E * Z.max 0 (train_freq_ (hp s)) in
  let mon := fires (monitor_interval_ (rl s)) (num_iters_ (rl s)) in
  let file := negb (bool_decide (output_path_ (rl s) = "")) in
  row_time_steps (console_ (world s'))
  = row_time_steps (console_ (world s)) ++ (if mon then [ts] else [])
  /\ row_time_steps (log_txt_ (world s'))
     = row_time_steps (log_txt_ (world s))
       ++ (if mon && file then [ts] else [])
  /\ (exists new,
         checkpoints_ (world s') = checkpoints_ (world s) ++ new
         /\ length new
            = (if fires (checkpoint_interval_ (rl s)) (num_iters_ (rl s))
                  && file then 1 else 0)%nat
         /\ Forall (full_checkpoint (hp s)) new)
  /\ monitor_interval_ (rl s') = monitor_interval_ (rl s)
  /\ checkpoint_interval_ (rl s') = checkpoint_interval_ (rl s)
  /\ output_path_ (rl s') = output_path_ (rl s).
Proof.
  intros H ts mon file. apply Learn_iteration_inv in H.
  destruct H as (s1 & s2 & s3 & Hc & Ht & Hk & ->).
  apply CollectRollouts_stored in Hc.
  destruct Hc as ((Hrl1 & Hhp1 & _ & _ & _ & _ & _ & _ & _ & _ & _ & Hlog1
                   & Hcon1 & Hck1 & _) & Hts1 & _).
  apply Train_spec in Ht.
  destruct Ht as (Hhp2 & (st & items & _ & Hrl2) & _ & _ & _ & _ & Hlog2
                  & Hcon2 & Hck2).
  destruct (Monitor_spec s2) as (Hrlm & Hhpm & _ & Hckm & _).
  destruct (Monitor_outputs s2) as (Hconm & Hlogm).
  pose proof (Checkpoint_spec _ _ _ Hk) as (Hrl3 & _ & _ & Hlog3 & Hcon3).
  apply Checkpoint_outputs in Hk. destruct Hk as (new & Hck3 & Hlen & Hfull).
  pose proof (f_equal num_iters_ Hrl1) as Hni.
  pose proof (f_equal monitor_interval_ Hrl1) as Hmi.
  pose proof (f_equal checkpoint_interval_ Hrl1) as Hci.
  pose proof (f_equal output_path_ Hrl1) as Hop.
  cbn [num_iters_ monitor_interval_ checkpoint_interval_ output_path_
       set_time_steps_] in Hni, Hmi, Hci, Hop.
  assert (Hts2 : time_steps_ (rl s2) = ts).
  { rewrite Hrl2. cbn [time_steps_ set_log_items_ set_num_updates_].
    rewrite Hts1. unfold ts. f_equal. f_equal. lia. }
  assert (Hni2 : num_iters_ (rl s2) = num_iters_ (rl s)).
  { rewrite Hrl2. exact Hni. }
  assert (Hmi2 : monitor_interval_ (rl s2) = monitor_interval_ (rl s)).
  { rewrite Hrl2. exact Hmi. }
  assert (Hci2 : checkpoint_interval_ (rl s2) = checkpoint_interval_ (rl s)).
  { rewrite Hrl2. exact Hci. }
  assert (Hop2 : output_path_ (rl s2) = output_path_ (rl s)).
  { rewrite Hrl2. exact Hop. }
  rewrite Hrlm, Hni2, Hci2, Hop2 in Hlen.
  rewrite Hhpm, Hhp2, Hhp1 in Hfull.
  rewrite Hni2, Hmi2 in Hconm. rewrite Hni2, Hmi2, Hop2 in Hlogm.
  fold mon in Hconm, Hlogm. fold file in Hlogm, Hlen.
  cbn [Update world rl upd_rl monitor_interval_ checkpoint_interval_
       output_path_ set_num_iters_].
  rewrite Hcon3, Hlog3, Hck3, Hconm, Hlogm, Hckm, Hcon2, Hlog2, Hck2, Hcon1,
    Hlog1, Hck1, Hrl3, Hrlm, Hmi2, Hci2, Hop2.
  unfold row_time_steps. rewrite !omap_app. unfold log_row. rewrite Hts2.
  split; [destruct mon; reflexivity|].
  split; [destruct (mon && file); reflexivity|].
  split; [exists new; repeat split; assumption|].
  repeat split.
Qed.

Lemma scheduled_succ (interval first : Int) (n : nat) :
  scheduled interval first (S n)
  = (if fires interval first then [first] else [])
    ++ scheduled interval (first + 1) n.
Proof.
  unfold scheduled. rewrite seqZ_succ_front, filter_cons.
  destruct (fires interval first); case_decide; try reflexivity;
    congruence.
Qed.

Lemma scheduled_from (interval first : Int) (n : nat) (k : Int) :
  k ∈ scheduled interval first n -> first <= k.
Proof.
  unfold scheduled. intros H. apply list_elem_of_filter in H.
  destruct H as (_ & H). apply elem_of_seqZ in H. lia.
Qed.

(** What [n] iterations add to the outputs. *)
Lemma Learn_iterations_outputs (E : Env) (n : nat) :
  forall s s',
    Learn_iterations E n s = Some s' ->
    let at_ := fun k => time_steps_ (rl s)
                        + NumEnvs E * Z.max 0 (train_freq_ (hp s))
                          * (k - num_iters_ (rl s) + 1) in
    let mon := scheduled (monitor_interval_ (rl s)) (num_iters_ (rl s)) n in
    let ckp := scheduled (checkpoint_interval_ (rl s)) (num_iters_ (rl s)) n
    in
    row_time_steps (console_ (world s'))
    = row_time_steps (console_ (world s)) ++ map at_ mon
    /\ row_time_steps (log_txt_ (world s'))
       = row_time_steps (log_txt_ (world s))
         ++ (if bool_decide (output_path_ (rl s) = "") then []
             else map at_ mon)
    /\ exists new,
         checkpoints_ (world s') = checkpoints_ (world s) ++ new
         /\ length new
            = (if bool_decide (output_path_ (rl s) = "") then 0%nat
               else length ckp)
         /\ Forall (full_checkpoint (hp s)) new.
Proof.
  induction n as [|n IH]; intros s s' H; cbv zeta.
  - injection H as <-. cbn [scheduled]. unfold scheduled.
    change (seqZ (num_iters_ (rl s)) (Z.of_nat 0)) with (@nil Z).
    cbn [filter list_filter map].
    split; [rewrite app_nil_r; reflexivity|].
    split; [destruct (bool_decide _); rewrite app_nil_r; reflexivity|].
    exists []. rewrite app_nil_r. split; [reflexivity|].
    split; [destruct (bool_decide _); reflexivity|constructor].
  - simpl in H. destruct (Proceed s); [|discriminate H].
    destruct (Learn_iteration E s) as [s1|] eqn:H1; [|discriminate H].
    cbn [mbind option_bind] in H.
    pose proof (Learn_iteration_counters _ _ _ H1)
      as (Hhp & Hts & Hni & _ & _).
    apply Learn_iteration_outputs in H1. cbv zeta in H1.
    destruct H1 as (Hcon1 & Hlog1 & (new1 & Hck1 & Hlen1 & Hfull1) & Hmi & Hci
                    & Hop).
    apply IH in H. cbv zeta in H.
    destruct H as (Hcon & Hlog & new & Hck & Hlen & Hfull).
    rewrite Hhp, Hts, Hni, Hmi, Hci, Hop in *.
    rewrite !scheduled_succ.
    assert (Hat : forall l,
               map (fun k => time_steps_ (rl s)
                             + NumEnvs E * Z.max 0 (train_freq_ (hp s))
                             + NumEnvs E * Z.max 0 (train_freq_ (hp s))
                               * (k - (num_iters_ (rl s) + 1) + 1)) l
               = map (fun k => time_steps_ (rl s)
                               + NumEnvs E * Z.max 0 (train_freq_ (hp s))
                                 * (k - num_iters_ (rl s) + 1)) l).
    { intros l. apply map_ext. intros k. ring. }
    rewrite Hat in Hcon, Hlog.
    assert (Hfirst : time_steps_ (rl s)
                     + NumEnvs E * Z.max 0 (train_freq_ (hp s))
                       * (num_iters_ (rl s) - num_iters_ (rl s) + 1)
                     = time_steps_ (rl s)
                       + NumEnvs E * Z.max 0 (train_freq_ (hp s)))
      by ring.
    split; [|split].
    + rewrite Hcon, Hcon1, map_app, <- app_assoc. do 2 f_equal.
      destruct (fires (monitor_interval_ (rl s)) (num_iters_ (rl s)));
        cbn [map]; [rewrite Hfirst|]; reflexivity.
    + rewrite Hlog, Hlog1, <- app_assoc. f_equal.
      destruct (bool_decide (output_path_ (rl s) = "")); cbn [negb].
      * rewrite andb_false_r. reflexivity.
      * rewrite andb_true_r, map_app. f_equal.
        destruct (fires (monitor_interval_ (rl s)) (num_iters_ (rl s)));
          cbn [map]; [rewrite Hfirst|]; reflexivity.
    + exists (new1 ++ new). split; [|split].
      * rewrite Hck, Hck1, app_assoc. reflexivity.
      * rewrite length_app, Hlen, Hlen1.
        destruct (bool_decide (output_path_ (rl s) = "")); cbn [negb].
        -- rewrite andb_false_r. reflexivity.
        -- rewrite andb_true_r, length_app.
           destruct (fires (checkpoint_interval_ (rl s)) (num_iters_ (rl s)));
             reflexivity.
      * apply Forall_app. split; assumption.
Qed.

(** X20. Over [n] iterations of [Learn], [Monitor] prints the log items
    at the iterations whose number [num_iters_] is a multiple of a positive
    [monitor_interval_], the first one after [Reset] included, and at no
    others; each time it prints the time steps reached after the rollouts
    of that iteration. It appends the same lines to the log file when the
    output path is not empty, and writes no file otherwise. *)
Theorem Monitor_schedule (E : Env) (n : nat) (s s' : State) :
  Learn_iterations E n s = Some s' ->
  row_time_steps (console_ (world s'))
  = row_time_steps (console_ (world s))
    ++ map (fun k => time_steps_ (rl s)
                     + NumEnvs E * Z.max 0 (train_freq_ (hp s))
                       * (k - num_iters_ (rl s) + 1))
           (scheduled (monitor_interval_ (rl s)) (num_iters_ (rl s)) n)
  /\ row_time_steps (log_txt_ (world s'))
     = row_time_steps (log_txt_ (world s))
       ++ (if bool_decide (output_path_ (rl s) = "") then []
           else map (fun k => time_steps_ (rl s)
                              + NumEnvs E * Z.max 0 (train_freq_ (hp s))
                                * (k - num_iters_ (rl s) + 1))
                    (scheduled (monitor_interval_ (rl s))
                       (num_iters_ (rl s)) n))
  /\ (monitor_interval_ (rl s) <= 0 ->
      console_ (world s') = console_ (world s)
      /\ log_txt_ (world s') = log_txt_ (world s)).
Proof.
  intros H. pose proof (Learn_iterations_outputs _ _ _ _ H) as Hout.
  cbv zeta in Hout. destruct Hout as (Hcon & Hlog & _).
  split; [exact Hcon|]. split; [exact Hlog|].
  intros Hoff. clear Hcon Hlog. revert s s' H Hoff.
  induction n as [|n IH]; intros s s' H Hoff; simpl in H.
  - injection H as <-. split; reflexivity.
  - destruct (Proceed s); [|discriminate H].
    destruct (Learn_iteration E s) as [s1|] eqn:H1; [|discriminate H].
    cbn [mbind option_bind] in H.
    pose proof (Learn_iteration_outputs _ _ _ H1) as Hout.
    cbv zeta in Hout. destruct Hout as (_ & _ & _ & Hmi & _).
    apply Learn_iteration_inv in H1.
    destruct H1 as (t1 & t2 & t3 & Hc & Ht & Hk & ->).
    apply CollectRollouts_stored in Hc.
    destruct Hc as ((Hrl1 & _ & _ & _ & _ & _ & _ & _ & _ & _ & _ & Hlog1
                     & Hcon1 & _) & _).
    apply Train_spec in Ht.
    destruct Ht as (_ & (st & items & _ & Hrl2) & _ & _ & _ & _ & Hlog2
                    & Hcon2 & _).
    pose proof (Checkpoint_spec _ _ _ Hk) as (_ & _ & _ & Hlog3 & Hcon3).
    assert (Hm : Monitor t2 = t2).
    { unfold Monitor. rewrite Hrl2.
      cbn [monitor_interval_ set_log_items_ set_num_updates_].
      pose proof (f_equal monitor_interval_ Hrl1) as Hmi1.
      cbn [monitor_interval_ set_time_steps_] in Hmi1. rewrite Hmi1.
      rewrite bool_decide_eq_true_2 by exact Hoff. reflexivity. }
    rewrite Hm in Hlog3, Hcon3.
    destruct (IH _ _ H) as (Hc' & Hl').
    { rewrite Hmi. exact Hoff. }
    rewrite Hc', Hl'. cbn [Update world upd_rl].
    rewrite Hcon3, Hlog3, Hcon2, Hlog2, Hcon1, Hlog1. split; reflexivity.
Qed.

Lemma Monitor_schedule_witness :
  row_time_steps (console_ (world monitored)) = [1; 3].
Proof.
  assert (H : Learn_iterations Stub.env 3
                (Learn_begin 3 2 0 (Reset Stub.env Stub.scenario))
              = Some monitored) by (vm_compute; reflexivity).
  rewrite (proj1 (Monitor_schedule Stub.env 3 _ _ H)).
  vm_compute. reflexivity.
Defined.



(** *** The values of the losses *)

Lemma map_zip_with_sq (a b : list Qc) :
  map (fun x => (x * x)%Qc) (zip_with Qcminus a b)
  = zip_with (fun x y => ((x - y) * (x - y))%Qc) a b.
Proof.
  revert b. induction a as [|x a IH]; intros [|y b]; simpl;
    try reflexivity.
  rewrite IH. reflexivity.
Qed.

Lemma mse_loss_data (g : bool) (a b : Tensor) :
  length (data a) = length (data b) ->
  data (mse_loss g a b) = [mse (data a) (data b)].
Proof.
  intros Hlen. unfold mse_loss, tmean, tsquare, tsub, tmap, tbin, mse.
  cbn [data]. rewrite bcast_same_length by exact Hlen.
  rewrite map_zip_with_sq. reflexivity.
Qed.

Lemma critic_loss_fold (target : Tensor) (qs : list Tensor) :
  forall (acc : Tensor) (x : Qc),
    data acc = [x] ->
    Forall (fun q => length (data q) = length (data target)) qs ->
    data (foldl (fun l q => tadd true l (mse_loss true q target)) acc qs)
    = [(x + Qcsum (map (fun q => mse (data q) (data target)) qs))%Qc].
Proof.
  induction qs as [|q qs IH]; intros acc x Hacc Hall.
  - simpl. rewrite Hacc. f_equal. unfold Qcsum. simpl.
    change (qc 0 1) with 0%Qc. ring.
  - apply list.Forall_cons in Hall. destruct Hall as [Hq Hall].
    cbn [foldl].
    rewrite (IH _ (x + mse (data q) (data target))%Qc); [|..|exact Hall].
    + f_equal.
      change (Qcsum (map (fun q0 => mse (data q0) (data target)) (q :: qs)))
        with (mse (data q) (data target)
              + Qcsum (map (fun q0 => mse (data q0) (data target)) qs))%Qc.
      ring.
    + unfold tadd, tbin. cbn [data]. rewrite Hacc.
      rewrite (mse_loss_data _ _ _ Hq). reflexivity.
Qed.

Lemma critic_loss_data (E : Env) (leaf : Leaf) (critic : Module)
    (obs : list Qc) (act target : Tensor) :
  Forall (fun o => length o = length (data target))
         (Forward E critic obs (data act)) ->
  data (critic_loss_of (critic_forward E true leaf critic obs act) target)
  = [ensemble_mse (Forward E critic obs (data act)) (data target)].
Proof.
  intros Hall. unfold critic_loss_of, tmap. cbn [data].
  rewrite (critic_loss_fold _ _ _ (qc 0 1)).
  - unfold critic_forward, ensemble_mse. cbn [map].
    rewrite !length_map, map_map. cbn [data]. f_equal.
    change (qc 0 1) with 0%Qc. rewrite Qcplus_0_l. reflexivity.
  - reflexivity.
  - unfold critic_forward. apply Forall_forall. intros q Hq.
    apply in_map_iff in Hq. destruct Hq as (o & <- & Ho). cbn [data].
    revert o Ho. apply Forall_forall. exact Hall.
Qed.

Lemma Qc_sq_nonneg (x : Qc) : (0 <= x * x)%Qc.
Proof.
  unfold Qcle, Qcmult. cbn [this Q2Qc]. rewrite !Qred_correct.
  unfold Qle, Qmult. simpl. nia.
Qed.

Lemma Qcsum_nonneg (l : list Qc) :
  Forall (fun x => (0 <= x)%Qc) l -> (0 <= Qcsum l)%Qc.
Proof.
  induction 1 as [|x l Hx Hl IH].
  - unfold Qcsum. simpl. apply Qcle_refl.
  - change (Qcsum (x :: l)) with (x + Qcsum l)%Qc.
    replace 0%Qc with (0 + 0)%Qc by ring.
    apply Qcplus_le_compat; assumption.
Qed.

Lemma Qc_of_nat_nonneg (n : nat) : (0 <= Qc_of_Z (Z.of_nat n))%Qc.
Proof.
  unfold Qcle, Qc_of_Z. cbn [this Q2Qc]. rewrite !Qred_correct.
  unfold Qle, inject_Z. simpl. lia.
Qed.

Lemma Qcdiv_nonneg (x y : Qc) : (0 <= x)%Qc -> (0 <= y)%Qc -> (0 <= x / y)%Qc.
Proof.
  unfold Qcle, Qcdiv, Qcmult, Qcinv. cbn [this Q2Qc]. intros Hx Hy.
  rewrite !Qred_correct.
  apply Qmult_le_0_compat; [exact Hx|].
  apply Qinv_le_0_compat. exact Hy.
Qed.

Lemma mse_nonneg (a b : list Qc) : (0 <= mse a b)%Qc.
Proof.
  unfold mse, Qcmean. apply Qcdiv_nonneg; [|apply Qc_of_nat_nonneg].
  apply Qcsum_nonneg. revert b.
  induction a as [|x a IH]; intros [|y b]; simpl; constructor.
  - apply Qc_sq_nonneg.
  - apply IH.
Qed.

Lemma ensemble_mse_nonneg (outs : list (list Qc)) (target : list Qc) :
  (0 <= ensemble_mse outs target)%Qc.
Proof.
  unfold ensemble_mse. apply Qcdiv_nonneg; [|apply Qc_of_nat_nonneg].
  apply Qcsum_nonneg. apply Forall_forall. intros x Hx.
  apply in_map_iff in Hx. destruct Hx as (o & <- & _). apply mse_nonneg.
Qed.

Lemma critic_phase_loss (E : Env) step batch target s st s2 st2 :
  critic_phase E step batch target s st = Some (s2, st2) ->
  exists critic copt,
    critic_ (nets s) = Some critic
    /\ critic_optimizer_ (nets s) = Some copt
    /\ trace_ (world s2)
       = trace_ (world s)
         ++ [EvCriticStep step
               (critic_loss_of
                  (critic_forward E true LCritic critic (observation batch)
                     (plain (action batch))) target)]
    /\ critic_ (nets s2)
       = Some (mkModule
                 (update_in_place
                    (adam_step E copt
                       (critic_grad E critic batch (data target))).2
                    (params critic))
                 (buffers critic) (training critic))
    /\ critic_loss_list st2
       = critic_loss_list st
         ++ [detach
               (critic_loss_of
                  (critic_forward E true LCritic critic (observation batch)
                     (plain (action batch))) target)]
    /\ actor_loss_list st2 = actor_loss_list st.
Proof.
  unfold critic_phase. intros H.
  destruct (critic_ (nets s)) as [critic|] eqn:Hc; [|discriminate H].
  cbn [mbind option_bind] in H.
  destruct (stack_min true _) as [m|]; [|discriminate H].
  cbn [fmap option_fmap option_map mbind option_bind] in H.
  destruct (critic_optimizer_ (nets s)) as [copt|] eqn:Ho; [|discriminate H].
  cbn [mbind option_bind] in H.
  destruct (adam_step E copt _) as [opt' upd] eqn:Hstep.
  injection H as <- <-. exists critic, copt.
  split; [reflexivity|]. split; [reflexivity|]. split; [reflexivity|].
  rewrite Hstep. repeat split; reflexivity.
Qed.

Lemma actor_phase_loss (E : Env) step batch noise a lp ec s st s2 st2 :
  actor_phase E step batch noise a lp ec s st = Some (s2, st2) ->
  exists critic min_q,
    critic_ (nets s) = Some critic
    /\ stack_min true
         (critic_forward E true LCritic critic (observation batch) a)
       = Some min_q
    /\ trace_ (world s2)
       = trace_ (world s)
         ++ [EvActorStep step
               (tmean true (tsub true (tmul true ec lp) min_q))]
    /\ critic_ (nets s2) = Some critic
    /\ actor_loss_list st2
       = actor_loss_list st
         ++ [detach (tmean true (tsub true (tmul true ec lp) min_q))]
    /\ critic_loss_list st2 = critic_loss_list st.
Proof.
  unfold actor_phase. intros H.
  destruct (critic_ (nets s)) as [critic|] eqn:Hc; [|discriminate H].
  cbn [mbind option_bind] in H.
  destruct (stack_min true _) as [m|] eqn:Hm; [|discriminate H].
  cbn [mbind option_bind] in H.
  destruct (actor_ (nets s)) as [actor|]; [|discriminate H].
  cbn [mbind option_bind] in H.
  destruct (actor_optimizer_ (nets s)) as [aopt|]; [|discriminate H].
  cbn [mbind option_bind] in H.
  destruct (adam_step E aopt _) as [opt' upd] eqn:Hstep.
  injection H as <- <-. exists critic, m.
  split; [reflexivity|]. split; [exact Hm|]. split; [reflexivity|].
  cbn [nets emit upd_world upd_nets critic_ set_actor_ set_actor_optimizer_].
  split; [exact Hc|]. split; reflexivity.
Qed.

Lemma ent_coef_phase_optimizers (E : Env) step lp s st s1 st1 ec :
  ent_coef_phase E step lp s st = Some (s1, st1, ec) ->
  critic_optimizer_ (nets s1) = critic_optimizer_ (nets s)
  /\ hp s1 = hp s
  /\ critic_loss_list st1 = critic_loss_list st
  /\ actor_loss_list st1 = actor_loss_list st.
Proof.
  unfold ent_coef_phase. intros H.
  destruct (ent_coef_optimizer_ (nets s)) as [opt|] eqn:Hopt;
    destruct (log_ent_coef_ (nets s)) as [lec|] eqn:Hlec;
    try destruct (adam_step E opt _) as [opt' upd] eqn:Hstep;
    simplify_option_eq; repeat split; reflexivity.
Qed.

(** X22. In a gradient step of [Train] that completes, the loss given to
    the critic optimizer is computed from the critic as it is before the
    step, on the observations and the actions of the batch, against the
    target of this step; the loss given to the actor optimizer is the mean
    of [ent_coef * log_prob - min_q], where the actions and [log_prob] were
    sampled at the start of the step, [ent_coef] is the coefficient the
    target was computed with, and [min_q] comes from the critic after its
    optimizer step. Both losses are appended, detached, to the lists the
    log items are averaged from. When every member of the ensemble returns
    as many values as the target has, the critic loss is the mean over the
    members of their mean squared difference with the target, hence not
    negative. *)
Theorem gradient_step_losses (E : Env) (step : Int) (s s' : State)
    (st st' : Stats) :
  train_step E step (s, st) = Some (s', st') ->
  exists rb batch actor critic copt ct ec target min_q,
    replay_buffer_ (nets s) = Some rb
    /\ Sample E rb (batch_size_ (hp s)) (rng_ (world s)) = Some batch
    /\ actor_ (nets s) = Some actor
    /\ critic_ (nets s) = Some critic
    /\ critic_optimizer_ (nets s) = Some copt
    /\ critic_target_ (nets s) = Some ct
    /\ current_ent_coef E s = Some ec
    /\ target_q_values E (gamma_ (hp s)) ec actor ct (S (S (rng_ (world s))))
         batch = Some target
    /\ let pi := actor_sample E true actor (S (rng_ (world s)))
                   (observation batch) in
       let qs := Forward E critic (observation batch) (action batch) in
       let critic' :=
         mkModule
           (update_in_place
              (adam_step E copt (critic_grad E critic batch (data target))).2
              (params critic))
           (buffers critic) (training critic) in
       let critic_loss :=
         critic_loss_of
           (critic_forward E true LCritic critic (observation batch)
              (plain (action batch)))
           target in
       let actor_loss := tmean true (tsub true (tmul true ec pi.2) min_q) in
       critic_ (nets s') = Some critic'
       /\ stack_min true
            (critic_forward E true LCritic critic' (observation batch) pi.1)
          = Some min_q
       /\ (exists pre post,
             trace_ (world s')
             = trace_ (world s) ++ pre
               ++ [EvTargetQ step target; EvCriticStep step critic_loss;
                   EvActorStep step actor_loss]
               ++ post)
       /\ critic_loss_list st' = critic_loss_list st ++ [detach critic_loss]
       /\ actor_loss_list st' = actor_loss_list st ++ [detach actor_loss]
       /\ (Forall (fun o => length o = length (data target)) qs ->
           data critic_loss = [ensemble_mse qs (data target)]
           /\ (0 <= ensemble_mse qs (data target))%Qc).
Proof.
  intros H. apply train_step_inv in H.
  destruct H as (rb & batch & actor & s1 & st1 & ec & ct & tq & s2 & st2 & s3
                 & Hrb & Hb & Ha & He & Hct & Htq & Hc & Hap & Hp).
  pose proof (ent_coef_phase_optimizers _ _ _ _ _ _ _ _ He)
    as (Hco1 & Hhp1 & Hcl1 & Hal1).
  apply ent_coef_phase_trace in He.
  destruct He as (Htr1 & Hrng1 & Ha1 & Hc1 & Hct1 & Hec & _).
  apply critic_phase_loss in Hc.
  destruct Hc as (critic & copt & Hcr & Hco & Htr2 & Hc2 & Hcl2 & Hal2).
  apply actor_phase_loss in Hap.
  destruct Hap as (critic2 & min_q & Hcr2 & Hmin & Htr3 & Hc3 & Hal3 & Hcl3).
  apply polyak_phase_spec in Hp.
  destruct Hp as (_ & _ & Hc4 & Htr4 & _).
  rewrite Hc2 in Hcr2. injection Hcr2 as <-.
  cbn [nets emit tick upd_world world rng_ set_rng_ set_trace_ trace_ hp]
    in Hcr, Hco, Htr2, Hco1, Hhp1, Hrng1, Hc1, Hct1, Htr1.
  rewrite Hc1 in Hcr. rewrite Hco1 in Hco. rewrite Hct1 in Hct.
  rewrite Hhp1, Hrng1 in Htq.
  assert (Hec' : current_ent_coef E s = Some ec) by exact Hec.
  rewrite <- Hc4 in Hc3. rewrite Hal2, Hal1 in Hal3. rewrite Hcl2, Hcl1 in Hcl3.
  assert (Htr : exists pre post,
            trace_ (world s')
            = trace_ (world s) ++ pre
              ++ [EvTargetQ step tq;
                  EvCriticStep step
                    (critic_loss_of
                       (critic_forward E true LCritic critic
                          (observation batch) (plain (action batch)))
                       tq);
                  EvActorStep step
                    (tmean true (tsub true (tmul true ec
                       (actor_sample E true actor (S (rng_ (world s)))
                          (observation batch)).2) min_q))]
              ++ post).
  { exists (if auto_mode s then [EvEntCoefStep step] else []),
      (if bool_decide (Z.rem step (target_update_interval_ (hp s3)) = 0)
       then [EvPolyakUpdate step] else []).
    rewrite Htr4, Htr3, Htr2, Htr1.
    rewrite <- !app_assoc. reflexivity. }
  clear Htr1 Htr2 Htr3 Htr4 Hec Hc1 Hco1 Hct1 Hhp1 Hrng1 Hc2 Hc4 Hal1 Hal2
        Hcl1 Hcl2.
  exists rb, batch, actor, critic, copt, ct, ec, tq, min_q.
  repeat (split; [assumption|]). cbv zeta.
  repeat (split; [assumption|]).
  intros Hall. split; [|apply ensemble_mse_nonneg].
  apply (critic_loss_data E LCritic critic (observation batch)
           (plain (action batch)) tq).
  exact Hall.
Qed.

Lemma gradient_step_losses_witness :
  exists target critic_loss actor_loss pre post,
    trace_ (world Stub.stepped.1)
    = trace_ (world Stub.ready) ++ pre
      ++ [EvTargetQ 0 target; EvCriticStep 0 critic_loss;
          EvActorStep 0 actor_loss]
      ++ post
    /\ data critic_loss = [Q2Qc (6101 # 2500)].
Proof.
  assert (H : train_step Stub.env 0 (Stub.ready, no_stats)
              = Some (Stub.stepped.1, Stub.stepped.2))
    by (vm_compute; reflexivity).
  pose proof (gradient_step_losses Stub.env 0 _ _ _ _ H)
    as (rb & batch & actor & critic & copt & ct & ec & target & min_q
        & Hrb & Hb & Ha & Hc & Hco & Hct & Hec & Htq & Hrest).
  cbv zeta in Hrest.
  destruct Hrest as (_ & _ & (pre & post & Htr) & _ & _ & Hval).
  eexists target, _, _, pre, post. split; [exact Htr|].
  vm_compute in Hrb. injection Hrb as <-.
  vm_compute in Hb. injection Hb as <-.
  vm_compute in Ha. injection Ha as <-.
  vm_compute in Hc. injection Hc as <-.
  vm_compute in Hct. injection Hct as <-.
  vm_compute in Hec. injection Hec as <-.
  vm_compute in Htq. injection Htq as <-.
  match type of Hval with
  | ?A -> _ => assert (Hall : A) by (vm_compute; repeat constructor)
  end.
  destruct (Hval Hall) as [Hv _].
  rewrite Hv. vm_compute. reflexivity.
Defined.
